(** * Ralfresh: the persistent-mode phase state machine

    A shallow embedding of [src/hooks/ralfresh/{types,state,loop,index}.ts]
    and the properties of its lifecycle operations.

    The TypeScript code works on plain JSON objects read from and written to
    a state file.  The embedding keeps that shape:

    - a JavaScript value is a [value] (objects are association lists, in
      property order);
    - the process environment (file system, [process.env], the clock, the
      collaborators outside this module) is a [World], threaded through a
      state-and-exception monad [M];
    - every exported function of the module is a definition of the same
      name, written statement for statement after the source.

    Conventions of the model, fixed once here:

    - a number holds an integer ([Z]); it is a double, so a sum is rounded
      to the nearest double ([js_add]): exact up to [2^53], not beyond;
    - a string is a sequence of code units and [String.length] is the
      [.length] of the source;
    - the text of a file is either some text that is not JSON or a JSON
      text, which is identified with the value it parses to; printing a
      value drops what JSON cannot hold ([json_of]);
    - [directory] arguments are absolute and normalised, so [path.resolve]
      leaves them as they are;
    - a change of the file system fails for one cause, a directory that
      cannot be changed;
    - [console.error] and [console.warn] only log and are left out. *)

From Stdlib Require Import ZArith List String Ascii Bool Lia.
From stdpp Require Import base option list gmap strings pretty.

Local Open Scope string_scope.
Local Open Scope Z_scope.

(** ** JavaScript values *)

#[local] Set Warnings "-register-all".

Inductive value : Type :=
| VUndef
| VNull
| VBool (b : bool)
| VNum (n : Z)
| VStr (s : string)
| VArr (l : list value)
| VObj (o : list (string * value)).

Inductive exn : Type :=
| TypeError
| SyntaxError
| SystemError (code : string).

(** The result of evaluating an expression: a value or a thrown exception. *)
Inductive outcome (A : Type) : Type :=
| Ret (a : A)
| Throw (e : exn).
Arguments Ret {A} a.
Arguments Throw {A} e.

#[export] Instance outcome_ret : MRet outcome := fun _ a => Ret a.
#[export] Instance outcome_bind : MBind outcome := fun _ _ f m =>
  match m with
  | Ret a => f a
  | Throw e => Throw e
  end.

(** [typeof v], as the string the operator yields. *)
Definition typeof (v : value) : string :=
  match v with
  | VUndef => "undefined"
  | VNull => "object"
  | VBool _ => "boolean"
  | VNum _ => "number"
  | VStr _ => "string"
  | VArr _ => "object"
  | VObj _ => "object"
  end.

Definition Array_isArray (v : value) : bool :=
  match v with VArr _ => true | _ => false end.

(** Truthiness, for [if (x)], [!x], [a && b], [a || b]. *)
Definition truthy (v : value) : bool :=
  match v with
  | VUndef | VNull => false
  | VBool b => b
  | VNum n => negb (n =? 0)
  | VStr s => negb (String.eqb s "")
  | VArr _ | VObj _ => true
  end.

(** Strict equality [a === b] on primitives (objects and arrays are compared
    by identity in the source, which only ever compares primitives). *)
Definition strict_eq (a b : value) : bool :=
  match a, b with
  | VUndef, VUndef => true
  | VNull, VNull => true
  | VBool x, VBool y => Bool.eqb x y
  | VNum x, VNum y => x =? y
  | VStr x, VStr y => String.eqb x y
  | _, _ => false
  end.

Fixpoint assoc (k : string) (o : list (string * value)) : option value :=
  match o with
  | [] => None
  | (k', v) :: o' => if String.eqb k k' then Some v else assoc k o'
  end.

Fixpoint assoc_set (k : string) (x : value) (o : list (string * value))
  : list (string * value) :=
  match o with
  | [] => [(k, x)]
  | (k', v) :: o' =>
      if String.eqb k k' then (k', x) :: o' else (k', v) :: assoc_set k x o'
  end.

(** [v.k] on a receiver already known not to be [null] or [undefined]: an
    object yields the property or [undefined]; the keys the module reads are
    never own properties of arrays or primitives. *)
Definition field (k : string) (v : value) : value :=
  match v with
  | VObj o => default VUndef (assoc k o)
  | _ => VUndef
  end.

(** [v.k] / [v[k]] on an arbitrary receiver: reading a property of [null] or
    [undefined] throws. *)
Definition member (k : string) (v : value) : outcome value :=
  match v with
  | VUndef | VNull => Throw TypeError
  | _ => Ret (field k v)
  end.

(** [v.k = x] / [v[k] = x] in strict mode (ES modules): throws on [null],
    [undefined] and on primitives; on an object it replaces or appends the
    property.  A named property put on an array is not an element, is not
    printed by [JSON.stringify], and is not represented. *)
Definition assign (k : string) (x : value) (v : value) : outcome value :=
  match v with
  | VObj o => Ret (VObj (assoc_set k x o))
  | VArr l => Ret (VArr l)
  | _ => Throw TypeError
  end.

(** [v.k1[k2].k3 = x], the nested assignment the module uses on
    [state.phases[phase].status] and the like; the object graph of a state
    is a tree (no sharing), so the update is written as a rebuild. *)
Definition assign3 (k1 k2 k3 : string) (x : value) (v : value) : outcome value :=
  a ← member k1 v;
  b ← member k2 a;
  b' ← assign k3 x b;
  a' ← assign k2 b' a;
  assign k1 a' v.

(** [v.k1[k2] = x]. *)
Definition assign2 (k1 k2 : string) (x : value) (v : value) : outcome value :=
  a ← member k1 v;
  a' ← assign k2 x a;
  assign k1 a' v.

(** [v.k.push(x)]. *)
Definition push (k : string) (x : value) (v : value) : outcome value :=
  a ← member k v;
  match a with
  | VArr l => assign k (VArr (l ++ [x])) v
  | _ => Throw TypeError
  end.

(** [Object.keys(v)]: the own keys of an object, the indices of an array,
    nothing for a primitive; [null] and [undefined] throw. *)
Definition Object_keys (v : value) : outcome (list string) :=
  match v with
  | VObj o => Ret (fst <$> o)
  | VArr l => Ret ((fun i => pretty (Z.of_nat i)) <$> seq 0 (List.length l))
  | VUndef | VNull => Throw TypeError
  | _ => Ret []
  end.

(** The number held by a value whose [typeof] is ["number"]. *)
Definition num_of (v : value) : Z :=
  match v with VNum n => n | _ => 0 end.

(** [2^53]: up to this magnitude every integer is a double. *)
Definition two53 : Z := 9007199254740992.

(** The double nearest to an integer, a tie going to the even significand.
    An integer of magnitude at most [2^53] is a double; a larger one keeps
    its 53 leading bits, rounded. *)
Definition round_double (n : Z) : Z :=
  let a := Z.abs n in
  if a <=? two53 then n
  else
    let e := Z.log2 a - 52 in
    let q := Z.shiftr a e in
    let r := a - Z.shiftl q e in
    let half := Z.shiftl 1 (e - 1) in
    let q' := if (half <? r) || ((r =? half) && Z.odd q) then q + 1 else q in
    Z.sgn n * Z.shiftl q' e.

(** [a + b] on numbers: the sum, rounded to a double. *)
Definition js_add (a b : Z) : Z := round_double (a + b).

(** [a.length] and [a.slice(-n)] on an array value. *)
Definition array_length (v : value) : Z :=
  match v with VArr l => Z.of_nat (List.length l) | _ => 0 end.

(** Template-literal and property-key coercion, [`${v}`]: an array prints its
    elements separated by commas, [null] and [undefined] among them as
    nothing. *)
Fixpoint to_string (v : value) : string :=
  match v with
  | VUndef => "undefined"
  | VNull => "null"
  | VBool true => "true"
  | VBool false => "false"
  | VNum n => pretty n
  | VStr s => s
  | VArr l =>
      String.concat ","
        (List.map (fun x => match x with
                            | VUndef | VNull => ""
                            | _ => to_string x
                            end) l)
  | VObj _ => "[object Object]"
  end.

(** [s.length] and [s.slice(0, n)]. *)
Definition js_length (s : string) : Z := Z.of_nat (String.length s).
Definition js_slice0 (n : Z) (s : string) : string :=
  String.substring 0 (Z.to_nat n) s.

(** [a.slice(-n)]: the last [n] elements (all of them when there are fewer). *)
Definition slice_last {A} (n : Z) (l : list A) : list A :=
  drop (List.length l - Z.to_nat n)%nat l.

Definition array_slice_last (n : Z) (v : value) : value :=
  match v with VArr l => VArr (slice_last n l) | _ => v end.

(** [s.replace(/[:.]/g, '-')]. *)
Fixpoint replace_colon_dot (s : string) : string :=
  match s with
  | EmptyString => EmptyString
  | String c s' =>
      String (if Ascii.eqb c ":" || Ascii.eqb c "." then "-"%char else c)
             (replace_colon_dot s')
  end.

(** The line feed of the template literals. *)
Definition nl : string := String "010"%char "".

(** ** The process environment *)

(** A path names a directory or a file inside a directory. *)
Inductive path : Type :=
| Dir (d : string)
| File (d base : string).

(** [path.join(d, s1, ..., sn)] for directory segments. *)
Definition join (d : string) (segments : list string) : string :=
  fold_left (fun acc s => acc +:+ "/" +:+ s) segments d.

(** [path.resolve(d)]: the identity on absolute normalised directories. *)
Definition resolve (d : string) : string := d.

(** [file + suffix]. *)
Definition path_append (p : path) (suffix : string) : path :=
  match p with
  | Dir d => Dir (d +:+ suffix)
  | File d base => File d (base +:+ suffix)
  end.

(** The text of a file: some text that [JSON.parse] refuses, or a JSON text,
    given by the value it parses to. *)
Inductive text : Type :=
| NotJson (raw : string)
| Json (v : value).

Fixpoint remove_key (k : string) (o : list (string * value)) : list (string * value) :=
  match o with
  | [] => []
  | (k', v) :: o' =>
      if String.eqb k k' then remove_key k o' else (k', v) :: remove_key k o'
  end.

(** What is left of a value in its JSON text: a property that holds
    [undefined] is not printed, an [undefined] array element is printed as
    [null] (a key is printed once; only its first entry in the list counts). *)
Fixpoint json_of (v : value) : value :=
  match v with
  | VArr l =>
      VArr (List.map (fun x => match x with
                               | VUndef => VNull
                               | _ => json_of x
                               end) l)
  | VObj o =>
      VObj ((fix properties (o : list (string * value)) : list (string * value) :=
               match o with
               | [] => []
               | (k, x) :: o' =>
                   let rest := remove_key k (properties o') in
                   match x with
                   | VUndef => rest
                   | _ => (k, json_of x) :: rest
                   end
               end) o)
  | _ => v
  end.

(** [JSON.stringify(v, null, 2)], for the objects the module prints. *)
Definition JSON_stringify (v : value) : text := Json (json_of v).

Definition JSON_parse (t : text) : outcome value :=
  match t with
  | Json v => Ret v
  | NotJson _ => Throw SyntaxError
  end.

(** What [readPlanWisdom] of features/notepad-wisdom returns. *)
Record PlanWisdom : Type := {
  w_learnings : list string;
  w_decisions : list string;
  w_issues : list string;
  w_problems : list string
}.

(** Calls into features/notepad-wisdom, in the order they are made. *)
Inductive notepad_call : Type :=
| InitPlanNotepad (name directory : string)
| AddNotepadLearning (name : value) (entry directory : string)
| AddNotepadIssue (name : value) (entry directory : string).

Record World : Type := {
  files : gmap (string * string) text;  (* regular files, by directory and name *)
  dirs : gset string;                   (* existing directories *)
  readonly : gset string;               (* directories that cannot be created or changed *)
  env : gmap string string;             (* process.env *)
  cwd : string;                         (* process.cwd() *)
  clock : string;                       (* new Date().toISOString() *)
  notepad : list notepad_call;          (* calls received by notepad-wisdom *)
  mode_registry : string -> string -> bool * string;     (* canStartMode *)
  plan_wisdom : string -> string -> option PlanWisdom    (* readPlanWisdom *)
}.

Definition set_files (f : gmap (string * string) text) (w : World) : World :=
  {| files := f; dirs := dirs w; readonly := readonly w; env := env w;
     cwd := cwd w; clock := clock w; notepad := notepad w;
     mode_registry := mode_registry w; plan_wisdom := plan_wisdom w |}.

Definition set_dirs (d : gset string) (w : World) : World :=
  {| files := files w; dirs := d; readonly := readonly w; env := env w;
     cwd := cwd w; clock := clock w; notepad := notepad w;
     mode_registry := mode_registry w; plan_wisdom := plan_wisdom w |}.

Definition set_clock (t : string) (w : World) : World :=
  {| files := files w; dirs := dirs w; readonly := readonly w; env := env w;
     cwd := cwd w; clock := t; notepad := notepad w;
     mode_registry := mode_registry w; plan_wisdom := plan_wisdom w |}.

Definition set_notepad (n : list notepad_call) (w : World) : World :=
  {| files := files w; dirs := dirs w; readonly := readonly w; env := env w;
     cwd := cwd w; clock := clock w; notepad := n;
     mode_registry := mode_registry w; plan_wisdom := plan_wisdom w |}.

(** ** The monad of the module's functions: state and exceptions *)

Definition M (A : Type) : Type := World -> outcome A * World.

#[export] Instance M_ret : MRet M := fun _ a w => (Ret a, w).
#[export] Instance M_bind : MBind M := fun _ _ f m w =>
  match m w with
  | (Ret a, w') => f a w'
  | (Throw e, w') => (Throw e, w')
  end.

Definition throw {A} (e : exn) : M A := fun w => (Throw e, w).

(** An in-memory computation, run inside a function of the module. *)
Definition lift {A} (o : outcome A) : M A := fun w => (o, w).

(** [try { body } catch (error) { handler }]; effects made before the throw
    stay. *)
Definition try_catch {A} (body : M A) (handler : exn -> M A) : M A := fun w =>
  match body w with
  | (Ret a, w') => (Ret a, w')
  | (Throw e, w') => handler e w'
  end.

(** *** [fs]

    A path names a regular file or a directory, never both.  A change fails
    for one cause here: a directory in [readonly] can neither be created nor
    have an entry created, replaced or removed, so a sequence of changes in
    one directory fails at its first change or not at all.  The other ways a
    call can fail (a full disk, a rename refused after the temporary file is
    written) are not represented: a property about a change that fails
    either assumes this cause or says only what holds whatever the cause. *)

Definition existsSync (p : path) : M bool := fun w =>
  match p with
  | Dir d => (Ret (bool_decide (d ∈ dirs w)), w)
  | File d base => (Ret (bool_decide (is_Some (files w !! (d, base)))), w)
  end.

Definition readFileSync (p : path) : M text := fun w =>
  match p with
  | Dir _ => (Throw (SystemError "EISDIR"), w)
  | File d base =>
      match files w !! (d, base) with
      | Some t => (Ret t, w)
      | None => (Throw (SystemError "ENOENT"), w)
      end
  end.

(** Changing the entries of a read-only directory fails. *)
Definition check_writable (d : string) (w : World) : outcome unit :=
  if bool_decide (d ∈ readonly w) then Throw (SystemError "EACCES") else Ret tt.

(** Creating an entry needs its directory. *)
Definition check_dir (d : string) (w : World) : outcome unit :=
  if bool_decide (d ∈ dirs w) then Ret tt else Throw (SystemError "ENOENT").

Definition writeFileSync (p : path) (t : text) : M unit := fun w =>
  match p with
  | Dir _ => (Throw (SystemError "EISDIR"), w)
  | File d base =>
      match check_dir d w ;; check_writable d w with
      | Ret _ => (Ret tt, set_files (<[(d, base) := t]> (files w)) w)
      | Throw e => (Throw e, w)
      end
  end.

Definition renameSync (src dst : path) : M unit := fun w =>
  match src, dst with
  | File d base, File d' base' =>
      match files w !! (d, base) with
      | None => (Throw (SystemError "ENOENT"), w)
      | Some t =>
          match check_writable d w ;; check_dir d' w ;; check_writable d' w with
          | Ret _ =>
              (Ret tt, set_files (<[(d', base') := t]> (delete (d, base) (files w))) w)
          | Throw e => (Throw e, w)
          end
      end
  | _, _ => (Throw (SystemError "EISDIR"), w)
  end.

Definition unlinkSync (p : path) : M unit := fun w =>
  match p with
  | Dir _ => (Throw (SystemError "EISDIR"), w)
  | File d base =>
      match files w !! (d, base) with
      | None => (Throw (SystemError "ENOENT"), w)
      | Some _ =>
          match check_writable d w with
          | Ret _ => (Ret tt, set_files (delete (d, base) (files w)) w)
          | Throw e => (Throw e, w)
          end
      end
  end.

(** [mkdirSync(d, { recursive: true })]. *)
Definition mkdirSync (d : string) : M unit := fun w =>
  if bool_decide (d ∈ readonly w) then (Throw (SystemError "EACCES"), w)
  else (Ret tt, set_dirs ({[d]} ∪ dirs w) w).

(** [new Date().toISOString()]. *)
Definition Date_now : M string := fun w => (Ret (clock w), w).

(** [process.env.NAME], [undefined] when unset. *)
Definition process_env (name : string) : M value := fun w =>
  (Ret (from_option VStr VUndef (env w !! name)), w).

Definition process_cwd : M string := fun w => (Ret (cwd w), w).

(** ** types.ts *)

Inductive RalfreshPhase : Type :=
| planning | execution | review | assess | complete | failed.

Inductive RalfreshPhaseStatus : Type :=
| pending | in_progress | status_complete | status_failed.

#[export] Instance RalfreshPhase_eq_dec : EqDecision RalfreshPhase.
Proof. solve_decision. Defined.

#[export] Instance RalfreshPhaseStatus_eq_dec : EqDecision RalfreshPhaseStatus.
Proof. solve_decision. Defined.

(** The string a phase is at run time. *)
Definition phase_name (p : RalfreshPhase) : string :=
  match p with
  | planning => "planning"
  | execution => "execution"
  | review => "review"
  | assess => "assess"
  | complete => "complete"
  | failed => "failed"
  end.

Definition phase_of_string (s : string) : option RalfreshPhase :=
  if String.eqb s "planning" then Some planning
  else if String.eqb s "execution" then Some execution
  else if String.eqb s "review" then Some review
  else if String.eqb s "assess" then Some assess
  else if String.eqb s "complete" then Some complete
  else if String.eqb s "failed" then Some failed
  else None.

Definition status_name (s : RalfreshPhaseStatus) : string :=
  match s with
  | pending => "pending"
  | in_progress => "in_progress"
  | status_complete => "complete"
  | status_failed => "failed"
  end.

Definition status_of_string (s : string) : option RalfreshPhaseStatus :=
  if String.eqb s "pending" then Some pending
  else if String.eqb s "in_progress" then Some in_progress
  else if String.eqb s "complete" then Some status_complete
  else if String.eqb s "failed" then Some status_failed
  else None.

Record RalfreshPhaseState : Type := {
  status : RalfreshPhaseStatus;
  ps_startedAt : option string;
  ps_completedAt : option string
}.

(** [Record<RalfreshPhase, RalfreshPhaseState>]. *)
Record PhaseTable : Type := {
  of_planning : RalfreshPhaseState;
  of_execution : RalfreshPhaseState;
  of_review : RalfreshPhaseState;
  of_assess : RalfreshPhaseState;
  of_complete : RalfreshPhaseState;
  of_failed : RalfreshPhaseState
}.

Definition phase_record (p : RalfreshPhase) (t : PhaseTable) : RalfreshPhaseState :=
  match p with
  | planning => of_planning t
  | execution => of_execution t
  | review => of_review t
  | assess => of_assess t
  | complete => of_complete t
  | failed => of_failed t
  end.

Definition set_phase_record (p : RalfreshPhase) (r : RalfreshPhaseState)
    (t : PhaseTable) : PhaseTable :=
  {| of_planning := if decide (p = planning) then r else of_planning t;
     of_execution := if decide (p = execution) then r else of_execution t;
     of_review := if decide (p = review) then r else of_review t;
     of_assess := if decide (p = assess) then r else of_assess t;
     of_complete := if decide (p = complete) then r else of_complete t;
     of_failed := if decide (p = failed) then r else of_failed t |}.

Record LinkedModes : Type := {
  ralph : option bool;
  ultrawork : option bool;
  swarm : option bool;
  ralplan : option bool
}.

(** The [RalfreshState] interface; [?] fields and [| null] are options. *)
Record RalfreshState : Type := {
  active : bool;
  iteration : Z;
  maxIterations : Z;
  phase : RalfreshPhase;
  prompt : string;
  startedAt : string;
  completedAt : option string;
  sessionId : option string;
  notepadName : string;
  phases : PhaseTable;
  learnings : list string;
  issues : list string;
  planPath : option string;
  linkedModes : LinkedModes
}.

Record RalfreshConfig : Type := {
  cfg_maxIterations : option Z;
  cfg_swarmAgents : option Z;
  cfg_skipPlanning : option bool
}.

Record RalfreshLoopResult : Type := {
  shouldBlock : bool;
  message : string;
  result_phase : value;
  metadata_iteration : value;
  metadata_maxIterations : value
}.

Definition MAX_LEARNINGS : Z := 100.
Definition MAX_ISSUES : Z := 100.
Definition MAX_ENTRY_LENGTH : Z := 4096.
Definition MAX_PROMPT_LENGTH : Z := 32768.

(** *** A typed state as the object the code handles, and back *)

Definition opt_str (o : option string) : value := from_option VStr VUndef o.
Definition null_str (o : option string) : value := from_option VStr VNull o.
Definition opt_bool (o : option bool) : value := from_option VBool VUndef o.

Definition encode_record (r : RalfreshPhaseState) : value :=
  VObj [("status", VStr (status_name (status r)));
        ("startedAt", opt_str (ps_startedAt r));
        ("completedAt", opt_str (ps_completedAt r))].

Definition encode_phases (t : PhaseTable) : value :=
  VObj [("planning", encode_record (of_planning t));
        ("execution", encode_record (of_execution t));
        ("review", encode_record (of_review t));
        ("assess", encode_record (of_assess t));
        ("complete", encode_record (of_complete t));
        ("failed", encode_record (of_failed t))].

Definition encode_linked (m : LinkedModes) : value :=
  VObj [("ralph", opt_bool (ralph m));
        ("ultrawork", opt_bool (ultrawork m));
        ("swarm", opt_bool (swarm m));
        ("ralplan", opt_bool (ralplan m))].

Definition encode (st : RalfreshState) : value :=
  VObj [("active", VBool (active st));
        ("iteration", VNum (iteration st));
        ("maxIterations", VNum (maxIterations st));
        ("phase", VStr (phase_name (phase st)));
        ("prompt", VStr (prompt st));
        ("startedAt", VStr (startedAt st));
        ("completedAt", null_str (completedAt st));
        ("sessionId", opt_str (sessionId st));
        ("notepadName", VStr (notepadName st));
        ("phases", encode_phases (phases st));
        ("learnings", VArr (VStr <$> learnings st));
        ("issues", VArr (VStr <$> issues st));
        ("planPath", opt_str (planPath st));
        ("linkedModes", encode_linked (linkedModes st))].

Definition as_bool (v : value) : option bool :=
  match v with VBool b => Some b | _ => None end.
Definition as_num (v : value) : option Z :=
  match v with VNum n => Some n | _ => None end.
Definition as_str (v : value) : option string :=
  match v with VStr s => Some s | _ => None end.
Definition as_opt_str (v : value) : option (option string) :=
  match v with VUndef => Some None | VStr s => Some (Some s) | _ => None end.
Definition as_null_str (v : value) : option (option string) :=
  match v with VNull => Some None | VStr s => Some (Some s) | _ => None end.
Definition as_opt_bool (v : value) : option (option bool) :=
  match v with VUndef => Some None | VBool b => Some (Some b) | _ => None end.
Definition as_str_list (v : value) : option (list string) :=
  match v with VArr l => mapM as_str l | _ => None end.
Definition is_object (v : value) : bool :=
  match v with VObj _ => true | _ => false end.

Definition decode_record (v : value) : option RalfreshPhaseState :=
  if is_object v then
    s ← as_str (field "status" v) ≫= status_of_string;
    a ← as_opt_str (field "startedAt" v);
    c ← as_opt_str (field "completedAt" v);
    Some {| status := s; ps_startedAt := a; ps_completedAt := c |}
  else None.

Definition decode_phases (v : value) : option PhaseTable :=
  if is_object v then
    a ← decode_record (field "planning" v);
    b ← decode_record (field "execution" v);
    c ← decode_record (field "review" v);
    d ← decode_record (field "assess" v);
    e ← decode_record (field "complete" v);
    f ← decode_record (field "failed" v);
    Some {| of_planning := a; of_execution := b; of_review := c;
            of_assess := d; of_complete := e; of_failed := f |}
  else None.

Definition decode_linked (v : value) : option LinkedModes :=
  if is_object v then
    a ← as_opt_bool (field "ralph" v);
    b ← as_opt_bool (field "ultrawork" v);
    c ← as_opt_bool (field "swarm" v);
    d ← as_opt_bool (field "ralplan" v);
    Some {| ralph := a; ultrawork := b; swarm := c; ralplan := d |}
  else None.

(** [decode v = Some st]: the object [v] is an instance of the
    [RalfreshState] interface, with the fields of [st]. *)
Definition decode (v : value) : option RalfreshState :=
  if is_object v then
    a ← as_bool (field "active" v);
    i ← as_num (field "iteration" v);
    m ← as_num (field "maxIterations" v);
    p ← as_str (field "phase" v) ≫= phase_of_string;
    q ← as_str (field "prompt" v);
    s ← as_str (field "startedAt" v);
    c ← as_null_str (field "completedAt" v);
    sid ← as_opt_str (field "sessionId" v);
    n ← as_str (field "notepadName" v);
    t ← decode_phases (field "phases" v);
    l ← as_str_list (field "learnings" v);
    iss ← as_str_list (field "issues" v);
    pp ← as_opt_str (field "planPath" v);
    lm ← decode_linked (field "linkedModes" v);
    Some {| active := a; iteration := i; maxIterations := m; phase := p;
            prompt := q; startedAt := s; completedAt := c; sessionId := sid;
            notepadName := n; phases := t; learnings := l; issues := iss;
            planPath := pp; linkedModes := lm |}
  else None.

(** ** Collaborators outside the module *)

(** Modelled from the spec: [canStartMode] of hooks/mode-registry, the
    mutual-exclusion registry ("canStart(workflowName, directory) →
    {allowed, message}"); its answer is a datum of the environment. *)
Definition canStartMode (mode directory : string) : M (bool * string) := fun w =>
  (Ret (mode_registry w mode directory), w).

(** Modelled from the spec: [initPlanNotepad], [addLearning], [addIssue] and
    [readPlanWisdom] of features/notepad-wisdom, the notes store ("the state
    machine treats failures here as non-fatal"): the calls are recorded, and
    what the store holds is a datum of the environment. *)
Definition initPlanNotepad (name directory : string) : M unit := fun w =>
  (Ret tt, set_notepad (notepad w ++ [InitPlanNotepad name directory]) w).

Definition addNotepadLearning (name : value) (entry directory : string) : M unit :=
  fun w => (Ret tt, set_notepad (notepad w ++ [AddNotepadLearning name entry directory]) w).

Definition addNotepadIssue (name : value) (entry directory : string) : M unit :=
  fun w => (Ret tt, set_notepad (notepad w ++ [AddNotepadIssue name entry directory]) w).

Definition readPlanWisdom (name : value) (directory : string) : M (option PlanWisdom) :=
  fun w => (Ret (plan_wisdom w (to_string name) directory), w).

(** [for (const x of l) { body }], with the variables the body updates as
    the accumulator. *)
Fixpoint for_of {T : Type -> Type} `{MRet T, MBind T} {A S : Type}
    (l : list A) (body : A -> S -> T S) (s : S) : T S :=
  match l with
  | [] => mret s
  | x :: l' => s' ← body x s; for_of l' body s'
  end.

(** ** state.ts *)

Definition getStateFilePath (directory : string) : path :=
  let normalizedDir := resolve directory in
  File (join normalizedDir [".omc"; "state"]) "ralfresh-state.json".

Definition ensureStateDir (directory : string) : M unit :=
  let stateDir := join directory [".omc"; "state"] in
  e ← existsSync (Dir stateDir);
  if negb e then mkdirSync stateDir else mret tt.

Definition isValidRalfreshState (obj : value) : bool :=
  if negb (String.eqb (typeof obj) "object") || strict_eq obj VNull then false
  else
    let state := obj in
    String.eqb (typeof (field "active" state)) "boolean" &&
    String.eqb (typeof (field "iteration" state)) "number" &&
    String.eqb (typeof (field "maxIterations" state)) "number" &&
    String.eqb (typeof (field "phase" state)) "string" &&
    String.eqb (typeof (field "prompt" state)) "string" &&
    String.eqb (typeof (field "startedAt" state)) "string" &&
    String.eqb (typeof (field "notepadName" state)) "string" &&
    String.eqb (typeof (field "phases" state)) "object" &&
    Array_isArray (field "learnings" state) &&
    Array_isArray (field "issues" state).

Definition readRalfreshState (directory : string) : M (option value) :=
  let stateFile := getStateFilePath directory in
  e ← existsSync stateFile;
  if negb e then mret None
  else
    try_catch
      (content ← readFileSync stateFile;
       parsed ← lift (JSON_parse content);
       if negb (isValidRalfreshState parsed) then mret None
       else mret (Some parsed))
      (fun _ => mret None).

Definition writeRalfreshState (directory : string) (state : value) : M bool :=
  try_catch
    (ensureStateDir directory;;
     let stateFile := getStateFilePath directory in
     let tempFile := path_append stateFile ".tmp" in
     writeFileSync tempFile (JSON_stringify state);;
     renameSync tempFile stateFile;;
     mret true)
    (fun _ => mret false).

Definition clearRalfreshState (directory : string) : M bool :=
  let stateFile := getStateFilePath directory in
  e ← existsSync stateFile;
  if negb e then mret true
  else try_catch (unlinkSync stateFile;; mret true) (fun _ => mret false).

Definition isRalfreshActive (directory : string) : M bool :=
  state ← readRalfreshState directory;
  mret (match state with
        | Some state => strict_eq (field "active" state) (VBool true)
        | None => false
        end).

Definition localFilesToDelete : list string :=
  ["plan-consensus.json";
   "swarm.db";
   "swarm.db-wal";
   "swarm.db-shm";
   "swarm-active.marker";
   "ultrawork-state.json";
   "ralph-state.json";
   "ralph-verification.json"].

Definition globalFiles : list string :=
  ["ultrawork-state.json"; "ralph-state.json"].

(** [sessionId && (state.session_id === sessionId || state.sessionId === sessionId)]. *)
Definition sessionMatches (sessionId : option string) (state : value) : outcome bool :=
  match sessionId with
  | None => Ret false
  | Some sid =>
      if negb (truthy (VStr sid)) then Ret false
      else
        a ← member "session_id" state;
        if strict_eq a (VStr sid) then Ret true
        else b ← member "sessionId" state; Ret (strict_eq b (VStr sid))
  end.

Definition clearAllRalfreshSubModes (directory : string)
    (sessionId : option string) (force : bool) : M bool :=
  let stateDir := join directory [".omc"; "state"] in
  success ← for_of localFilesToDelete (fun (file : string) (success : bool) =>
    let filePath := File stateDir file in
    e ← existsSync filePath;
    if e : bool then try_catch (unlinkSync filePath;; mret success) (fun _ => mret false)
    else mret success) true;
  home ← process_env "HOME";
  userprofile ← process_env "USERPROFILE";
  let homeDir := if truthy home then home else userprofile in
  if negb (truthy homeDir) then mret success
  else
    let globalStateDir := join (to_string homeDir) [".claude"] in
    for_of globalFiles (fun (file : string) (success : bool) =>
      let filePath := File globalStateDir file in
      e ← existsSync filePath;
      if e : bool then
        try_catch
          (content ← readFileSync filePath;
           state ← lift (JSON_parse content);
           matched ← lift (sessionMatches sessionId state);
           if force || matched then unlinkSync filePath;; mret success
           else mret success)
          (fun _ => mret false)
      else mret success) success.

(** ** loop.ts *)

Definition VALID_TRANSITIONS (p : RalfreshPhase) : list RalfreshPhase :=
  match p with
  | planning => [execution]
  | execution => [review]
  | review => [assess]
  | assess => [planning; complete; failed]
  | complete => []
  | failed => []
  end.

(** [VALID_TRANSITIONS[key]] for a key met at run time: the table has the six
    phase names as its own keys; any other key yields [undefined] or a member
    inherited from [Object.prototype], neither of which has an [includes]
    method. *)
Definition VALID_TRANSITIONS_at (key : value) : option (list RalfreshPhase) :=
  VALID_TRANSITIONS <$> phase_of_string (to_string key).

Definition includes (q : RalfreshPhase) (l : list RalfreshPhase) : bool :=
  bool_decide (q ∈ l).

Definition is_terminal (p : RalfreshPhase) : bool :=
  bool_decide (p = complete) || bool_decide (p = failed).

Definition transitionRalfreshPhase (directory : string) (newPhase : RalfreshPhase)
  : M (option value) :=
  state ← readRalfreshState directory;
  match state with
  | None => mret None
  | Some state =>
      if negb (truthy (field "active" state)) then mret None
      else
        match VALID_TRANSITIONS_at (field "phase" state) with
        | None => throw TypeError
        | Some validNextPhases =>
            if negb (includes newPhase validNextPhases) then mret None
            else
              now ← Date_now;
              state ← lift (
                let current := to_string (field "phase" state) in
                let next := phase_name newPhase in
                state ← assign3 "phases" current "status" (VStr "complete") state;
                state ← assign3 "phases" current "completedAt" (VStr now) state;
                state ← assign "phase" (VStr next) state;
                state ← assign3 "phases" next "status" (VStr "in_progress") state;
                state ← assign3 "phases" next "startedAt" (VStr now) state;
                if is_terminal newPhase then
                  assign "active" (VBool false) state ≫= assign "completedAt" (VStr now)
                else mret state);
              ok ← writeRalfreshState directory state;
              if ok : bool then mret (Some state) else mret None
        end
  end.

Definition pending_record : value := VObj [("status", VStr "pending")].

Definition incrementRalfreshIteration (directory : string) (sessionId : option string)
  : M (option value) :=
  state ← readRalfreshState directory;
  match state with
  | None => mret None
  | Some state =>
      if negb (truthy (field "active" state)) then mret None
      else if num_of (field "iteration" state) >=? num_of (field "maxIterations" state)
      then transitionRalfreshPhase directory failed
      else
        now ← Date_now;
        state ← lift (
          state ← assign "iteration"
                    (VNum (js_add (num_of (field "iteration" state)) 1)) state;
          keys ← Object_keys (field "phases" state);
          state ← for_of keys (fun phase state =>
                     assign2 "phases" phase pending_record state) state;
          state ← assign "phase" (VStr "planning") state;
          state ← assign3 "phases" "planning" "status" (VStr "in_progress") state;
          assign3 "phases" "planning" "startedAt" (VStr now) state);
        clearAllRalfreshSubModes directory sessionId false;;
        ok ← writeRalfreshState directory state;
        if ok : bool then mret (Some state) else mret None
  end.

(** [text.length > MAX_ENTRY_LENGTH ? text.slice(0, MAX_ENTRY_LENGTH - 3) + '...' : text]. *)
Definition truncate_entry (entry : string) : string :=
  if js_length entry >? MAX_ENTRY_LENGTH
  then js_slice0 (MAX_ENTRY_LENGTH - 3) entry +:+ "..."
  else entry.

Definition addRalfreshLearning (directory : string) (learning : string) : M bool :=
  state ← readRalfreshState directory;
  match state with
  | None => mret false
  | Some state =>
      let truncatedLearning := truncate_entry learning in
      state ← lift (
        state ← push "learnings" (VStr truncatedLearning) state;
        if array_length (field "learnings" state) >? MAX_LEARNINGS then
          assign "learnings"
            (array_slice_last MAX_LEARNINGS (field "learnings" state)) state
        else mret state);
      addNotepadLearning (field "notepadName" state) truncatedLearning directory;;
      writeRalfreshState directory state
  end.

Definition addRalfreshIssue (directory : string) (issue : string) : M bool :=
  state ← readRalfreshState directory;
  match state with
  | None => mret false
  | Some state =>
      let truncatedIssue := truncate_entry issue in
      state ← lift (
        state ← push "issues" (VStr truncatedIssue) state;
        if array_length (field "issues" state) >? MAX_ISSUES then
          assign "issues"
            (array_slice_last MAX_ISSUES (field "issues" state)) state
        else mret state);
      addNotepadIssue (field "notepadName" state) truncatedIssue directory;;
      writeRalfreshState directory state
  end.

(** [items.map(x => `- ${x}`).join('\n')]. *)
Definition bullet_list (items : list string) : string :=
  String.concat nl ((fun x => "- " +:+ x) <$> items).

Definition getRalfreshContext (directory : string) : M string :=
  state ← readRalfreshState directory;
  match state with
  | None => mret ""
  | Some state =>
      wisdom ← readPlanWisdom (field "notepadName" state) directory;
      let parts : list string :=
        match wisdom with
        | Some wisdom =>
            ((if bool_decide (w_learnings wisdom = []) then []
              else ["## Previous Learnings" +:+ nl +:+ bullet_list (w_learnings wisdom)]) ++
             (if bool_decide (w_decisions wisdom = []) then []
              else ["## Decisions Made" +:+ nl +:+ bullet_list (w_decisions wisdom)]) ++
             (if bool_decide (w_issues wisdom = []) then []
              else ["## Known Issues" +:+ nl +:+ bullet_list (w_issues wisdom)]) ++
             (if bool_decide (w_problems wisdom = []) then []
              else ["## Problems Encountered" +:+ nl +:+ bullet_list (w_problems wisdom)]))%list
        | None => []
        end in
      let parts := (parts ++
        [nl +:+ "## Ralfresh Status" +:+ nl +:+
         "- Iteration: " +:+ to_string (field "iteration" state) +:+ "/" +:+
           to_string (field "maxIterations" state) +:+ nl +:+
         "- Phase: " +:+ to_string (field "phase" state) +:+ nl +:+
         "- Original Task: " +:+ to_string (field "prompt" state)])%list in
      mret (String.concat (nl +:+ nl) parts)
  end.

Definition getRalfreshContinuationPrompt (state : value) : string :=
  let iterInfo := "[Iteration " +:+ to_string (field "iteration" state) +:+ "/" +:+
                  to_string (field "maxIterations" state) +:+ "]" in
  let prompt := to_string (field "prompt" state) in
  match phase_of_string (to_string (field "phase" state)) with
  | Some planning =>
      iterInfo +:+ " **RALFRESH PLANNING PHASE**

You are in the ralfresh planning phase. Use the /oh-my-claudecode:ralplan skill to achieve planning consensus between Planner, Architect, and Critic.

Original task: " +:+ prompt +:+ "

DO NOT STOP until planning consensus is reached. When approved, transition to execution phase."
  | Some execution =>
      iterInfo +:+ " **RALFRESH EXECUTION PHASE**

You are in the ralfresh execution phase. Use /oh-my-claudecode:swarm or /oh-my-claudecode:ultrawork to execute the approved plan with maximum parallelism.

Original task: " +:+ prompt +:+ "

DO NOT STOP until all planned work is implemented. When complete, transition to review phase."
  | Some review =>
      iterInfo +:+ " **RALFRESH REVIEW PHASE**

You are in the ralfresh review phase. Spawn the Architect agent to verify the implementation meets all requirements.

Original task: " +:+ prompt +:+ "

The Architect MUST approve before proceeding. If rejected, capture issues and transition to assess phase."
  | Some assess =>
      iterInfo +:+ " **RALFRESH ASSESSMENT PHASE**

The Architect has reviewed the implementation. Based on the review:

- If APPROVED: Transition to 'complete' phase. Task is done.
- If REJECTED with iterations remaining: Capture learnings, increment iteration, start fresh planning with wisdom.
- If REJECTED and max iterations reached: Transition to 'failed' phase. Report partial completion.

Original task: " +:+ prompt
  | _ => ""
  end.

Definition processRalfreshLoop (sessionId : option string) (directory : option string)
  : M (option RalfreshLoopResult) :=
  workingDir ← match directory with
               | Some d => if truthy (VStr d) then mret d else process_cwd
               | None => process_cwd
               end;
  state ← readRalfreshState workingDir;
  match state with
  | None => mret None
  | Some state =>
      if negb (truthy (field "active" state)) then mret None
      else if strict_eq (field "phase" state) (VStr "complete")
              || strict_eq (field "phase" state) (VStr "failed")
      then
        clearRalfreshState workingDir;;
        clearAllRalfreshSubModes workingDir sessionId false;;
        mret (Some {|
          shouldBlock := false;
          message :=
            if strict_eq (field "phase" state) (VStr "complete")
            then "✅ Ralfresh completed successfully after " +:+
                 to_string (field "iteration" state) +:+ " iteration(s)."
            else "⚠️ Ralfresh failed after " +:+
                 to_string (field "iteration" state) +:+
                 " iteration(s). Max iterations reached.";
          result_phase := field "phase" state;
          metadata_iteration := field "iteration" state;
          metadata_maxIterations := field "maxIterations" state |})
      else
        let continuationPrompt := getRalfreshContinuationPrompt state in
        context ← getRalfreshContext workingDir;
        mret (Some {|
          shouldBlock := true;
          message :=
            "<ralfresh-continuation>" +:+ nl +:+ nl +:+
            continuationPrompt +:+ nl +:+ nl +:+
            (if truthy (VStr context)
             then "<ralfresh-wisdom>" +:+ nl +:+ context +:+ nl +:+ "</ralfresh-wisdom>"
             else "") +:+ nl +:+ nl +:+
            "</ralfresh-continuation>";
          result_phase := field "phase" state;
          metadata_iteration := field "iteration" state;
          metadata_maxIterations := field "maxIterations" state |})
  end.

(** ** index.ts *)

Definition createInitialPhases : value :=
  VObj [("planning", VObj [("status", VStr "pending")]);
        ("execution", VObj [("status", VStr "pending")]);
        ("review", VObj [("status", VStr "pending")]);
        ("assess", VObj [("status", VStr "pending")]);
        ("complete", VObj [("status", VStr "pending")]);
        ("failed", VObj [("status", VStr "pending")])].

Definition initRalfresh (directory prompt : string) (sessionId : option string)
    (config : option RalfreshConfig) : M (option value) :=
  if js_length prompt >? MAX_PROMPT_LENGTH then mret None
  else
    canStart ← canStartMode "ralfresh" directory;
    if negb (fst canStart) then mret None
    else
      now ← Date_now;
      let timestamp := js_slice0 19 (replace_colon_dot now) in
      let notepadName := "ralfresh-" +:+ timestamp in
      initPlanNotepad notepadName directory;;
      let state := VObj [
        ("active", VBool true);
        ("iteration", VNum 1);
        ("maxIterations", VNum (default 5 (config ≫= cfg_maxIterations)));
        ("phase", VStr (if default false (config ≫= cfg_skipPlanning)
                        then "execution" else "planning"));
        ("prompt", VStr prompt);
        ("startedAt", VStr now);
        ("completedAt", VNull);
        ("sessionId", opt_str sessionId);
        ("notepadName", VStr notepadName);
        ("phases", createInitialPhases);
        ("learnings", VArr []);
        ("issues", VArr []);
        ("linkedModes", VObj [])] in
      state ← lift (
        let first := to_string (field "phase" state) in
        state ← assign3 "phases" first "status" (VStr "in_progress") state;
        assign3 "phases" first "startedAt" (VStr now) state);
      ok ← writeRalfreshState directory state;
      if ok : bool then mret (Some state) else mret None.

(** * The vocabulary of the properties *)

(** ** The state file of a directory *)

(** [<directory>/.omc/state], where the module keeps its files. *)
Definition stateDir (directory : string) : string := join directory [".omc"; "state"].

(** The text of [ralfresh-state.json] under [directory], if the file exists. *)
Definition stored (directory : string) (w : World) : option text :=
  files w !! (stateDir directory, "ralfresh-state.json").

(** The file system lets the process create, rename and remove files in the
    state directory. *)
Definition writable (directory : string) (w : World) : Prop :=
  stateDir directory ∉ readonly w.

#[export] Instance writable_dec directory w : Decision (writable directory w).
Proof. unfold writable. apply _. Defined.

(** The world after [v] is saved under [directory]: the state directory
    exists, the state file holds the print of [v], no temporary file is left. *)
Definition written (directory : string) (v : value) (w : World) : World :=
  set_files (<[(stateDir directory, "ralfresh-state.json") := Json (json_of v)]>
               (delete (stateDir directory, "ralfresh-state.json.tmp") (files w)))
            (set_dirs ({[stateDir directory]} ∪ dirs w) w).

(** ** Objects that hold a typed state

    [rep v st]: the object [v] has every field of the [RalfreshState]
    interface, with the contents of [st].  Other properties of [v], and the
    order of its properties, are free. *)

Definition rep_record (v : value) (r : RalfreshPhaseState) : Prop :=
  is_object v = true /\
  field "status" v = VStr (status_name (status r)) /\
  field "startedAt" v = opt_str (ps_startedAt r) /\
  field "completedAt" v = opt_str (ps_completedAt r).

Definition rep_phases (v : value) (t : PhaseTable) : Prop :=
  is_object v = true /\
  forall p, rep_record (field (phase_name p) v) (phase_record p t).

Definition rep_linked (v : value) (m : LinkedModes) : Prop :=
  is_object v = true /\
  field "ralph" v = opt_bool (ralph m) /\
  field "ultrawork" v = opt_bool (ultrawork m) /\
  field "swarm" v = opt_bool (swarm m) /\
  field "ralplan" v = opt_bool (ralplan m).

Record rep (v : value) (st : RalfreshState) : Prop := {
  rep_object : is_object v = true;
  rep_active : field "active" v = VBool (active st);
  rep_iteration : field "iteration" v = VNum (iteration st);
  rep_maxIterations : field "maxIterations" v = VNum (maxIterations st);
  rep_phase : field "phase" v = VStr (phase_name (phase st));
  rep_prompt : field "prompt" v = VStr (prompt st);
  rep_startedAt : field "startedAt" v = VStr (startedAt st);
  rep_completedAt : field "completedAt" v = null_str (completedAt st);
  rep_sessionId : field "sessionId" v = opt_str (sessionId st);
  rep_notepadName : field "notepadName" v = VStr (notepadName st);
  rep_the_phases : rep_phases (field "phases" v) (phases st);
  rep_learnings : field "learnings" v = VArr (VStr <$> learnings st);
  rep_issues : field "issues" v = VArr (VStr <$> issues st);
  rep_planPath : field "planPath" v = opt_str (planPath st);
  rep_linkedModes : rep_linked (field "linkedModes" v) (linkedModes st)
}.

(** ** The operations, on typed states *)

Definition complete_phase (now : string) (r : RalfreshPhaseState) : RalfreshPhaseState :=
  {| status := status_complete;
     ps_startedAt := ps_startedAt r;
     ps_completedAt := Some now |}.

Definition start_phase (now : string) (r : RalfreshPhaseState) : RalfreshPhaseState :=
  {| status := in_progress;
     ps_startedAt := Some now;
     ps_completedAt := ps_completedAt r |}.

(** What [transitionRalfreshPhase] makes of a state it accepts. *)
Definition transition_state (now : string) (q : RalfreshPhase) (st : RalfreshState)
  : RalfreshState :=
  let t1 := set_phase_record (phase st)
              (complete_phase now (phase_record (phase st) (phases st))) (phases st) in
  let t2 := set_phase_record q (start_phase now (phase_record q t1)) t1 in
  {| active := if is_terminal q then false else active st;
     iteration := iteration st;
     maxIterations := maxIterations st;
     phase := q;
     prompt := prompt st;
     startedAt := startedAt st;
     completedAt := if is_terminal q then Some now else completedAt st;
     sessionId := sessionId st;
     notepadName := notepadName st;
     phases := t2;
     learnings := learnings st;
     issues := issues st;
     planPath := planPath st;
     linkedModes := linkedModes st |}.

Definition fresh_phase : RalfreshPhaseState :=
  {| status := pending; ps_startedAt := None; ps_completedAt := None |}.

(** What [incrementRalfreshIteration] makes of a state below the ceiling. *)
Definition increment_state (now : string) (st : RalfreshState) : RalfreshState :=
  {| active := active st;
     iteration := js_add (iteration st) 1;
     maxIterations := maxIterations st;
     phase := planning;
     prompt := prompt st;
     startedAt := startedAt st;
     completedAt := completedAt st;
     sessionId := sessionId st;
     notepadName := notepadName st;
     phases := {| of_planning := {| status := in_progress;
                                    ps_startedAt := Some now;
                                    ps_completedAt := None |};
                  of_execution := fresh_phase;
                  of_review := fresh_phase;
                  of_assess := fresh_phase;
                  of_complete := fresh_phase;
                  of_failed := fresh_phase |};
     learnings := learnings st;
     issues := issues st;
     planPath := planPath st;
     linkedModes := linkedModes st |}.

(** ** The sub-mode reaper *)

(** [removes names w w']: [w'] is [w] with some files among [names] removed
    and nothing else touched. *)
Definition removes (names : list string) (w w' : World) : Prop :=
  exists m, w' = set_files m w /\
    forall key, m !! key = files w !! key \/ (m !! key = None /\ key.2 ∈ names).

(** The bodies of the two loops of [clearAllRalfreshSubModes]. *)
Definition local_body (stateDir : string) (file : string) (success : bool) : M bool :=
  let filePath := File stateDir file in
  e ← existsSync filePath;
  if e : bool then try_catch (unlinkSync filePath;; mret success) (fun _ => mret false)
  else mret success.

Definition global_body (globalStateDir : string) (sessionId : option string)
    (force : bool) (file : string) (success : bool) : M bool :=
  let filePath := File globalStateDir file in
  e ← existsSync filePath;
  if e : bool then
    try_catch
      (content ← readFileSync filePath;
       state ← lift (JSON_parse content);
       matched ← lift (sessionMatches sessionId state);
       if force || matched then unlinkSync filePath;; mret success
       else mret success)
      (fun _ => mret false)
  else mret success.

(** ** The capped lists *)

(** [push] followed by the cap: what is kept of a list after an entry is
    added to it. *)
Definition add_entry (cap : Z) (entry : string) (l : list string) : list string :=
  let l' := (l ++ [entry])%list in
  if Z.of_nat (List.length l') >? cap then slice_last cap l' else l'.

Definition add_learning_state (learning : string) (st : RalfreshState) : RalfreshState :=
  {| active := active st; iteration := iteration st;
     maxIterations := maxIterations st; phase := phase st;
     prompt := prompt st; startedAt := startedAt st;
     completedAt := completedAt st; sessionId := sessionId st;
     notepadName := notepadName st; phases := phases st;
     learnings := add_entry MAX_LEARNINGS (truncate_entry learning) (learnings st);
     issues := issues st; planPath := planPath st;
     linkedModes := linkedModes st |}.

Definition add_issue_state (issue : string) (st : RalfreshState) : RalfreshState :=
  {| active := active st; iteration := iteration st;
     maxIterations := maxIterations st; phase := phase st;
     prompt := prompt st; startedAt := startedAt st;
     completedAt := completedAt st; sessionId := sessionId st;
     notepadName := notepadName st; phases := phases st;
     learnings := learnings st;
     issues := add_entry MAX_ISSUES (truncate_entry issue) (issues st);
     planPath := planPath st;
     linkedModes := linkedModes st |}.

(** The state [initRalfresh] creates. *)
Definition init_state (now prompt : string) (sessionId : option string)
    (config : option RalfreshConfig) : RalfreshState :=
  let first := if default false (config ≫= cfg_skipPlanning)
               then execution else planning in
  let all_fresh := {| of_planning := fresh_phase; of_execution := fresh_phase;
                      of_review := fresh_phase; of_assess := fresh_phase;
                      of_complete := fresh_phase; of_failed := fresh_phase |} in
  {| active := true;
     iteration := 1;
     maxIterations := default 5 (config ≫= cfg_maxIterations);
     phase := first;
     prompt := prompt;
     startedAt := now;
     completedAt := None;
     sessionId := sessionId;
     notepadName := "ralfresh-" +:+ js_slice0 19 (replace_colon_dot now);
     phases := set_phase_record first
                 {| status := in_progress; ps_startedAt := Some now;
                    ps_completedAt := None |} all_fresh;
     learnings := [];
     issues := [];
     planPath := None;
     linkedModes := {| ralph := None; ultrawork := None; swarm := None;
                       ralplan := None |} |}.

(** ** Instances *)

(** The instance a directory holds: the typed reading of its state file. *)
Definition instance_at (directory : string) (w : World) : option RalfreshState :=
  match stored directory w with
  | Some (Json v) => decode v
  | _ => None
  end.

(** The summary [processRalfreshLoop] gives at a terminal phase. *)
Definition summary (st : RalfreshState) : string :=
  if bool_decide (phase st = complete)
  then "✅ Ralfresh completed successfully after " +:+
       pretty (iteration st) +:+ " iteration(s)."
  else "⚠️ Ralfresh failed after " +:+
       pretty (iteration st) +:+ " iteration(s). Max iterations reached.".

(** Adding entries one call after the other. *)
Definition addRalfreshLearnings (directory : string) (entries : list string) : M unit :=
  for_of entries (fun entry _ => addRalfreshLearning directory entry;; mret tt) tt.

Definition addRalfreshIssues (directory : string) (entries : list string) : M unit :=
  for_of entries (fun entry _ => addRalfreshIssue directory entry;; mret tt) tt.

(** ** The lifecycle *)

(** The lifecycle operations, and the clock moving between two calls. *)
Inductive lifecycle_op : Type :=
| OpInit (request : string) (sessionId : option string) (config : option RalfreshConfig)
| OpTransition (newPhase : RalfreshPhase)
| OpIncrement (sessionId : option string)
| OpAddLearning (learning : string)
| OpAddIssue (issue : string)
| OpTick (time : string).

Definition run_op (directory : string) (op : lifecycle_op) (w : World) : World :=
  match op with
  | OpInit request sessionId config => (initRalfresh directory request sessionId config w).2
  | OpTransition newPhase => (transitionRalfreshPhase directory newPhase w).2
  | OpIncrement sessionId => (incrementRalfreshIteration directory sessionId w).2
  | OpAddLearning learning => (addRalfreshLearning directory learning w).2
  | OpAddIssue issue => (addRalfreshIssue directory issue w).2
  | OpTick time => set_clock time w
  end.

(** [lifecycle directory w]: [w] is reached from a successful [initRalfresh]
    by lifecycle operations on [directory]. *)
Inductive lifecycle (directory : string) : World -> Prop :=
| lifecycle_init w request sessionId config v w' :
    initRalfresh directory request sessionId config w = (Ret (Some v), w') ->
    lifecycle directory w'
| lifecycle_step w op :
    lifecycle directory w ->
    lifecycle directory (run_op directory op w).

(** "active = false iff phase is terminal and completedAt is set". *)
Definition lifecycle_invariant (st : RalfreshState) : Prop :=
  active st = false <-> (is_terminal (phase st) = true /\ completedAt st <> None).

(** The Phase Graph of the specification, as its list of edges. *)
Definition phase_graph : list (RalfreshPhase * RalfreshPhase) :=
  [(planning, execution); (execution, review); (review, assess);
   (assess, planning); (assess, complete); (assess, failed)].

(** ** What the further properties speak of *)

(** The fields [isValidRalfreshState] asks for. *)
Definition required_fields : list string :=
  ["active"; "iteration"; "maxIterations"; "phase"; "prompt"; "startedAt";
   "notepadName"; "phases"; "learnings"; "issues"].

(** Nothing that [readRalfreshState] would return is kept under
    [directory]: no state file, or one that is not JSON, or one that the
    validator refuses. *)
Definition no_state (directory : string) (w : World) : Prop :=
  match stored directory w with
  | Some (Json v) => isValidRalfreshState v = false
  | _ => True
  end.

(** [process.env.HOME || process.env.USERPROFILE]. *)
Definition home_directory (w : World) : value :=
  let home := from_option VStr VUndef (env w !! "HOME") in
  let userprofile := from_option VStr VUndef (env w !! "USERPROFILE") in
  if truthy home then home else userprofile.

(** The session named by a global state file differs from [sessionId]. *)
Definition of_other_session (sessionId : option string) (t : text) : Prop :=
  forall s v, sessionId = Some s -> t = Json v ->
    field "session_id" v <> VStr s /\ field "sessionId" v <> VStr s.

(** The computation returns: it does not throw. *)
Definition returns {A} (m : M A) (w : World) : Prop :=
  exists a w', m w = (Ret a, w').

(** The last part of the context: where the instance stands. *)
Definition status_block (st : RalfreshState) : string :=
  nl +:+ "## Ralfresh Status" +:+ nl +:+
  "- Iteration: " +:+ pretty (iteration st) +:+ "/" +:+
    pretty (maxIterations st) +:+ nl +:+
  "- Phase: " +:+ phase_name (phase st) +:+ nl +:+
  "- Original Task: " +:+ prompt st.

(** [[Iteration i/m]], the head of every continuation prompt. *)
Definition iteration_header (st : RalfreshState) : string :=
  "[Iteration " +:+ pretty (iteration st) +:+ "/" +:+
  pretty (maxIterations st) +:+ "]".

(** The name of a working phase as the prompts print it. *)
Definition phase_title (p : RalfreshPhase) : string :=
  match p with
  | planning => "PLANNING"
  | execution => "EXECUTION"
  | review => "REVIEW"
  | assess => "ASSESSMENT"
  | complete | failed => ""
  end.

(** Lifecycle operations, one after the other. *)
Definition run_ops (directory : string) (ops : list lifecycle_op) (w : World) : World :=
  foldl (fun w op => run_op directory op w) w ops.

(** From planning to a verdict. *)
Definition to_assess : list lifecycle_op :=
  [OpTransition execution; OpTransition review; OpTransition assess].

(** A round that the Architect rejects: through the phases to [assess], then
    [incrementRalfreshIteration]. *)
Definition rejected_round (sessionId : option string) : list lifecycle_op :=
  (to_assess ++ [OpIncrement sessionId])%list.

(** [n] rejected rounds in a row. *)
Fixpoint rejected_rounds (n : nat) (sessionId : option string) : list lifecycle_op :=
  match n with
  | O => []
  | S n => (rejected_round sessionId ++ rejected_rounds n sessionId)%list
  end.

(** A work phase: not [complete], not [failed]. *)
Definition work_phases : list RalfreshPhase := [planning; execution; review; assess].

(** ** Worlds to run the operations on *)

Definition project : string := "/work/app".
Definition new_year : string := "2026-01-01T00:00:00.000Z".

Definition blank_world : World :=
  {| files := ∅; dirs := ∅; readonly := ∅; env := ∅; cwd := project;
     clock := new_year; notepad := [];
     mode_registry := fun _ _ => (true, "");
     plan_wisdom := fun _ _ => None |}.

(** A fresh instance, as the test suite starts one. *)
Definition started_state : RalfreshState :=
  init_state new_year "build a feature" (Some "session-1") None.
Definition started_world : World :=
  run_op project (OpInit "build a feature" (Some "session-1") None) blank_world.

(** The same instance driven to [assess], then to [complete]. *)
Definition assess_state : RalfreshState :=
  transition_state new_year assess
    (transition_state new_year review
       (transition_state new_year execution started_state)).
Definition assess_world : World :=
  run_op project (OpTransition assess)
    (run_op project (OpTransition review)
       (run_op project (OpTransition execution) started_world)).

Definition finished_state : RalfreshState :=
  transition_state new_year complete assess_state.
Definition finished_world : World :=
  run_op project (OpTransition complete) assess_world.

(** An instance started with a single iteration allowed: at the ceiling from
    the start, in [planning]; and the same driven to [assess]. *)
Definition single_shot : RalfreshConfig :=
  {| cfg_maxIterations := Some 1; cfg_swarmAgents := None; cfg_skipPlanning := None |}.
Definition ceiling_state : RalfreshState :=
  init_state new_year "build a feature" None (Some single_shot).
Definition ceiling_world : World :=
  run_op project (OpInit "build a feature" None (Some single_shot)) blank_world.

Definition ceiling_assess_state : RalfreshState :=
  transition_state new_year assess
    (transition_state new_year review
       (transition_state new_year execution ceiling_state)).
Definition ceiling_assess_world : World :=
  run_op project (OpTransition assess)
    (run_op project (OpTransition review)
       (run_op project (OpTransition execution) ceiling_world)).

(** A state file edited by hand: a terminal phase with [active] still set. *)
Definition stuck_state : RalfreshState :=
  {| active := true; iteration := 2; maxIterations := 5; phase := failed;
     prompt := "build a feature"; startedAt := new_year; completedAt := None;
     sessionId := None; notepadName := "ralfresh-2026-01-01T00-00-00";
     phases := phases started_state; learnings := []; issues := [];
     planPath := None;
     linkedModes := {| ralph := None; ultrawork := None; swarm := None;
                       ralplan := None |} |}.
Definition stuck_world : World :=
  (writeRalfreshState project (encode stuck_state) blank_world).2.

(** A state file edited by hand: a phase that is none of the six. *)
Definition paused_document : value :=
  VObj [("active", VBool true); ("iteration", VNum 1); ("maxIterations", VNum 5);
        ("phase", VStr "paused"); ("prompt", VStr "build a feature");
        ("startedAt", VStr new_year); ("completedAt", VNull);
        ("notepadName", VStr "ralfresh-2026-01-01T00-00-00");
        ("phases", createInitialPhases); ("learnings", VArr []);
        ("issues", VArr []); ("linkedModes", VObj [])].
Definition paused_world : World :=
  (writeRalfreshState project paused_document blank_world).2.

(** [c.repeat(n)]. *)
Definition repeat_char (c : ascii) (n : Z) : string :=
  Z.iter n (String c) EmptyString.

(** ["learning 0"], ..., ["learning n-1"]. *)
Definition numbered (label : string) (n : nat) : list string :=
  (fun i => label +:+ " " +:+ pretty (Z.of_nat i)) <$> seq 0 n.

(** The instance at [assess], with what the sub-modes of the round have left
    in the state directory: a plan consensus, a swarm database and the state
    of ralph. *)
Definition littered_world : World :=
  set_files
    (<[(stateDir project, "plan-consensus.json") := Json (VObj [])]>
       (<[(stateDir project, "swarm.db") := NotJson "SQLite format 3"]>
          (<[(stateDir project, "ralph-state.json") :=
               Json (VObj [("active", VBool true)])]> (files assess_world))))
    assess_world.

(** The same instance with a counter that has reached [2^53], two below its
    ceiling. *)
Definition far_state : RalfreshState :=
  {| active := true; iteration := two53; maxIterations := two53 + 2;
     phase := assess; prompt := prompt assess_state;
     startedAt := startedAt assess_state; completedAt := None;
     sessionId := sessionId assess_state;
     notepadName := notepadName assess_state;
     phases := phases assess_state; learnings := []; issues := [];
     planPath := None; linkedModes := linkedModes assess_state |}.
Definition far_world : World :=
  (writeRalfreshState project (encode far_state) blank_world).2.

(** A state file as the test suite writes one by hand: [{ active: true }]. *)
Definition partial_document : value := VObj [("active", VBool true)].
Definition partial_world : World :=
  (writeRalfreshState project partial_document blank_world).2.

(** A project whose state directory cannot be changed. *)
Definition locked_world : World :=
  {| files := files started_world; dirs := dirs started_world;
     readonly := {[stateDir project]}; env := ∅; cwd := project;
     clock := new_year; notepad := [];
     mode_registry := fun _ _ => (true, "");
     plan_wisdom := fun _ _ => None |}.

(** The home directory of a user, with the ultrawork state of session
    ["session-1"] and the ralph state of session ["session-2"] in its [.claude]
    directory; the project holds a plan consensus. *)
Definition home_world : World :=
  {| files := {[ ("/home/user/.claude", "ultrawork-state.json") :=
                   Json (VObj [("active", VBool true); ("session_id", VStr "session-1")]);
                 ("/home/user/.claude", "ralph-state.json") :=
                   Json (VObj [("active", VBool true); ("session_id", VStr "session-2")]);
                 (stateDir project, "plan-consensus.json") := Json (VObj []) ]};
     dirs := {[ "/home/user/.claude"; stateDir project ]};
     readonly := ∅;
     env := {[ "HOME" := "/home/user" ]};
     cwd := project; clock := new_year; notepad := [];
     mode_registry := fun _ _ => (true, "");
     plan_wisdom := fun _ _ => None |}.

(** The same, with a state directory that cannot be changed. *)
Definition locked_home_world : World :=
  {| files := files home_world; dirs := dirs home_world;
     readonly := {[ stateDir project ]};
     env := env home_world;
     cwd := project; clock := new_year; notepad := [];
     mode_registry := fun _ _ => (true, "");
     plan_wisdom := fun _ _ => None |}.

(** An instance that skips planning and stops after three iterations. *)
Definition hurried : RalfreshConfig :=
  {| cfg_maxIterations := Some 3; cfg_swarmAgents := None;
     cfg_skipPlanning := Some true |}.

(** The started instance, with notes kept by the notepad. *)
Definition advised_world : World :=
  {| files := files started_world; dirs := dirs started_world;
     readonly := ∅; env := ∅; cwd := project; clock := new_year;
     notepad := notepad started_world;
     mode_registry := fun _ _ => (true, "");
     plan_wisdom := fun _ _ =>
       Some {| w_learnings := ["the parser keeps a cache"];
               w_decisions := [];
               w_issues := ["the tests fail on an empty list"];
               w_problems := [] |} |}.

(** A state file edited by hand: the table of phases is gone. *)
Definition tableless_document : value :=
  VObj [("active", VBool true); ("iteration", VNum 1); ("maxIterations", VNum 5);
        ("phase", VStr "planning"); ("prompt", VStr "build a feature");
        ("startedAt", VStr new_year); ("completedAt", VNull);
        ("notepadName", VStr "ralfresh-2026-01-01T00-00-00");
        ("phases", VNull); ("learnings", VArr []);
        ("issues", VArr []); ("linkedModes", VObj [])].
Definition tableless_world : World :=
  (writeRalfreshState project tableless_document blank_world).2.

(** An instance allowed two iterations. *)
Definition two_shots : RalfreshConfig :=
  {| cfg_maxIterations := Some 2; cfg_swarmAgents := None; cfg_skipPlanning := None |}.
Definition two_shots_state : RalfreshState :=
  init_state new_year "build a feature" None (Some two_shots).
Definition two_shots_world : World :=
  run_op project (OpInit "build a feature" None (Some two_shots)) blank_world.

(** * Lemmas *)

(** Closed goals are settled by evaluation. *)
Ltac compute_it := vm_compute; reflexivity.
Ltac decide_it := apply (bool_decide_unpack _); vm_compute; exact I.

#[local] Arguments join : simpl never.

(** ** Numbers *)

(** A sum of magnitude at most [2^53] is exact. *)
Lemma js_add_exact a b : - two53 <= a + b <= two53 -> js_add a b = a + b.
Proof.
  intros H. unfold js_add, round_double. cbv zeta.
  rewrite (proj2 (Z.leb_le _ _)); [done | lia].
Qed.

(** At [2^53] adding 1 changes nothing, and two above it adds 2. *)
Lemma js_add_two53 : js_add two53 1 = two53.
Proof. compute_it. Qed.

Lemma js_add_above_two53 : js_add (two53 + 2) 1 = two53 + 4.
Proof. compute_it. Qed.

(** A counter that starts in [1 .. 2^53] stays there. *)
Lemma js_add_one_bounded i :
  1 <= i <= two53 ->
  i <= js_add i 1 <= two53 /\ (i < two53 -> js_add i 1 = i + 1).
Proof.
  intros H. destruct (decide (i = two53)) as [->|Hne].
  - rewrite js_add_two53. lia.
  - rewrite js_add_exact by lia. lia.
Qed.

(** ** Objects *)

Lemma assoc_set_same k x o : assoc k (assoc_set k x o) = Some x.
Proof.
  induction o as [|[k' v] o IH]; simpl.
  - by rewrite String.eqb_refl.
  - destruct (String.eqb k k') eqn:E; simpl; rewrite E; [done | apply IH].
Qed.

Lemma assoc_set_other k k' x o :
  String.eqb k k' = false -> assoc k (assoc_set k' x o) = assoc k o.
Proof.
  intros Hne. induction o as [|[k'' v] o IH]; simpl.
  - by rewrite Hne.
  - destruct (String.eqb k' k'') eqn:E; simpl.
    + apply String.eqb_eq in E. subst k''. by rewrite Hne.
    + by rewrite IH.
Qed.

Lemma field_assoc_set k k' x o :
  field k (VObj (assoc_set k' x o)) = if String.eqb k k' then x else field k (VObj o).
Proof.
  unfold field. destruct (String.eqb k k') eqn:E.
  - apply String.eqb_eq in E. subst. by rewrite assoc_set_same.
  - by rewrite assoc_set_other.
Qed.

#[local] Arguments field : simpl never.
#[local] Arguments assoc_set : simpl never.

(** ** The state file *)

Lemma readRalfreshState_spec directory w :
  readRalfreshState directory w =
    (Ret (match stored directory w with
          | Some (Json v) => if isValidRalfreshState v then Some v else None
          | _ => None
          end), w).
Proof.
  unfold readRalfreshState, stored, getStateFilePath, resolve.
  fold (stateDir directory). cbn.
  unfold mbind, M_bind, existsSync. cbn.
  destruct (files w !! _) as [[raw|v]|] eqn:E; cbn.
  - unfold try_catch. by rewrite E.
  - unfold try_catch. rewrite E. cbn. by destruct (isValidRalfreshState v).
  - done.
Qed.

Lemma writeRalfreshState_spec directory v w :
  writeRalfreshState directory v w =
    if decide (writable directory w) then (Ret true, written directory v w)
    else (Ret false, w).
Proof.
  unfold writeRalfreshState, writable, written, try_catch, ensureStateDir,
    getStateFilePath, resolve.
  fold (stateDir directory). cbn.
  unfold mbind, M_bind, existsSync, mkdirSync, writeFileSync, renameSync,
    check_dir, check_writable; cbn.
  change ("ralfresh-state.json" +:+ ".tmp") with "ralfresh-state.json.tmp".
  unfold JSON_stringify.
  destruct (decide _) as [Hw|Hw].
  - destruct (bool_decide (_ ∈ dirs w)) eqn:Ed; cbn.
    + repeat first [rewrite (bool_decide_false _ Hw) | rewrite Ed
                   | rewrite lookup_insert_eq | progress cbn].
      f_equal. unfold set_files, set_dirs; cbn. f_equal.
      * by rewrite delete_insert_eq.
      * apply bool_decide_eq_true in Ed. symmetry. apply subseteq_union_1_L.
        by apply singleton_subseteq_l.
    + assert (Hin : stateDir directory ∈ {[stateDir directory]} ∪ dirs w)
        by (apply elem_of_union_l; by apply elem_of_singleton).
      repeat first [rewrite (bool_decide_false _ Hw) | rewrite (bool_decide_true _ Hin)
                   | rewrite lookup_insert_eq | progress cbn].
      f_equal. unfold set_files, set_dirs; cbn. f_equal.
      by rewrite delete_insert_eq.
  - apply dec_stable in Hw.
    destruct (bool_decide (_ ∈ dirs w)) eqn:Ed; cbn.
    + repeat first [rewrite (bool_decide_true _ Hw) | rewrite Ed | progress cbn].
      done.
    + repeat first [rewrite (bool_decide_true _ Hw) | rewrite Ed | progress cbn].
      done.
Qed.

(** ** Typed states and the objects that hold them *)

Lemma phase_of_string_name p : phase_of_string (phase_name p) = Some p.
Proof. by destruct p. Qed.

Lemma phase_of_string_inv s p : phase_of_string s = Some p -> s = phase_name p.
Proof.
  unfold phase_of_string.
  intros H.
  repeat match type of H with
         | (if String.eqb ?a ?b then _ else _) = _ =>
             destruct (String.eqb_spec a b) as [->|_]
         end; naive_solver.
Qed.

Lemma status_of_string_name s : status_of_string (status_name s) = Some s.
Proof. by destruct s. Qed.

Lemma status_of_string_inv s x : status_of_string s = Some x -> s = status_name x.
Proof.
  unfold status_of_string.
  intros H.
  repeat match type of H with
         | (if String.eqb ?a ?b then _ else _) = _ =>
             destruct (String.eqb_spec a b) as [->|_]
         end; naive_solver.
Qed.

Lemma as_bool_inv v b : as_bool v = Some b -> v = VBool b.
Proof. destruct v; naive_solver. Qed.

Lemma as_num_inv v n : as_num v = Some n -> v = VNum n.
Proof. destruct v; naive_solver. Qed.

Lemma as_str_inv v s : as_str v = Some s -> v = VStr s.
Proof. destruct v; naive_solver. Qed.

Lemma as_opt_str_inv v o : as_opt_str v = Some o -> v = opt_str o.
Proof. destruct v; naive_solver. Qed.

Lemma as_null_str_inv v o : as_null_str v = Some o -> v = null_str o.
Proof. destruct v; naive_solver. Qed.

Lemma as_opt_bool_inv v o : as_opt_bool v = Some o -> v = opt_bool o.
Proof. destruct v; naive_solver. Qed.

Lemma as_opt_str_opt_str o : as_opt_str (opt_str o) = Some o.
Proof. by destruct o. Qed.

Lemma as_null_str_null_str o : as_null_str (null_str o) = Some o.
Proof. by destruct o. Qed.

Lemma as_opt_bool_opt_bool o : as_opt_bool (opt_bool o) = Some o.
Proof. by destruct o. Qed.

Lemma as_str_list_inv v l : as_str_list v = Some l -> v = VArr (VStr <$> l).
Proof.
  destruct v as [| | | | |vs|]; try done. simpl. intros H. f_equal.
  revert l H. induction vs as [|x vs IH]; intros l H.
  - by injection H as <-.
  - simpl in H.
    destruct (as_str x) as [s|] eqn:Ex; [|done]. simpl in H.
    destruct (mapM as_str vs) as [l'|] eqn:El; [|done]. simpl in H.
    injection H as <-. apply as_str_inv in Ex. subst x.
    rewrite fmap_cons. f_equal. by apply IH.
Qed.

Lemma mapM_as_str_strs l : mapM as_str (VStr <$> l) = Some l.
Proof.
  induction l as [|s l IH]; [done|].
  rewrite fmap_cons. simpl. by rewrite IH.
Qed.

Lemma decode_record_rep v r : decode_record v = Some r <-> rep_record v r.
Proof.
  unfold decode_record, rep_record. split.
  - destruct (is_object v); [|done]. intros H.
    destruct (as_str (field "status" v)) as [s|] eqn:E1; [|done]. simpl in H.
    destruct (status_of_string s) as [x|] eqn:E1'; [|done]. simpl in H.
    destruct (as_opt_str (field "startedAt" v)) as [a|] eqn:E2; [|done]. simpl in H.
    destruct (as_opt_str (field "completedAt" v)) as [c|] eqn:E3; [|done]. simpl in H.
    injection H as <-. simpl.
    apply as_str_inv in E1. apply status_of_string_inv in E1'.
    apply as_opt_str_inv in E2, E3. subst s. done.
  - intros (-> & -> & -> & ->). simpl.
    rewrite status_of_string_name, !as_opt_str_opt_str. simpl. by destruct r.
Qed.

Lemma decode_phases_rep v t : decode_phases v = Some t <-> rep_phases v t.
Proof.
  unfold decode_phases, rep_phases. split.
  - destruct (is_object v); [|done]. intros H. simplify_option_eq.
    split; [done|]. intros []; simpl; by apply decode_record_rep.
  - intros [-> H]. simpl.
    pose proof (H planning) as H1. pose proof (H execution) as H2.
    pose proof (H review) as H3. pose proof (H assess) as H4.
    pose proof (H complete) as H5. pose proof (H failed) as H6.
    apply decode_record_rep in H1, H2, H3, H4, H5, H6. simpl in *.
    rewrite H1, H2, H3, H4, H5, H6. simpl. by destruct t.
Qed.

Lemma decode_linked_rep v m : decode_linked v = Some m <-> rep_linked v m.
Proof.
  unfold decode_linked, rep_linked. split.
  - destruct (is_object v); [|done]. intros H. simplify_option_eq.
    repeat split; simpl; by apply as_opt_bool_inv.
  - intros (-> & -> & -> & -> & ->). rewrite !as_opt_bool_opt_bool. simpl.
    by destruct m.
Qed.

Lemma decode_rep v st : decode v = Some st <-> rep v st.
Proof.
  unfold decode. split.
  - destruct (is_object v) eqn:Ho; [|done]. intros H. simplify_option_eq.
    constructor; simpl; try done;
      eauto using as_bool_inv, as_num_inv, as_str_inv, as_opt_str_inv,
        as_null_str_inv, as_str_list_inv.
    + match goal with H : phase_of_string _ = _ |- _ =>
        apply phase_of_string_inv in H; subst end.
      by apply as_str_inv.
    + by apply decode_phases_rep.
    + by apply decode_linked_rep.
  - intros [Ho H1 H2 H3 H4 H5 H6 H7 H8 H9 H10 H11 H12 H13 H14].
    rewrite Ho, H1, H2, H3, H4, H5, H6, H7, H8, H9, H11, H12, H13. simpl.
    apply decode_phases_rep in H10. apply decode_linked_rep in H14.
    rewrite phase_of_string_name, as_null_str_null_str, !as_opt_str_opt_str,
      H10, !mapM_as_str_strs, H14. simpl.
    by destruct st.
Qed.

Lemma decode_encode st : decode (encode st) = Some st.
Proof.
  apply decode_rep. constructor; try done.
  - split; [done|]. by intros [].
Qed.

Lemma rep_valid v st : rep v st -> isValidRalfreshState v = true.
Proof.
  intros [Ho H1 H2 H3 H4 H5 H6 H7 H8 H9 [H10 _] H11 H12 H13 H14].
  unfold isValidRalfreshState. destruct v; try done. simpl.
  rewrite H1, H2, H3, H4, H5, H6, H9, H11, H12. simpl.
  destruct (field "phases" _); done.
Qed.

(** ** What printing keeps *)

Lemma assoc_remove_key_same k o : assoc k (remove_key k o) = None.
Proof.
  induction o as [|[k' v] o IH]; simpl; [done|].
  destruct (String.eqb k k') eqn:E; [done|]. simpl. by rewrite E.
Qed.

Lemma assoc_remove_key_other k k' o :
  String.eqb k k' = false -> assoc k (remove_key k' o) = assoc k o.
Proof.
  intros Hne. induction o as [|[k'' v] o IH]; simpl; [done|].
  destruct (String.eqb_spec k' k'') as [<-|Hne'].
  - by rewrite Hne.
  - simpl. by rewrite IH.
Qed.

(** Reading a property of the printed object gives the print of the
    property. *)
Lemma field_json_of k v : is_object v = true -> field k (json_of v) = json_of (field k v).
Proof.
  destruct v as [| | | | | |o]; try done. intros _.
  unfold field. simpl.
  induction o as [|[k' x] o IH]; [done|].
  cbn [assoc]. destruct (String.eqb k k') eqn:E.
  - apply String.eqb_eq in E. subst k'.
    destruct x; simpl; rewrite ?String.eqb_refl; try done.
    by rewrite assoc_remove_key_same.
  - assert (Hrest : forall rest, assoc k (remove_key k' rest) = assoc k rest)
      by (intros; by apply assoc_remove_key_other).
    destruct x; simpl; rewrite ?E, Hrest; apply IH.
Qed.

Lemma json_of_strs l : json_of (VArr (VStr <$> l)) = VArr (VStr <$> l).
Proof.
  cbn [json_of]. f_equal.
  induction l as [|s l IH]; [done|]. cbn [fmap list_fmap List.map] in *. by rewrite IH.
Qed.

Lemma json_of_opt_str o : json_of (opt_str o) = opt_str o.
Proof. by destruct o. Qed.

Lemma json_of_null_str o : json_of (null_str o) = null_str o.
Proof. by destruct o. Qed.

Lemma json_of_opt_bool o : json_of (opt_bool o) = opt_bool o.
Proof. by destruct o. Qed.

Lemma is_object_json_of v : is_object (json_of v) = is_object v.
Proof. by destruct v. Qed.

Lemma rep_record_json_of v r : rep_record v r -> rep_record (json_of v) r.
Proof.
  intros (Ho & Hs & Ha & Hc). unfold rep_record.
  rewrite is_object_json_of, !field_json_of, Hs, Ha, Hc, !json_of_opt_str by done.
  done.
Qed.

Lemma rep_phases_json_of v t : rep_phases v t -> rep_phases (json_of v) t.
Proof.
  intros (Ho & H). split; [by rewrite is_object_json_of|].
  intros p. rewrite field_json_of by done. apply rep_record_json_of, H.
Qed.

Lemma rep_linked_json_of v m : rep_linked v m -> rep_linked (json_of v) m.
Proof.
  intros (Ho & H1 & H2 & H3 & H4). unfold rep_linked.
  rewrite is_object_json_of, !field_json_of, H1, H2, H3, H4, !json_of_opt_bool by done.
  done.
Qed.

(** The printed object holds the same typed state. *)
Lemma rep_json_of v st : rep v st -> rep (json_of v) st.
Proof.
  intros [Ho H1 H2 H3 H4 H5 H6 H7 H8 H9 H10 H11 H12 H13 H14].
  constructor; rewrite ?is_object_json_of, ?field_json_of by done; try done.
  - by rewrite H1.
  - by rewrite H2.
  - by rewrite H3.
  - by rewrite H4.
  - by rewrite H5.
  - by rewrite H6.
  - by rewrite H7, json_of_null_str.
  - by rewrite H8, json_of_opt_str.
  - by rewrite H9.
  - by apply rep_phases_json_of.
  - by rewrite H11, json_of_strs.
  - by rewrite H12, json_of_strs.
  - by rewrite H13, json_of_opt_str.
  - by apply rep_linked_json_of.
Qed.

(** ** The operations on typed states *)

Lemma is_object_inv v : is_object v = true -> exists o, v = VObj o.
Proof. destruct v; naive_solver. Qed.

Lemma rep_record_inv v r :
  rep_record v r -> exists o, v = VObj o /\
    field "status" (VObj o) = VStr (status_name (status r)) /\
    field "startedAt" (VObj o) = opt_str (ps_startedAt r) /\
    field "completedAt" (VObj o) = opt_str (ps_completedAt r).
Proof. intros (Ho & H). apply is_object_inv in Ho as [o ->]. eauto. Qed.

Lemma assign3_object k1 k2 k3 x o oa ob :
  field k1 (VObj o) = VObj oa ->
  field k2 (VObj oa) = VObj ob ->
  assign3 k1 k2 k3 x (VObj o) =
    Ret (VObj (assoc_set k1 (VObj (assoc_set k2 (VObj (assoc_set k3 x ob)) oa)) o)).
Proof. intros H1 H2. unfold assign3, member. simpl. by rewrite H1, H2. Qed.

Lemma assign2_object k1 k2 x o oa :
  field k1 (VObj o) = VObj oa ->
  assign2 k1 k2 x (VObj o) = Ret (VObj (assoc_set k1 (VObj (assoc_set k2 x oa)) o)).
Proof. intros H1. unfold assign2, member. simpl. by rewrite H1. Qed.

Lemma assign_object k x o : assign k x (VObj o) = Ret (VObj (assoc_set k x o)).
Proof. done. Qed.

Lemma outcome_bind_ret {A B} (a : A) (f : A -> outcome B) : Ret a ≫= f = f a.
Proof. done. Qed.

(** Reading a property through the updates made so far. *)
Ltac through_updates :=
  repeat (rewrite field_assoc_set; cbn [String.eqb Ascii.eqb Bool.eqb]).

Ltac read_field := through_updates; first [reflexivity | eassumption].

Ltac run_assign3 :=
  erewrite assign3_object; [rewrite outcome_bind_ret | read_field | read_field].

Ltac open_record HP p o E Hs Ha Hc :=
  let H := fresh "H" in
  pose proof (HP p) as H; apply rep_record_inv in H as (o & E & Hs & Ha & Hc);
  simpl phase_name in E; simpl phase_record in Hs, Ha, Hc.

Lemma transition_in_memory now q v st :
  rep v st -> q ∈ VALID_TRANSITIONS (phase st) ->
  exists v',
    (let current := to_string (field "phase" v) in
     let next := phase_name q in
     state ← assign3 "phases" current "status" (VStr "complete") v;
     state ← assign3 "phases" current "completedAt" (VStr now) state;
     state ← assign "phase" (VStr next) state;
     state ← assign3 "phases" next "status" (VStr "in_progress") state;
     state ← assign3 "phases" next "startedAt" (VStr now) state;
     if is_terminal q then
       assign "active" (VBool false) state ≫= assign "completedAt" (VStr now)
     else mret state) = Ret v' /\
    rep v' (transition_state now q st).
Proof.
  intros [Ho H1 H2 H3 H4 H5 H6 H7 H8 H9 [HPo HP] H11 H12 H13 H14] Hq.
  apply is_object_inv in Ho as [o ->].
  apply is_object_inv in HPo as [oP EP].
  open_record HP planning o1 E1 Hs1 Ha1 Hc1.
  open_record HP execution o2 E2 Hs2 Ha2 Hc2.
  open_record HP review o3 E3 Hs3 Ha3 Hc3.
  open_record HP assess o4 E4 Hs4 Ha4 Hc4.
  open_record HP complete o5 E5 Hs5 Ha5 Hc5.
  open_record HP failed o6 E6 Hs6 Ha6 Hc6.
  rewrite EP in *. clear HP.
  unfold transition_state.
  destruct st as [a i m p pr sa ca sid nn t l iss pp lm]; simpl in *.
  rewrite H4.
  destruct p; simpl in Hq; set_unfold in Hq;
    (repeat destruct Hq as [->|Hq]; try done); simpl to_string; simpl phase_name;
    cbv zeta; do 2 run_assign3; rewrite assign_object, outcome_bind_ret;
    do 2 run_assign3; simpl (is_terminal _); cbv iota;
    rewrite ?assign_object, ?outcome_bind_ret.

  all: eexists; split; [reflexivity|].
  all: constructor; cbn [active iteration maxIterations phase prompt startedAt
    completedAt sessionId notepadName phases learnings issues planPath linkedModes
    is_object]; try read_field.
  all: through_updates.
  all: split; [done|]; intros []; unfold rep_record; simpl phase_name;
    through_updates; rewrite ?E1, ?E2, ?E3, ?E4, ?E5, ?E6;
    (split; [done|]); simpl; repeat split; read_field.
Qed.

(** ** [transitionRalfreshPhase] *)

Lemma stored_written directory v w :
  stored directory (written directory v w) = Some (Json (json_of v)).
Proof. unfold stored, written. simpl. apply lookup_insert_eq. Qed.

Lemma writable_written directory directory' v w :
  writable directory (written directory' v w) <-> writable directory w.
Proof. done. Qed.

Lemma transition_rejected directory p q v w :
  stored directory w = Some (Json v) ->
  isValidRalfreshState v = true ->
  truthy (field "active" v) = true ->
  field "phase" v = VStr (phase_name p) ->
  q ∉ VALID_TRANSITIONS p ->
  transitionRalfreshPhase directory q w = (Ret None, w).
Proof.
  intros Hs Hv Ha Hp Hq. unfold transitionRalfreshPhase.
  unfold mbind at 1, M_bind at 1. rewrite readRalfreshState_spec, Hs, Hv, Ha.
  cbn [negb]. unfold VALID_TRANSITIONS_at. rewrite Hp. cbn [to_string].
  rewrite phase_of_string_name. cbn [fmap option_fmap option_map].
  unfold includes. by rewrite bool_decide_false.
Qed.

Lemma transition_accepted directory q v st w :
  stored directory w = Some (Json v) ->
  rep v st ->
  active st = true ->
  q ∈ VALID_TRANSITIONS (phase st) ->
  exists v',
    rep v' (transition_state (clock w) q st) /\
    transitionRalfreshPhase directory q w =
      if decide (writable directory w)
      then (Ret (Some v'), written directory v' w)
      else (Ret None, w).
Proof.
  intros Hs Hr Ha Hq.
  destruct (transition_in_memory (clock w) q v st Hr Hq) as (v' & Hrun & Hr').
  exists v'. split; [done|].
  unfold transitionRalfreshPhase.
  unfold mbind at 1, M_bind at 1.
  rewrite readRalfreshState_spec, Hs, (rep_valid _ _ Hr), (rep_active _ _ Hr), Ha.
  cbn [negb truthy]. unfold VALID_TRANSITIONS_at. rewrite (rep_phase _ _ Hr).
  cbn [to_string]. rewrite phase_of_string_name. cbn [fmap option_fmap option_map].
  unfold includes. rewrite bool_decide_true by done. cbn [negb].
  unfold mbind at 1, M_bind at 1, Date_now.
  unfold mbind at 1, M_bind at 1, lift.
  cbv zeta in Hrun |- *. rewrite (rep_phase _ _ Hr) in Hrun.
  cbn [to_string] in Hrun. rewrite Hrun.
  unfold mbind at 1, M_bind at 1. rewrite writeRalfreshState_spec.
  by destruct (decide _).
Qed.

(** ** [incrementRalfreshIteration] *)

Lemma assoc_Some_key k x o : assoc k o = Some x -> k ∈ (fst <$> o).
Proof.
  induction o as [|[k' v] o IH]; simpl; [done|].
  destruct (String.eqb_spec k k') as [->|_]; intros H; apply elem_of_cons;
    [by left | right; by apply IH].
Qed.

Lemma field_object_key k o o' : field k (VObj o) = VObj o' -> k ∈ (fst <$> o).
Proof.
  unfold field. destruct (assoc k o) eqn:E; [|done].
  intros _. by eapply assoc_Some_key.
Qed.

Lemma reset_loop ks : forall o oP,
  field "phases" (VObj o) = VObj oP ->
  exists o' oP',
    for_of ks (fun phase state => assign2 "phases" phase pending_record state) (VObj o)
      = Ret (VObj o') /\
    field "phases" (VObj o') = VObj oP' /\
    (forall k, String.eqb k "phases" = false -> field k (VObj o') = field k (VObj o)) /\
    (forall k, field k (VObj oP') =
               if bool_decide (k ∈ ks) then pending_record else field k (VObj oP)).
Proof.
  induction ks as [|k ks IH]; intros o oP HP.
  - exists o, oP. repeat split; try done.
  - cbn [for_of]. rewrite (assign2_object _ _ _ _ _ HP), outcome_bind_ret.
    destruct (IH (assoc_set "phases" (VObj (assoc_set k pending_record oP)) o)
                 (assoc_set k pending_record oP)) as (o' & oP' & Hrun & HP' & Hother & Hkeys).
    { rewrite field_assoc_set. by rewrite String.eqb_refl. }
    exists o', oP'. split; [done|]. split; [done|]. split.
    + intros k' Hk'. rewrite Hother by done. rewrite field_assoc_set. by rewrite Hk'.
    + intros k'. rewrite Hkeys, field_assoc_set.
      destruct (String.eqb_spec k' k) as [->|Hne].
      * rewrite (bool_decide_true (k ∈ k :: ks)) by (apply elem_of_cons; by left).
        by case_bool_decide.
      * apply (f_equal (fun b : bool => if b then _ else _)).
        apply bool_decide_ext. rewrite elem_of_cons. tauto.
Qed.

Lemma increment_in_memory now v st :
  rep v st ->
  exists v',
    (state ← assign "iteration" (VNum (js_add (num_of (field "iteration" v)) 1)) v;
     keys ← Object_keys (field "phases" state);
     state ← for_of keys (fun phase state =>
                assign2 "phases" phase pending_record state) state;
     state ← assign "phase" (VStr "planning") state;
     state ← assign3 "phases" "planning" "status" (VStr "in_progress") state;
     assign3 "phases" "planning" "startedAt" (VStr now) state) = Ret v' /\
    rep v' (increment_state now st).
Proof.
  intros [Ho H1 H2 H3 H4 H5 H6 H7 H8 H9 [HPo HP] H11 H12 H13 H14].
  apply is_object_inv in Ho as [o ->].
  apply is_object_inv in HPo as [oP EP].
  open_record HP planning o1 E1 Hs1 Ha1 Hc1.
  open_record HP execution o2 E2 Hs2 Ha2 Hc2.
  open_record HP review o3 E3 Hs3 Ha3 Hc3.
  open_record HP assess o4 E4 Hs4 Ha4 Hc4.
  open_record HP complete o5 E5 Hs5 Ha5 Hc5.
  open_record HP failed o6 E6 Hs6 Ha6 Hc6.
  rewrite EP in *. clear HP.
  rewrite H2. cbn [num_of]. rewrite assign_object, outcome_bind_ret.
  rewrite field_assoc_set. cbn [String.eqb Ascii.eqb Bool.eqb]. rewrite EP.
  cbn [Object_keys]. rewrite outcome_bind_ret.
  destruct (reset_loop (fst <$> oP)
              (assoc_set "iteration" (VNum (js_add (iteration st) 1)) o) oP)
    as (o' & oP' & Hrun & HP' & Hother & Hkeys).
  { by read_field. }
  rewrite Hrun, outcome_bind_ret. clear Hrun.
  assert (Hfresh : forall p, field (phase_name p) (VObj oP') = pending_record).
  { intros p. rewrite Hkeys. rewrite bool_decide_true; [done|].
    destruct p; simpl; eauto using field_object_key. }
  pose proof (Hfresh planning) as F1. pose proof (Hfresh execution) as F2.
  pose proof (Hfresh review) as F3. pose proof (Hfresh assess) as F4.
  pose proof (Hfresh complete) as F5. pose proof (Hfresh failed) as F6.
  simpl phase_name in *. unfold pending_record in *.
  rewrite assign_object, outcome_bind_ret. do 1 run_assign3.
  erewrite assign3_object; [ | read_field | read_field].
  eexists; split; [reflexivity|].
  constructor; cbn [active iteration maxIterations phase prompt startedAt
    completedAt sessionId notepadName phases learnings issues planPath linkedModes
    is_object increment_state]; try done.
  all: through_updates; try (rewrite Hother by done); try read_field.
  split; [done|]. intros []; unfold rep_record; simpl phase_name; simpl phase_record;
    through_updates; rewrite ?F1, ?F2, ?F3, ?F4, ?F5, ?F6; done.
Qed.

(** ** [clearAllRalfreshSubModes] *)

Lemma set_files_id w : set_files (files w) w = w.
Proof. by destruct w. Qed.

Lemma removes_refl names w : removes names w w.
Proof. exists (files w). split; [by rewrite set_files_id | by left]. Qed.

Lemma removes_trans names w1 w2 w3 :
  removes names w1 w2 -> removes names w2 w3 -> removes names w1 w3.
Proof.
  intros (m & -> & H) (m' & -> & H'). exists m'. split; [done|].
  intros key. simpl in H'. destruct (H' key) as [->|[-> Hk]]; [apply H | by right].
Qed.

Lemma removes_delete names d base w :
  base ∈ names -> removes names w (set_files (delete (d, base) (files w)) w).
Proof.
  intros Hb. eexists. split; [done|]. intros key.
  destruct (decide (key = (d, base))) as [->|Hne].
  - right. by rewrite lookup_delete_eq.
  - left. by rewrite lookup_delete_ne.
Qed.

Lemma removes_readonly names w w' : removes names w w' -> readonly w' = readonly w.
Proof. by intros (m & -> & _). Qed.

Lemma removes_clock names w w' : removes names w w' -> clock w' = clock w.
Proof. by intros (m & -> & _). Qed.

Lemma removes_dirs names w w' : removes names w w' -> dirs w' = dirs w.
Proof. by intros (m & -> & _). Qed.

Lemma removes_other names w w' d base :
  removes names w w' -> base ∉ names -> files w' !! (d, base) = files w !! (d, base).
Proof. intros (m & -> & H) Hb. simpl. destruct (H (d, base)) as [|[_ ?]]; done. Qed.

Lemma removes_absent names w w' key :
  removes names w w' -> files w !! key = None -> files w' !! key = None.
Proof. intros (m & -> & H) Hk. simpl. destruct (H key) as [->|[? _]]; done. Qed.

Lemma removes_mono names names' w w' :
  names ⊆ names' -> removes names w w' -> removes names' w w'.
Proof.
  intros Hs (m & -> & H). exists m. split; [done|].
  intros key. destruct (H key) as [|[? ?]]; [by left | right; set_solver].
Qed.

Lemma local_body_spec sd f success w :
  exists b, local_body sd f success w =
    (Ret b, if decide (sd ∈ readonly w) then w
            else set_files (delete (sd, f) (files w)) w) /\
    (sd ∉ readonly w -> b = success).
Proof.
  unfold local_body, existsSync, unlinkSync, try_catch, check_writable,
    mbind, M_bind, mret, M_ret. cbn.
  destruct (files w !! (sd, f)) as [t|] eqn:E; cbn.
  - rewrite E. destruct (decide (sd ∈ readonly w)) as [Hr|Hr].
    + rewrite (bool_decide_true _ Hr). eexists. split; [done|]. done.
    + rewrite (bool_decide_false _ Hr). eexists. split; [done|]. done.
  - exists success. rewrite delete_id by done. rewrite set_files_id.
    split; [by destruct (decide _)|done].
Qed.

Lemma local_loop sd names : forall success w,
  exists b w',
    for_of names (local_body sd) success w = (Ret b, w') /\
    removes names w w' /\
    (sd ∉ readonly w ->
       b = success /\ forall f, f ∈ names -> files w' !! (sd, f) = None).
Proof.
  induction names as [|f names IH]; intros success w.
  - exists success, w. split; [done|]. split; [apply removes_refl|].
    intros _. split; [done|]. intros f Hf. by apply elem_of_nil in Hf.
  - cbn [for_of]. unfold mbind at 1, M_bind at 1.
    destruct (local_body_spec sd f success w) as (b1 & -> & Hb1).
    set (w1 := if decide (sd ∈ readonly w) then w
               else set_files (delete (sd, f) (files w)) w).
    assert (Hw1 : removes (f :: names) w w1).
    { unfold w1. destruct (decide _); [apply removes_refl|].
      apply removes_delete. apply elem_of_cons. by left. }
    destruct (IH b1 w1) as (b & w' & -> & Hrem & Hdel).
    exists b, w'. split; [done|]. split.
    { eapply removes_trans; [done|]. eapply removes_mono; [|done].
      intros x Hx. apply elem_of_cons. by right. }
    intros Hr. destruct Hdel as [-> Hdel].
    { by rewrite (removes_readonly _ _ _ Hw1). }
    split; [by apply Hb1|]. intros f' [->|Hf']%elem_of_cons; [|by apply Hdel].
    eapply removes_absent; [done|]. unfold w1. rewrite decide_False by done.
    simpl. apply lookup_delete_eq.
Qed.

Lemma global_body_spec gd sid force f success w :
  exists b w', global_body gd sid force f success w = (Ret b, w') /\
    (w' = w \/ w' = set_files (delete (gd, f) (files w)) w).
Proof.
  unfold global_body, existsSync, readFileSync, unlinkSync, try_catch,
    check_writable, lift, mbind, M_bind, mret, M_ret. cbn.
  destruct (files w !! (gd, f)) as [[raw|v]|] eqn:E; cbn; rewrite ?E; cbn; eauto.
  destruct (sessionMatches sid v) as [matched|e]; eauto.
  destruct (force || matched); eauto. rewrite E.
  destruct (bool_decide (gd ∈ readonly w)); eauto.
Qed.

Lemma global_loop gd sid force names : forall success w,
  exists b w',
    for_of names (global_body gd sid force) success w = (Ret b, w') /\
    removes names w w'.
Proof.
  induction names as [|f names IH]; intros success w.
  - exists success, w. split; [done|]. apply removes_refl.
  - cbn [for_of]. unfold mbind at 1, M_bind at 1.
    destruct (global_body_spec gd sid force f success w) as (b1 & w1 & -> & Hw1).
    destruct (IH b1 w1) as (b & w' & -> & Hrem).
    exists b, w'. split; [done|].
    eapply removes_trans;
      [|eapply removes_mono; [|done]; intros x Hx; apply elem_of_cons; by right].
    destruct Hw1 as [->| ->]; [apply removes_refl|].
    apply removes_delete. apply elem_of_cons. by left.
Qed.

(** The reaper never throws; it only removes files that bear one of the
    sub-mode names; and where the state directory can be changed, no local
    sub-mode file is left. *)
Lemma clearAllRalfreshSubModes_spec directory sid force w :
  exists b w',
    clearAllRalfreshSubModes directory sid force w = (Ret b, w') /\
    removes localFilesToDelete w w' /\
    (writable directory w ->
       forall f, f ∈ localFilesToDelete -> files w' !! (stateDir directory, f) = None).
Proof.
  unfold clearAllRalfreshSubModes. fold (stateDir directory).
  cbv zeta. unfold mbind at 1, M_bind at 1.
  change (fun (file : string) (success : bool) => _)
    with (local_body (stateDir directory)) at 1.
  destruct (local_loop (stateDir directory) localFilesToDelete true w)
    as (b1 & w1 & -> & Hrem1 & Hdel).
  unfold mbind at 1, M_bind at 1, process_env at 1.
  unfold mbind at 1, M_bind at 1, process_env at 1.
  set (home := from_option VStr VUndef (env w1 !! "HOME")).
  set (userprofile := from_option VStr VUndef (env w1 !! "USERPROFILE")).
  set (homeDir := if truthy home then home else userprofile).
  destruct (truthy homeDir); cbn [negb].
  - change (fun (file : string) (success : bool) => _)
      with (global_body (join (to_string homeDir) [".claude"]) sid force).
    destruct (global_loop (join (to_string homeDir) [".claude"]) sid force
                globalFiles b1 w1) as (b & w' & -> & Hrem2).
    exists b, w'. split; [done|].
    assert (Hrem2' : removes localFilesToDelete w1 w').
    { eapply removes_mono; [|done]. intros x Hx. unfold globalFiles in Hx.
      repeat (apply elem_of_cons in Hx as [->|Hx]; [decide_it|]).
      by apply elem_of_nil in Hx. }
    split; [by eapply removes_trans|].
    intros Hw f Hf. eapply removes_absent; [done|]. by apply Hdel.
  - exists b1, w1. split; [done|]. split; [done|].
    intros Hw f Hf. by apply Hdel.
Qed.

Lemma increment_below_ceiling directory sid v st w :
  stored directory w = Some (Json v) ->
  rep v st ->
  active st = true ->
  iteration st < maxIterations st ->
  exists v',
    rep v' (increment_state (clock w) st) /\
    incrementRalfreshIteration directory sid w =
      let cleaned := (clearAllRalfreshSubModes directory sid false w).2 in
      if decide (writable directory w)
      then (Ret (Some v'), written directory v' cleaned)
      else (Ret None, cleaned).
Proof.
  intros Hs Hr Ha Hlt.
  destruct (increment_in_memory (clock w) v st Hr) as (v' & Hrun & Hr').
  exists v'. split; [done|].
  unfold incrementRalfreshIteration.
  unfold mbind at 1, M_bind at 1.
  rewrite readRalfreshState_spec, Hs, (rep_valid _ _ Hr), (rep_active _ _ Hr), Ha.
  cbn [negb truthy].
  rewrite (rep_iteration _ _ Hr), (rep_maxIterations _ _ Hr). cbn [num_of].
  rewrite Z.geb_leb, (proj2 (Z.leb_gt _ _)) by lia.
  unfold mbind at 1, M_bind at 1, Date_now.
  unfold mbind at 1, M_bind at 1, lift.
  rewrite (rep_iteration _ _ Hr) in Hrun. cbn [num_of] in Hrun. rewrite Hrun.
  unfold mbind at 1, M_bind at 1.
  destruct (clearAllRalfreshSubModes_spec directory sid false w)
    as (b & cleaned & Hc & Hrem & _).
  rewrite Hc. cbn [snd].
  unfold mbind at 1, M_bind at 1. rewrite writeRalfreshState_spec.
  assert (Hwr : writable directory cleaned <-> writable directory w).
  { unfold writable. by rewrite (removes_readonly _ _ _ Hrem). }
  destruct (decide (writable directory cleaned)), (decide (writable directory w));
    try done; exfalso; tauto.
Qed.

Lemma increment_at_ceiling directory sid v w :
  stored directory w = Some (Json v) ->
  isValidRalfreshState v = true ->
  truthy (field "active" v) = true ->
  num_of (field "maxIterations" v) <= num_of (field "iteration" v) ->
  incrementRalfreshIteration directory sid w =
    transitionRalfreshPhase directory failed w.
Proof.
  intros Hs Hv Ha Hge. unfold incrementRalfreshIteration.
  unfold mbind at 1, M_bind at 1.
  rewrite readRalfreshState_spec, Hs, Hv, Ha. cbn [negb].
  by rewrite Z.geb_leb, (proj2 (Z.leb_le _ _)) by lia.
Qed.

(** ** [addRalfreshLearning], [addRalfreshIssue] *)

Lemma push_object k x o l :
  field k (VObj o) = VArr l ->
  push k x (VObj o) = Ret (VObj (assoc_set k (VArr (l ++ [x])%list) o)).
Proof. intros H. unfold push, member. simpl. by rewrite H. Qed.

Lemma add_entry_array cap entry l :
  (if Z.of_nat (List.length ((VStr <$> l) ++ [VStr entry])%list) >? cap
   then VArr (slice_last cap ((VStr <$> l) ++ [VStr entry])%list)
   else VArr ((VStr <$> l) ++ [VStr entry])%list)
  = VArr (VStr <$> add_entry cap entry l).
Proof.
  unfold add_entry, slice_last.
  replace ((VStr <$> l) ++ [VStr entry])%list with (VStr <$> (l ++ [entry])%list)
    by by rewrite fmap_app.
  rewrite !length_fmap. destruct (_ >? _); [|done].
  by rewrite fmap_drop.
Qed.

Lemma add_learning_in_memory entry v st :
  rep v st ->
  exists v',
    (state ← push "learnings" (VStr (truncate_entry entry)) v;
     if array_length (field "learnings" state) >? MAX_LEARNINGS then
       assign "learnings"
         (array_slice_last MAX_LEARNINGS (field "learnings" state)) state
     else mret state) = Ret v' /\
    rep v' (add_learning_state entry st).
Proof.
  intros [Ho H1 H2 H3 H4 H5 H6 H7 H8 H9 H10 H11 H12 H13 H14].
  apply is_object_inv in Ho as [o ->].
  rewrite (push_object _ _ _ _ H11), outcome_bind_ret.
  rewrite field_assoc_set. cbn [String.eqb Ascii.eqb Bool.eqb].
  cbn [array_length array_slice_last]. rewrite assign_object.
  pose proof (add_entry_array MAX_LEARNINGS (truncate_entry entry) (learnings st)) as Hadd.
  destruct (_ >? _); eexists; (split; [reflexivity|]);
    constructor; cbn [active iteration maxIterations phase prompt startedAt
      completedAt sessionId notepadName phases learnings issues planPath linkedModes
      is_object add_learning_state]; try done; try read_field.
Qed.

Lemma add_issue_in_memory entry v st :
  rep v st ->
  exists v',
    (state ← push "issues" (VStr (truncate_entry entry)) v;
     if array_length (field "issues" state) >? MAX_ISSUES then
       assign "issues"
         (array_slice_last MAX_ISSUES (field "issues" state)) state
     else mret state) = Ret v' /\
    rep v' (add_issue_state entry st).
Proof.
  intros [Ho H1 H2 H3 H4 H5 H6 H7 H8 H9 H10 H11 H12 H13 H14].
  apply is_object_inv in Ho as [o ->].
  rewrite (push_object _ _ _ _ H12), outcome_bind_ret.
  rewrite field_assoc_set. cbn [String.eqb Ascii.eqb Bool.eqb].
  cbn [array_length array_slice_last]. rewrite assign_object.
  pose proof (add_entry_array MAX_ISSUES (truncate_entry entry) (issues st)) as Hadd.
  destruct (_ >? _); eexists; (split; [reflexivity|]);
    constructor; cbn [active iteration maxIterations phase prompt startedAt
      completedAt sessionId notepadName phases learnings issues planPath linkedModes
      is_object add_issue_state]; try done; try read_field.
Qed.

Lemma addRalfreshLearning_spec directory entry v st w :
  stored directory w = Some (Json v) ->
  rep v st ->
  exists v',
    rep v' (add_learning_state entry st) /\
    addRalfreshLearning directory entry w =
      let noted := set_notepad
        (notepad w ++ [AddNotepadLearning (VStr (notepadName st))
                         (truncate_entry entry) directory])%list w in
      if decide (writable directory w)
      then (Ret true, written directory v' noted)
      else (Ret false, noted).
Proof.
  intros Hs Hr.
  destruct (add_learning_in_memory entry v st Hr) as (v' & Hrun & Hr').
  exists v'. split; [done|].
  unfold addRalfreshLearning.
  unfold mbind at 1, M_bind at 1.
  rewrite readRalfreshState_spec, Hs, (rep_valid _ _ Hr).
  cbv zeta. unfold mbind at 1, M_bind at 1, lift. rewrite Hrun.
  unfold mbind at 1, M_bind at 1, addNotepadLearning.
  rewrite (rep_notepadName _ _ Hr'). cbn [notepadName add_learning_state].
  rewrite writeRalfreshState_spec.
  destruct (decide (writable directory (set_notepad _ w))),
    (decide (writable directory w)); naive_solver.
Qed.

Lemma addRalfreshIssue_spec directory entry v st w :
  stored directory w = Some (Json v) ->
  rep v st ->
  exists v',
    rep v' (add_issue_state entry st) /\
    addRalfreshIssue directory entry w =
      let noted := set_notepad
        (notepad w ++ [AddNotepadIssue (VStr (notepadName st))
                         (truncate_entry entry) directory])%list w in
      if decide (writable directory w)
      then (Ret true, written directory v' noted)
      else (Ret false, noted).
Proof.
  intros Hs Hr.
  destruct (add_issue_in_memory entry v st Hr) as (v' & Hrun & Hr').
  exists v'. split; [done|].
  unfold addRalfreshIssue.
  unfold mbind at 1, M_bind at 1.
  rewrite readRalfreshState_spec, Hs, (rep_valid _ _ Hr).
  cbv zeta. unfold mbind at 1, M_bind at 1, lift. rewrite Hrun.
  unfold mbind at 1, M_bind at 1, addNotepadIssue.
  rewrite (rep_notepadName _ _ Hr'). cbn [notepadName add_issue_state].
  rewrite writeRalfreshState_spec.
  destruct (decide (writable directory (set_notepad _ w))),
    (decide (writable directory w)); naive_solver.
Qed.

(** ** [initRalfresh] *)

Lemma initRalfresh_too_long directory prompt sid config w :
  js_length prompt > MAX_PROMPT_LENGTH ->
  initRalfresh directory prompt sid config w = (Ret None, w).
Proof.
  intros H. unfold initRalfresh. by rewrite (proj2 (Z.gtb_gt _ _)) by lia.
Qed.

Lemma initRalfresh_blocked directory prompt sid config w :
  (mode_registry w "ralfresh" directory).1 = false ->
  initRalfresh directory prompt sid config w = (Ret None, w).
Proof.
  intros H. unfold initRalfresh. destruct (_ >? _); [done|].
  unfold mbind at 1, M_bind at 1, canStartMode. by rewrite H.
Qed.

Lemma initRalfresh_spec directory request sid config w :
  js_length request <= MAX_PROMPT_LENGTH ->
  (mode_registry w "ralfresh" directory).1 = true ->
  exists v',
    rep v' (init_state (clock w) request sid config) /\
    initRalfresh directory request sid config w =
      let noted := set_notepad
        (notepad w ++ [InitPlanNotepad
           ("ralfresh-" +:+ js_slice0 19 (replace_colon_dot (clock w))) directory])%list w in
      if decide (writable directory w)
      then (Ret (Some v'), written directory v' noted)
      else (Ret None, noted).
Proof.
  intros Hlen Hreg. unfold initRalfresh.
  remember (init_state (clock w) request sid config) as st0 eqn:Est0.
  rewrite Z.gtb_ltb, (proj2 (Z.ltb_ge _ _)) by lia.
  unfold mbind at 1, M_bind at 1, canStartMode. rewrite Hreg. cbn [negb].
  unfold mbind at 1, M_bind at 1, Date_now.
  cbv zeta. unfold mbind at 1, M_bind at 1, initPlanNotepad.
  unfold mbind at 1, M_bind at 1, lift.
  unfold init_state, createInitialPhases in *.
  destruct (default false (config ≫= cfg_skipPlanning)) eqn:Eskip.
  all: match goal with |- context [to_string (field "phase" (VObj ?l))] =>
         let r := eval cbv in (to_string (field "phase" (VObj l))) in
         change (to_string (field "phase" (VObj l))) with r end.
  all: erewrite assign3_object; [ | reflexivity | reflexivity].
  all: rewrite outcome_bind_ret.
  all: erewrite assign3_object; [ | read_field | read_field].
  all: unfold mbind at 1, M_bind at 1; rewrite writeRalfreshState_spec.
  all: eexists; split; cycle 1.
  all: try (destruct (decide (writable directory (set_notepad _ w))),
       (decide (writable directory w)); try naive_solver; reflexivity).
  all: subst st0; constructor;
    cbn [active iteration maxIterations phase prompt startedAt
      completedAt sessionId notepadName phases learnings issues planPath linkedModes
      is_object]; try done; try read_field.
  all: through_updates; split; [done|]; intros []; unfold rep_record;
    simpl phase_name; simpl phase_record; through_updates; done.
Qed.

Lemma instance_at_inv directory w st :
  instance_at directory w = Some st ->
  exists v, stored directory w = Some (Json v) /\ rep v st.
Proof.
  unfold instance_at. destruct (stored directory w) as [[raw|v]|]; try done.
  intros H. exists v. split; [done|]. by apply decode_rep.
Qed.

Lemma instance_at_written directory v st w :
  rep v st -> instance_at directory (written directory v w) = Some st.
Proof.
  intros H. unfold instance_at. rewrite stored_written.
  by apply decode_rep, rep_json_of.
Qed.

(** ** [clearRalfreshState], [processRalfreshLoop] *)

Lemma clearRalfreshState_spec directory w :
  clearRalfreshState directory w =
    match stored directory w with
    | None => (Ret true, w)
    | Some _ =>
        if decide (writable directory w)
        then (Ret true,
              set_files (delete (stateDir directory, "ralfresh-state.json") (files w)) w)
        else (Ret false, w)
    end.
Proof.
  unfold clearRalfreshState, stored, writable, getStateFilePath, resolve.
  cbv zeta. fold (stateDir directory).
  unfold mbind, M_bind, existsSync, unlinkSync, try_catch, check_writable, mret, M_ret.
  destruct (files w !! _) as [t|] eqn:E; cbn; [|done].
  rewrite E. destruct (decide _) as [Hw|Hw].
  - by rewrite (bool_decide_false _ Hw).
  - apply dec_stable in Hw. by rewrite (bool_decide_true _ Hw).
Qed.

Lemma getRalfreshContext_total directory w :
  exists s, getRalfreshContext directory w = (Ret s, w).
Proof.
  unfold getRalfreshContext. unfold mbind at 1, M_bind at 1.
  rewrite readRalfreshState_spec.
  destruct (match stored directory w with Some (Json v) => _ | _ => None end);
    [|by eexists].
  unfold mbind at 1, M_bind at 1, readPlanWisdom. by eexists.
Qed.

Lemma processRalfreshLoop_no_instance sid directory w :
  directory <> "" ->
  match stored directory w with
  | Some (Json v) => isValidRalfreshState v = false \/ truthy (field "active" v) = false
  | _ => True
  end ->
  processRalfreshLoop sid (Some directory) w = (Ret None, w).
Proof.
  intros Hd H. unfold processRalfreshLoop.
  assert (Ht : truthy (VStr directory) = true).
  { simpl. by destruct (String.eqb_spec directory ""). }
  rewrite Ht. unfold mbind at 1, M_bind at 1. cbn [mret M_ret].
  unfold mbind at 1, M_bind at 1. rewrite readRalfreshState_spec.
  destruct (stored directory w) as [[raw|v]|]; try done.
  destruct H as [-> | H]; [done|].
  destruct (isValidRalfreshState v); [|done]. by rewrite H.
Qed.

Lemma processRalfreshLoop_inactive sid directory st w :
  directory <> "" ->
  instance_at directory w = Some st ->
  active st = false ->
  processRalfreshLoop sid (Some directory) w = (Ret None, w).
Proof.
  intros Hd (v & Hs & Hr)%instance_at_inv Ha.
  apply processRalfreshLoop_no_instance; [done|]. rewrite Hs. right.
  by rewrite (rep_active _ _ Hr), Ha.
Qed.

Lemma processRalfreshLoop_terminal sid directory st w :
  directory <> "" ->
  instance_at directory w = Some st ->
  active st = true ->
  is_terminal (phase st) = true ->
  processRalfreshLoop sid (Some directory) w =
    (Ret (Some {| shouldBlock := false;
                  message := summary st;
                  result_phase := VStr (phase_name (phase st));
                  metadata_iteration := VNum (iteration st);
                  metadata_maxIterations := VNum (maxIterations st) |}),
     (clearAllRalfreshSubModes directory sid false
        (clearRalfreshState directory w).2).2).
Proof.
  intros Hd (v & Hs & Hr)%instance_at_inv Ha Ht. unfold processRalfreshLoop.
  assert (Hdir : truthy (VStr directory) = true).
  { simpl. by destruct (String.eqb_spec directory ""). }
  rewrite Hdir. unfold mbind at 1, M_bind at 1. cbn [mret M_ret].
  unfold mbind at 1, M_bind at 1.
  rewrite readRalfreshState_spec, Hs, (rep_valid _ _ Hr), (rep_active _ _ Hr), Ha.
  cbn [negb truthy].
  rewrite (rep_phase _ _ Hr), (rep_iteration _ _ Hr), (rep_maxIterations _ _ Hr).
  unfold summary.
  assert (Hp : phase st = complete \/ phase st = failed).
  { destruct (phase st); try done; eauto. }
  destruct (clearRalfreshState directory w) as [o w1] eqn:Ec.
  assert (exists b, o = Ret b) as [b ->].
  { rewrite clearRalfreshState_spec in Ec.
    destruct (stored directory w); [destruct (decide _)|]; injection Ec as <- <-; eauto. }
  destruct (clearAllRalfreshSubModes_spec directory sid false w1) as (b' & w2 & Hc & _).
  destruct Hp as [Hp|Hp]; rewrite Hp; cbn [phase_name strict_eq String.eqb Ascii.eqb
    Bool.eqb orb to_string];
    unfold mbind at 1, M_bind at 1; rewrite Ec;
    unfold mbind at 1, M_bind at 1; rewrite Hc;
    cbn [snd]; rewrite Hc; reflexivity.
Qed.

Lemma processRalfreshLoop_blocks sid directory st w :
  directory <> "" ->
  instance_at directory w = Some st ->
  active st = true ->
  is_terminal (phase st) = false ->
  exists r,
    processRalfreshLoop sid (Some directory) w = (Ret (Some r), w) /\
    shouldBlock r = true /\
    result_phase r = VStr (phase_name (phase st)) /\
    metadata_iteration r = VNum (iteration st) /\
    metadata_maxIterations r = VNum (maxIterations st).
Proof.
  intros Hd (v & Hs & Hr)%instance_at_inv Ha Ht. unfold processRalfreshLoop.
  assert (Hdir : truthy (VStr directory) = true).
  { simpl. by destruct (String.eqb_spec directory ""). }
  rewrite Hdir. unfold mbind at 1, M_bind at 1. cbn [mret M_ret].
  unfold mbind at 1, M_bind at 1.
  rewrite readRalfreshState_spec, Hs, (rep_valid _ _ Hr), (rep_active _ _ Hr), Ha.
  cbn [negb truthy].
  rewrite (rep_phase _ _ Hr), (rep_iteration _ _ Hr), (rep_maxIterations _ _ Hr).
  assert (Hne : strict_eq (VStr (phase_name (phase st))) (VStr "complete")
                || strict_eq (VStr (phase_name (phase st))) (VStr "failed") = false).
  { by destruct (phase st). }
  rewrite Hne. cbv zeta.
  destruct (getRalfreshContext_total directory w) as (context & Hctx).
  unfold mbind at 1, M_bind at 1. rewrite Hctx.
  eexists. split; [reflexivity|]. done.
Qed.

(** ** The state file under the other effects *)

Lemma stored_set_notepad directory n w :
  stored directory (set_notepad n w) = stored directory w.
Proof. done. Qed.

Lemma stored_set_clock directory t w :
  stored directory (set_clock t w) = stored directory w.
Proof. done. Qed.

Lemma state_file_not_sub_mode : "ralfresh-state.json" ∉ localFilesToDelete.
Proof. decide_it. Qed.

Lemma stored_removes directory w w' :
  removes localFilesToDelete w w' -> stored directory w' = stored directory w.
Proof.
  intros H. unfold stored. eapply removes_other; [done|].
  apply state_file_not_sub_mode.
Qed.

Lemma stored_cleaned directory directory' sid force w :
  stored directory (clearAllRalfreshSubModes directory' sid force w).2
  = stored directory w.
Proof.
  destruct (clearAllRalfreshSubModes_spec directory' sid force w)
    as (b & w' & -> & Hrem & _).
  by apply stored_removes.
Qed.

Lemma readonly_cleaned directory sid force w :
  readonly (clearAllRalfreshSubModes directory sid force w).2 = readonly w.
Proof.
  destruct (clearAllRalfreshSubModes_spec directory sid force w)
    as (b & w' & -> & Hrem & _).
  by eapply removes_readonly.
Qed.

Lemma local_files_cleaned directory sid force w f :
  writable directory w ->
  f ∈ localFilesToDelete ->
  files (clearAllRalfreshSubModes directory sid force w).2 !! (stateDir directory, f)
  = None.
Proof.
  intros Hw Hf.
  destruct (clearAllRalfreshSubModes_spec directory sid force w)
    as (b & w' & -> & _ & Hdel).
  by apply Hdel.
Qed.

Lemma local_files_written directory v w f :
  f ∈ localFilesToDelete ->
  files (written directory v w) !! (stateDir directory, f)
  = files w !! (stateDir directory, f).
Proof.
  intros Hf. unfold written. simpl.
  assert (f <> "ralfresh-state.json") by (intros ->; by apply state_file_not_sub_mode).
  assert (f <> "ralfresh-state.json.tmp").
  { intros ->. revert Hf. change ("ralfresh-state.json.tmp" ∉ localFilesToDelete).
    decide_it. }
  rewrite lookup_insert_ne by congruence. by rewrite lookup_delete_ne by congruence.
Qed.

(** ** Inactive instances are left alone *)

Lemma transition_inactive directory q v w :
  stored directory w = Some (Json v) ->
  truthy (field "active" v) = false ->
  transitionRalfreshPhase directory q w = (Ret None, w).
Proof.
  intros Hs Ha. unfold transitionRalfreshPhase.
  unfold mbind at 1, M_bind at 1. rewrite readRalfreshState_spec, Hs.
  destruct (isValidRalfreshState v); [|done]. by rewrite Ha.
Qed.

Lemma increment_inactive directory sid v w :
  stored directory w = Some (Json v) ->
  truthy (field "active" v) = false ->
  incrementRalfreshIteration directory sid w = (Ret None, w).
Proof.
  intros Hs Ha. unfold incrementRalfreshIteration.
  unfold mbind at 1, M_bind at 1. rewrite readRalfreshState_spec, Hs.
  destruct (isValidRalfreshState v); [|done]. by rewrite Ha.
Qed.

(** ** Truncation *)

Lemma length_app_string (a b : string) :
  String.length (a +:+ b) = (String.length a + String.length b)%nat.
Proof. induction a as [|c a IH]; simpl; [done | by rewrite IH]. Qed.

Lemma length_substring0 n s :
  (n <= String.length s)%nat -> String.length (String.substring 0 n s) = n.
Proof.
  revert s. induction n as [|n IH]; intros [|c s] H; simpl in *; try done; try lia.
  rewrite IH; [done | lia].
Qed.

Lemma truncate_entry_short entry :
  js_length entry <= MAX_ENTRY_LENGTH -> truncate_entry entry = entry.
Proof.
  intros H. unfold truncate_entry. by rewrite Z.gtb_ltb, (proj2 (Z.ltb_ge _ _)) by lia.
Qed.

Lemma truncate_entry_long entry :
  js_length entry > MAX_ENTRY_LENGTH ->
  truncate_entry entry = js_slice0 (MAX_ENTRY_LENGTH - 3) entry +:+ "..." /\
  js_length (truncate_entry entry) = MAX_ENTRY_LENGTH.
Proof.
  intros H. unfold truncate_entry. rewrite (proj2 (Z.gtb_gt _ _)) by lia.
  split; [done|]. unfold js_length, js_slice0 in *.
  rewrite length_app_string, length_substring0.
  - unfold MAX_ENTRY_LENGTH. simpl String.length. lia.
  - unfold MAX_ENTRY_LENGTH in *. lia.
Qed.

Lemma truncate_entry_bounded entry :
  js_length (truncate_entry entry) <= MAX_ENTRY_LENGTH.
Proof.
  destruct (Z.le_gt_cases (js_length entry) MAX_ENTRY_LENGTH) as [H|H].
  - by rewrite truncate_entry_short.
  - apply Z.lt_gt, truncate_entry_long in H as [_ ->]. lia.
Qed.

(** ** The capped lists *)

Lemma slice_last_short {A} cap (l : list A) :
  Z.of_nat (List.length l) <= cap -> slice_last cap l = l.
Proof.
  intros H. unfold slice_last.
  replace (List.length l - Z.to_nat cap)%nat with 0%nat by lia. done.
Qed.

Lemma add_entry_slice cap entry l :
  add_entry cap entry l = slice_last cap (l ++ [entry])%list.
Proof.
  unfold add_entry. cbv zeta. destruct (_ >? _) eqn:E; [done|].
  rewrite slice_last_short; [done|]. rewrite Z.gtb_ltb in E.
  apply Z.ltb_ge in E. lia.
Qed.

Lemma length_slice_last {A} cap (l : list A) :
  0 <= cap ->
  Z.of_nat (List.length (slice_last cap l)) = Z.min cap (Z.of_nat (List.length l)).
Proof. intros H. unfold slice_last. rewrite length_drop. lia. Qed.

Lemma slice_last_app {A} cap (l k : list A) :
  1 <= cap ->
  slice_last cap (slice_last cap l ++ k)%list = slice_last cap (l ++ k)%list.
Proof.
  intros H. unfold slice_last. rewrite !length_app, length_drop.
  destruct (decide (List.length l <= Z.to_nat cap)%nat) as [Hle|Hgt].
  - replace (List.length l - Z.to_nat cap)%nat with 0%nat by lia.
    rewrite drop_0. f_equal. lia.
  - rewrite !drop_app, drop_drop, length_drop. f_equal; f_equal; lia.
Qed.

Lemma last_slice_last {A} cap (l : list A) x :
  1 <= cap -> last (slice_last cap (l ++ [x])%list) = Some x.
Proof.
  intros H. unfold slice_last. rewrite length_app. simpl.
  rewrite drop_app_le by lia. by rewrite last_snoc.
Qed.

(** ** Calls in a row *)

Lemma addRalfreshLearning_instance directory entry st w :
  instance_at directory w = Some st ->
  writable directory w ->
  exists w',
    addRalfreshLearning directory entry w = (Ret true, w') /\
    instance_at directory w' = Some (add_learning_state entry st) /\
    writable directory w'.
Proof.
  intros (v & Hs & Hr)%instance_at_inv Hw.
  destruct (addRalfreshLearning_spec directory entry v st w Hs Hr) as (v' & Hr' & ->).
  cbv zeta. rewrite decide_True by done. eexists. split; [done|].
  split; [by apply instance_at_written | done].
Qed.

Lemma addRalfreshIssue_instance directory entry st w :
  instance_at directory w = Some st ->
  writable directory w ->
  exists w',
    addRalfreshIssue directory entry w = (Ret true, w') /\
    instance_at directory w' = Some (add_issue_state entry st) /\
    writable directory w'.
Proof.
  intros (v & Hs & Hr)%instance_at_inv Hw.
  destruct (addRalfreshIssue_spec directory entry v st w Hs Hr) as (v' & Hr' & ->).
  cbv zeta. rewrite decide_True by done. eexists. split; [done|].
  split; [by apply instance_at_written | done].
Qed.

Lemma addRalfreshLearnings_instance directory entries : forall st w,
  instance_at directory w = Some st ->
  writable directory w ->
  exists w',
    addRalfreshLearnings directory entries w = (Ret tt, w') /\
    instance_at directory w' =
      Some (foldl (fun st entry => add_learning_state entry st) st entries) /\
    writable directory w'.
Proof.
  unfold addRalfreshLearnings.
  induction entries as [|entry entries IH]; intros st w Hi Hw.
  - exists w. done.
  - cbn [for_of foldl]. unfold mbind at 1, M_bind at 1. unfold mbind at 1, M_bind at 1.
    destruct (addRalfreshLearning_instance directory entry st w Hi Hw)
      as (w1 & -> & Hi1 & Hw1).
    cbn [mret M_ret]. by apply IH.
Qed.

Lemma addRalfreshIssues_instance directory entries : forall st w,
  instance_at directory w = Some st ->
  writable directory w ->
  exists w',
    addRalfreshIssues directory entries w = (Ret tt, w') /\
    instance_at directory w' =
      Some (foldl (fun st entry => add_issue_state entry st) st entries) /\
    writable directory w'.
Proof.
  unfold addRalfreshIssues.
  induction entries as [|entry entries IH]; intros st w Hi Hw.
  - exists w. done.
  - cbn [for_of foldl]. unfold mbind at 1, M_bind at 1. unfold mbind at 1, M_bind at 1.
    destruct (addRalfreshIssue_instance directory entry st w Hi Hw)
      as (w1 & -> & Hi1 & Hw1).
    cbn [mret M_ret]. by apply IH.
Qed.

Lemma foldl_add_entry cap entries : forall l,
  1 <= cap -> entries <> [] ->
  foldl (fun l entry => add_entry cap entry l) l entries
  = slice_last cap (l ++ entries)%list.
Proof.
  induction entries as [|entry entries IH]; intros l Hcap Hne; [done|].
  cbn [foldl]. destruct entries as [|entry' entries].
  - by rewrite add_entry_slice.
  - rewrite IH by done. rewrite add_entry_slice, slice_last_app by done.
    by rewrite <- app_assoc.
Qed.

Lemma slice_last_app_long {A} cap (l k : list A) :
  cap <= Z.of_nat (List.length k) ->
  slice_last cap (l ++ k)%list = drop (List.length k - Z.to_nat cap)%nat k.
Proof.
  intros H. unfold slice_last. rewrite length_app, drop_app.
  rewrite drop_ge by lia. simpl. f_equal. lia.
Qed.

Lemma learnings_foldl entries : forall st,
  learnings (foldl (fun st entry => add_learning_state entry st) st entries)
  = foldl (fun l entry => add_entry MAX_LEARNINGS entry l) (learnings st)
      (truncate_entry <$> entries).
Proof. induction entries as [|e es IH]; intros st; [done|]. cbn [foldl fmap list_fmap]. by rewrite IH. Qed.

Lemma issues_foldl entries : forall st,
  issues (foldl (fun st entry => add_issue_state entry st) st entries)
  = foldl (fun l entry => add_entry MAX_ISSUES entry l) (issues st)
      (truncate_entry <$> entries).
Proof. induction entries as [|e es IH]; intros st; [done|]. cbn [foldl fmap list_fmap]. by rewrite IH. Qed.

(** ** The lifecycle invariant *)

Lemma invariant_init now request sid config :
  lifecycle_invariant (init_state now request sid config).
Proof.
  unfold lifecycle_invariant, init_state. simpl.
  destruct (default false _); simpl; split; try done; by intros [? _].
Qed.

Lemma invariant_transition now q st :
  active st = true -> lifecycle_invariant (transition_state now q st).
Proof.
  intros Ha. unfold lifecycle_invariant, transition_state. simpl.
  destruct (is_terminal q).
  - done.
  - rewrite Ha. split; [done | by intros [? _]].
Qed.

Lemma invariant_increment now st :
  active st = true -> lifecycle_invariant (increment_state now st).
Proof.
  intros Ha. unfold lifecycle_invariant, increment_state. simpl.
  rewrite Ha. split; [done | by intros [? _]].
Qed.

Lemma instance_at_same directory w w' :
  stored directory w' = stored directory w ->
  instance_at directory w' = instance_at directory w.
Proof. unfold instance_at. by intros ->. Qed.

(** Every lifecycle operation either leaves the instance of the directory
    as it is or replaces it by one that satisfies the invariant. *)
Lemma run_op_invariant directory op st w :
  instance_at directory w = Some st ->
  lifecycle_invariant st ->
  exists st', instance_at directory (run_op directory op w) = Some st' /\
              lifecycle_invariant st'.
Proof.
  intros Hi Hinv. pose proof Hi as (v & Hs & Hr)%instance_at_inv.
  assert (Hsame : forall w', stored directory w' = stored directory w ->
            exists st', instance_at directory w' = Some st' /\ lifecycle_invariant st').
  { intros w' Hw'. exists st. by rewrite (instance_at_same _ _ _ Hw'). }
  destruct op as [request sid config | q | sid | entry | entry | t]; cbn [run_op].
  - (* initRalfresh *)
    destruct (decide (js_length request > MAX_PROMPT_LENGTH)) as [Hlong|Hlen].
    { rewrite initRalfresh_too_long by done. by apply Hsame. }
    destruct ((mode_registry w "ralfresh" directory).1) eqn:Hreg; cycle 1.
    { rewrite initRalfresh_blocked by done. by apply Hsame. }
    destruct (initRalfresh_spec directory request sid config w) as (v' & Hr' & ->);
      [lia | done |].
    cbv zeta. destruct (decide _); cbn [snd].
    + eexists. split; [by apply instance_at_written | apply invariant_init].
    + by apply Hsame.
  - (* transitionRalfreshPhase *)
    destruct (active st) eqn:Ha; cycle 1.
    { rewrite (transition_inactive _ _ v) by
        (try done; by rewrite (rep_active _ _ Hr), Ha). by apply Hsame. }
    destruct (decide (q ∈ VALID_TRANSITIONS (phase st))) as [Hq|Hq]; cycle 1.
    { rewrite (transition_rejected _ (phase st) _ v); try done.
      - by apply Hsame.
      - by eapply rep_valid.
      - by rewrite (rep_active _ _ Hr), Ha.
      - apply Hr. }
    destruct (transition_accepted directory q v st w Hs Hr Ha Hq) as (v' & Hr' & ->).
    destruct (decide _); cbn [snd].
    + eexists. split; [by apply instance_at_written | by apply invariant_transition].
    + by apply Hsame.
  - (* incrementRalfreshIteration *)
    destruct (active st) eqn:Ha; cycle 1.
    { rewrite (increment_inactive _ _ v) by
        (try done; by rewrite (rep_active _ _ Hr), Ha). by apply Hsame. }
    destruct (decide (iteration st < maxIterations st)) as [Hlt|Hge].
    + destruct (increment_below_ceiling directory sid v st w Hs Hr Ha Hlt)
        as (v' & Hr' & ->).
      cbv zeta. destruct (decide _); cbn [snd].
      * eexists. split; [by apply instance_at_written | by apply invariant_increment].
      * apply Hsame. apply stored_cleaned.
    + rewrite (increment_at_ceiling _ _ v); try done; cycle 1.
      { by eapply rep_valid. }
      { by rewrite (rep_active _ _ Hr), Ha. }
      { rewrite (rep_iteration _ _ Hr), (rep_maxIterations _ _ Hr). simpl. lia. }
      destruct (decide (failed ∈ VALID_TRANSITIONS (phase st))) as [Hq|Hq]; cycle 1.
      { rewrite (transition_rejected _ (phase st) _ v); try done.
        - by apply Hsame.
        - by eapply rep_valid.
        - by rewrite (rep_active _ _ Hr), Ha.
        - apply Hr. }
      destruct (transition_accepted directory failed v st w Hs Hr Ha Hq)
        as (v' & Hr' & ->).
      destruct (decide _); cbn [snd].
      * eexists. split; [by apply instance_at_written | by apply invariant_transition].
      * by apply Hsame.
  - (* addRalfreshLearning *)
    destruct (addRalfreshLearning_spec directory entry v st w Hs Hr) as (v' & Hr' & ->).
    cbv zeta. destruct (decide _); cbn [snd].
    + eexists. split; [by apply instance_at_written | done].
    + by apply Hsame.
  - (* addRalfreshIssue *)
    destruct (addRalfreshIssue_spec directory entry v st w Hs Hr) as (v' & Hr' & ->).
    cbv zeta. destruct (decide _); cbn [snd].
    + eexists. split; [by apply instance_at_written | done].
    + by apply Hsame.
  - by apply Hsame.
Qed.

Lemma lifecycle_holds_invariant directory w :
  lifecycle directory w ->
  exists st, instance_at directory w = Some st /\ lifecycle_invariant st.
Proof.
  induction 1 as [w request sid config v w' Hinit | w op Hl (st & Hi & Hinv)].
  - destruct (decide (js_length request > MAX_PROMPT_LENGTH)) as [Hlong|Hlen].
    { by rewrite initRalfresh_too_long in Hinit. }
    destruct ((mode_registry w "ralfresh" directory).1) eqn:Hreg; cycle 1.
    { by rewrite initRalfresh_blocked in Hinit. }
    destruct (initRalfresh_spec directory request sid config w) as (v' & Hr' & Hrun);
      [lia | done |].
    rewrite Hrun in Hinit. cbv zeta in Hinit.
    destruct (decide _); [|done]. injection Hinit as <- <-.
    eexists. split; [by apply instance_at_written | apply invariant_init].
  - by eapply run_op_invariant.
Qed.

(** ** What the lifecycle keeps *)

Section lifecycle_preserves.
(** A property of typed states that [initRalfresh] establishes and every
    update of the module keeps holds of every instance of the lifecycle. *)
Variable P : RalfreshState -> Prop.
Hypothesis P_init : forall now request sid config,
  P (init_state now request sid config).
Hypothesis P_transition : forall now q st,
  P st -> active st = true -> q ∈ VALID_TRANSITIONS (phase st) ->
  P (transition_state now q st).
Hypothesis P_increment : forall now st,
  P st -> active st = true -> iteration st < maxIterations st ->
  P (increment_state now st).
Hypothesis P_learning : forall entry st, P st -> P (add_learning_state entry st).
Hypothesis P_issue : forall entry st, P st -> P (add_issue_state entry st).

Lemma run_op_preserves directory op st w :
  instance_at directory w = Some st -> P st ->
  exists st', instance_at directory (run_op directory op w) = Some st' /\ P st'.
Proof.
  intros Hi HP. pose proof Hi as (v & Hs & Hr)%instance_at_inv.
  assert (Hsame : forall w', stored directory w' = stored directory w ->
            exists st', instance_at directory w' = Some st' /\ P st').
  { intros w' Hw'. exists st. by rewrite (instance_at_same _ _ _ Hw'). }
  destruct op as [request sid config | q | sid | entry | entry | t]; cbn [run_op].
  - destruct (decide (js_length request > MAX_PROMPT_LENGTH)) as [Hlong|Hlen].
    { rewrite initRalfresh_too_long by done. by apply Hsame. }
    destruct ((mode_registry w "ralfresh" directory).1) eqn:Hreg; cycle 1.
    { rewrite initRalfresh_blocked by done. by apply Hsame. }
    destruct (initRalfresh_spec directory request sid config w) as (v' & Hr' & ->);
      [lia | done |].
    cbv zeta. destruct (decide _); cbn [snd].
    + eexists. split; [by apply instance_at_written | apply P_init].
    + by apply Hsame.
  - destruct (active st) eqn:Ha; cycle 1.
    { rewrite (transition_inactive _ _ v) by
        (try done; by rewrite (rep_active _ _ Hr), Ha). by apply Hsame. }
    destruct (decide (q ∈ VALID_TRANSITIONS (phase st))) as [Hq|Hq]; cycle 1.
    { rewrite (transition_rejected _ (phase st) _ v); try done.
      - by apply Hsame.
      - by eapply rep_valid.
      - by rewrite (rep_active _ _ Hr), Ha.
      - apply Hr. }
    destruct (transition_accepted directory q v st w Hs Hr Ha Hq) as (v' & Hr' & ->).
    destruct (decide _); cbn [snd].
    + eexists. split; [by apply instance_at_written | by apply P_transition].
    + by apply Hsame.
  - destruct (active st) eqn:Ha; cycle 1.
    { rewrite (increment_inactive _ _ v) by
        (try done; by rewrite (rep_active _ _ Hr), Ha). by apply Hsame. }
    destruct (decide (iteration st < maxIterations st)) as [Hlt|Hge].
    + destruct (increment_below_ceiling directory sid v st w Hs Hr Ha Hlt)
        as (v' & Hr' & ->).
      cbv zeta. destruct (decide _); cbn [snd].
      * eexists. split; [by apply instance_at_written | by apply P_increment].
      * apply Hsame. apply stored_cleaned.
    + rewrite (increment_at_ceiling _ _ v); try done; cycle 1.
      { by eapply rep_valid. }
      { by rewrite (rep_active _ _ Hr), Ha. }
      { rewrite (rep_iteration _ _ Hr), (rep_maxIterations _ _ Hr). simpl. lia. }
      destruct (decide (failed ∈ VALID_TRANSITIONS (phase st))) as [Hq|Hq]; cycle 1.
      { rewrite (transition_rejected _ (phase st) _ v); try done.
        - by apply Hsame.
        - by eapply rep_valid.
        - by rewrite (rep_active _ _ Hr), Ha.
        - apply Hr. }
      destruct (transition_accepted directory failed v st w Hs Hr Ha Hq)
        as (v' & Hr' & ->).
      destruct (decide _); cbn [snd].
      * eexists. split; [by apply instance_at_written | by apply P_transition].
      * by apply Hsame.
  - destruct (addRalfreshLearning_spec directory entry v st w Hs Hr) as (v' & Hr' & ->).
    cbv zeta. destruct (decide _); cbn [snd].
    + eexists. split; [by apply instance_at_written | by apply P_learning].
    + by apply Hsame.
  - destruct (addRalfreshIssue_spec directory entry v st w Hs Hr) as (v' & Hr' & ->).
    cbv zeta. destruct (decide _); cbn [snd].
    + eexists. split; [by apply instance_at_written | by apply P_issue].
    + by apply Hsame.
  - by apply Hsame.
Qed.

Lemma lifecycle_preserves directory w :
  lifecycle directory w ->
  exists st, instance_at directory w = Some st /\ P st.
Proof.
  induction 1 as [w request sid config v w' Hinit | w op Hl (st & Hi & HP)].
  - destruct (decide (js_length request > MAX_PROMPT_LENGTH)) as [Hlong|Hlen].
    { by rewrite initRalfresh_too_long in Hinit. }
    destruct ((mode_registry w "ralfresh" directory).1) eqn:Hreg; cycle 1.
    { by rewrite initRalfresh_blocked in Hinit. }
    destruct (initRalfresh_spec directory request sid config w) as (v' & Hr' & Hrun);
      [lia | done |].
    rewrite Hrun in Hinit. cbv zeta in Hinit.
    destruct (decide _); [|done]. injection Hinit as <- <-.
    eexists. split; [by apply instance_at_written | apply P_init].
  - by eapply run_op_preserves.
Qed.
End lifecycle_preserves.

(** A transition to a terminal phase clears [active], and nothing sets it
    again: an instance of the lifecycle at a terminal phase is inactive. *)
Lemma lifecycle_terminal_inactive directory st w :
  lifecycle directory w ->
  instance_at directory w = Some st ->
  is_terminal (phase st) = true ->
  active st = false.
Proof.
  intros Hl Hi Ht.
  destruct (lifecycle_preserves
              (fun st => is_terminal (phase st) = true -> active st = false))
    with (directory := directory) (w := w) as (st' & Hi' & Hfinal); [| | | | |done|].
  - intros now request sid config. unfold init_state; cbn.
    by destruct (default false _).
  - intros now q st0 _ _ _. unfold transition_state; cbn. by intros ->.
  - done.
  - intros entry st0 H; apply H.
  - intros entry st0 H; apply H.
  - rewrite Hi in Hi'. injection Hi' as <-. by apply Hfinal.
Qed.

(** * The claims *)

Lemma phase_graph_table p q : (p, q) ∈ phase_graph <-> q ∈ VALID_TRANSITIONS p.
Proof.
  destruct p, q; split; intros H;
    first [ by apply (bool_decide_unpack _)
          | exfalso; revert H; by apply (bool_decide_unpack (¬ _)) ].
Qed.

Lemma no_edge_from_terminal p q : is_terminal p = true -> (p, q) ∉ phase_graph.
Proof.
  intros Hp Hq. apply phase_graph_table in Hq.
  destruct p; try done; by apply elem_of_nil in Hq.
Qed.

(** C1. For a persisted active instance whose current phase is [p], a request
    for a phase [q] such that [(p, q)] is not an edge of the phase graph is
    rejected: [transitionRalfreshPhase] returns [null] and leaves the world,
    and so every field of the stored state, as it was. *)
Theorem transition_rejects_non_edges directory p q v w :
  stored directory w = Some (Json v) ->
  isValidRalfreshState v = true ->
  field "active" v = VBool true ->
  field "phase" v = VStr (phase_name p) ->
  (p, q) ∉ phase_graph ->
  transitionRalfreshPhase directory q w = (Ret None, w).
Proof.
  intros Hs Hv Ha Hp Hq. eapply transition_rejected; try done.
  - by rewrite Ha.
  - by rewrite <- phase_graph_table.
Qed.

(** C2, as amended. For a persisted active instance with [iteration =
    maxIterations] whose current phase is [assess],
    [incrementRalfreshIteration] yields and stores a state with
    [phase = failed] and [active = false]; and at the ceiling, whatever the
    phase, the counter is not incremented: from [assess] it stays at
    [maxIterations], and from any other phase the call returns [null] and
    the world is unchanged. *)
Theorem increment_at_ceiling_by_phase directory sid st w :
  instance_at directory w = Some st ->
  active st = true ->
  iteration st = maxIterations st ->
  writable directory w ->
  if decide (phase st = assess) then
    exists v' st',
      incrementRalfreshIteration directory sid w
        = (Ret (Some v'), written directory v' w) /\
      decode v' = Some st' /\
      phase st' = failed /\ active st' = false /\
      iteration st' = maxIterations st
  else
    incrementRalfreshIteration directory sid w = (Ret None, w).
Proof.
  intros (v & Hs & Hr)%instance_at_inv Ha Hmax Hw.
  rewrite (increment_at_ceiling _ _ v); try done; cycle 1.
  { by eapply rep_valid. }
  { by rewrite (rep_active _ _ Hr), Ha. }
  { rewrite (rep_iteration _ _ Hr), (rep_maxIterations _ _ Hr). simpl. lia. }
  destruct (decide (phase st = assess)) as [Hp|Hp].
  - destruct (transition_accepted directory failed v st w Hs Hr Ha) as (v' & Hr' & ->).
    { rewrite Hp. decide_it. }
    rewrite decide_True by done.
    exists v', (transition_state (clock w) failed st).
    split; [done|]. split; [by apply decode_rep|]. done.
  - eapply transition_rejected; try done.
    + by eapply rep_valid.
    + by rewrite (rep_active _ _ Hr), Ha.
    + apply Hr.
    + destruct (phase st); try decide_it. by destruct Hp.
Qed.

(** C3. As stated the claim fails, and the code falls short of its own
    note ("it clears state when ralfresh reaches a terminal phase").  A
    transition to [complete] or [failed] stores [active = false], and
    [processRalfreshLoop] returns [null] on an inactive instance before it
    looks at the phase.  So for every instance that the lifecycle has brought
    to a terminal phase it returns [null]: no decision with
    [shouldBlock = false], no summary, and the world is left as it is, the
    state file still in place. *)
Theorem processRalfreshLoop_leaves_finished_instances sid directory st w :
  directory <> "" ->
  lifecycle directory w ->
  instance_at directory w = Some st ->
  is_terminal (phase st) = true ->
  processRalfreshLoop sid (Some directory) w = (Ret None, w) /\
  is_Some (stored directory w).
Proof.
  intros Hd Hl Hi Ht. split.
  - eapply processRalfreshLoop_inactive; [done | done |].
    by eapply lifecycle_terminal_inactive.
  - apply instance_at_inv in Hi as (v & -> & _). by eexists.
Qed.

(** C4, as amended. For a persisted active instance with [iteration <
    maxIterations] whose iteration lies where the number type adds 1 exactly
    ([-2^53 <= iteration < 2^53]), [incrementRalfreshIteration] runs the
    sub-mode reaper for the directory and session and then stores, and
    returns, the state in which the iteration is one more, every phase record
    is [{status: pending}] without timestamps except [planning], which is
    [in_progress] with a [startedAt], the current phase is [planning], and
    prompt, sessionId, learnings and issues are as before. *)
Theorem increment_starts_fresh_iteration directory sid st w :
  instance_at directory w = Some st ->
  active st = true ->
  iteration st < maxIterations st ->
  - two53 <= iteration st < two53 ->
  writable directory w ->
  exists v' st',
    incrementRalfreshIteration directory sid w =
      (Ret (Some v'),
       written directory v' (clearAllRalfreshSubModes directory sid false w).2) /\
    decode v' = Some st' /\
    iteration st' = iteration st + 1 /\
    phase st' = planning /\
    phase_record planning (phases st') =
      {| status := in_progress; ps_startedAt := Some (clock w);
         ps_completedAt := None |} /\
    (forall p, p <> planning ->
       phase_record p (phases st') =
         {| status := pending; ps_startedAt := None; ps_completedAt := None |}) /\
    prompt st' = prompt st /\ sessionId st' = sessionId st /\
    learnings st' = learnings st /\ issues st' = issues st /\
    Forall (fun f =>
      files (written directory v' (clearAllRalfreshSubModes directory sid false w).2)
        !! (stateDir directory, f) = None) localFilesToDelete.
Proof.
  intros (v & Hs & Hr)%instance_at_inv Ha Hlt Hexact Hw.
  destruct (increment_below_ceiling directory sid v st w Hs Hr Ha Hlt) as (v' & Hr' & ->).
  cbv zeta. rewrite decide_True by done.
  exists v', (increment_state (clock w) st).
  split; [done|]. split; [by apply decode_rep|].
  split; [cbn [increment_state iteration]; apply js_add_exact; lia|].
  repeat (split; [done|]). split; [by intros []|]. repeat (split; [done|]).
  apply Forall_forall. intros f Hf.
  rewrite local_files_written by done. by apply local_files_cleaned.
Qed.

(** C5. Every state stored by the lifecycle operations, from a successful
    [initRalfresh] on, is an instance of the interface with [active = false]
    if and only if its phase is terminal and [completedAt] is set. *)
Theorem lifecycle_active_iff_running directory w :
  lifecycle directory w ->
  exists st,
    instance_at directory w = Some st /\
    (active st = false <-> (is_terminal (phase st) = true /\ completedAt st <> None)).
Proof. apply lifecycle_holds_invariant. Qed.

(** C6. A value of the [RalfreshState] interface written with
    [writeRalfreshState] and read back with [readRalfreshState] comes back
    field for field: what is read is the written value as JSON holds it,
    and it has the same fields with the same contents. *)
Theorem write_read_round_trip directory v st w :
  decode v = Some st ->
  writable directory w ->
  exists w',
    writeRalfreshState directory v w = (Ret true, w') /\
    readRalfreshState directory w' = (Ret (Some (json_of v)), w') /\
    decode (json_of v) = Some st.
Proof.
  intros Hd Hw. rewrite writeRalfreshState_spec, decide_True by done.
  eexists. split; [done|]. apply decode_rep, rep_json_of in Hd.
  rewrite readRalfreshState_spec, stored_written, (rep_valid _ _ Hd).
  split; [done|]. by apply decode_rep.
Qed.

(** C7. [addRalfreshLearning] and [addRalfreshIssue] store, as the last
    entry, the text itself when it is at most [MAX_ENTRY_LENGTH] long, and
    otherwise an entry of length exactly [MAX_ENTRY_LENGTH] that ends in
    ["..."]. *)
Theorem entries_are_truncated directory entry st w :
  instance_at directory w = Some st ->
  writable directory w ->
  (exists w' st',
     addRalfreshLearning directory entry w = (Ret true, w') /\
     instance_at directory w' = Some st' /\
     last (learnings st') = Some (truncate_entry entry)) /\
  (exists w' st',
     addRalfreshIssue directory entry w = (Ret true, w') /\
     instance_at directory w' = Some st' /\
     last (issues st') = Some (truncate_entry entry)) /\
  if decide (js_length entry <= MAX_ENTRY_LENGTH) then
    truncate_entry entry = entry
  else
    js_length (truncate_entry entry) = MAX_ENTRY_LENGTH /\
    exists kept, truncate_entry entry = kept +:+ "...".
Proof.
  intros Hi Hw. split; [|split].
  - destruct (addRalfreshLearning_instance directory entry st w Hi Hw)
      as (w' & Hrun & Hi' & _).
    eexists _, _. split; [done|]. split; [done|]. simpl.
    rewrite add_entry_slice. by apply last_slice_last.
  - destruct (addRalfreshIssue_instance directory entry st w Hi Hw)
      as (w' & Hrun & Hi' & _).
    eexists _, _. split; [done|]. split; [done|]. simpl.
    rewrite add_entry_slice. by apply last_slice_last.
  - destruct (decide _) as [Hle|Hgt].
    + by apply truncate_entry_short.
    + destruct (truncate_entry_long entry) as [Heq Hlen]; [lia|]. eauto.
Qed.

(** C8. After [MAX_LEARNINGS + 10] calls of [addRalfreshLearning] (resp.
    [MAX_ISSUES + 10] calls of [addRalfreshIssue]) the stored list has exactly
    [MAX_LEARNINGS] (resp. [MAX_ISSUES]) entries: the ones added last, in the
    order they were added; the ten oldest of the added ones, and all that was
    there before, are gone. *)
Theorem entries_keep_most_recent directory entries st w :
  instance_at directory w = Some st ->
  writable directory w ->
  Z.of_nat (List.length entries) = MAX_LEARNINGS + 10 ->
  (exists w' st',
     addRalfreshLearnings directory entries w = (Ret tt, w') /\
     instance_at directory w' = Some st' /\
     learnings st' = drop 10 (truncate_entry <$> entries) /\
     Z.of_nat (List.length (learnings st')) = MAX_LEARNINGS) /\
  (exists w' st',
     addRalfreshIssues directory entries w = (Ret tt, w') /\
     instance_at directory w' = Some st' /\
     issues st' = drop 10 (truncate_entry <$> entries) /\
     Z.of_nat (List.length (issues st')) = MAX_ISSUES).
Proof.
  intros Hi Hw Hlen. unfold MAX_LEARNINGS, MAX_ISSUES in *.
  assert (Hne : truncate_entry <$> entries <> []).
  { destruct entries; [simpl in Hlen; lia | done]. }
  assert (Hkeep : forall l : list string,
            slice_last 100 (l ++ (truncate_entry <$> entries))%list
            = drop 10 (truncate_entry <$> entries)).
  { intros l. rewrite slice_last_app_long by (rewrite length_fmap; lia).
    f_equal. rewrite length_fmap. lia. }
  split.
  - destruct (addRalfreshLearnings_instance directory entries st w Hi Hw)
      as (w' & Hrun & Hi' & _).
    eexists _, _. split; [done|]. split; [done|].
    rewrite learnings_foldl. unfold MAX_LEARNINGS.
    rewrite foldl_add_entry, Hkeep by (done || lia).
    split; [done|]. rewrite length_drop, length_fmap. lia.
  - destruct (addRalfreshIssues_instance directory entries st w Hi Hw)
      as (w' & Hrun & Hi' & _).
    eexists _, _. split; [done|]. split; [done|].
    rewrite issues_foldl. unfold MAX_ISSUES.
    rewrite foldl_add_entry, Hkeep by (done || lia).
    split; [done|]. rewrite length_drop, length_fmap. lia.
Qed.

(** C9. Where the mode registry lets ralfresh start and the state directory
    can be written, [initRalfresh] accepts every prompt of length at most
    [MAX_PROMPT_LENGTH], the bound included: it returns and stores an
    instance whose prompt is the one given.  A longer prompt is rejected
    with [null] and the world is left as it was. *)
Theorem initRalfresh_prompt_bound directory request sid config w :
  (mode_registry w "ralfresh" directory).1 = true ->
  writable directory w ->
  if decide (js_length request <= MAX_PROMPT_LENGTH) then
    exists v' st' w',
      initRalfresh directory request sid config w = (Ret (Some v'), w') /\
      decode v' = Some st' /\
      instance_at directory w' = Some st' /\
      prompt st' = request
  else
    initRalfresh directory request sid config w = (Ret None, w).
Proof.
  intros Hreg Hw. destruct (decide _) as [Hle|Hgt].
  - destruct (initRalfresh_spec directory request sid config w Hle Hreg)
      as (v' & Hr' & ->).
    cbv zeta. rewrite decide_True by done.
    eexists _, _, _. split; [done|]. split; [by apply decode_rep|].
    split; [by apply instance_at_written | done].
  - apply initRalfresh_too_long. lia.
Qed.

(** C10. The reader checks the type of [phase], not its value: a stored
    document that passes [isValidRalfreshState] with a [phase] outside the
    six phase names is returned by [readRalfreshState] as a state, and on it
    (with [active = true]) [transitionRalfreshPhase] throws a [TypeError]
    instead of returning [null]. *)
Theorem unknown_phase_passes_reader_and_throws directory s q v w :
  stored directory w = Some (Json v) ->
  isValidRalfreshState v = true ->
  field "active" v = VBool true ->
  field "phase" v = VStr s ->
  phase_of_string s = None ->
  readRalfreshState directory w = (Ret (Some v), w) /\
  transitionRalfreshPhase directory q w = (Throw TypeError, w).
Proof.
  intros Hs Hv Ha Hp Hnone. split.
  - by rewrite readRalfreshState_spec, Hs, Hv.
  - unfold transitionRalfreshPhase. unfold mbind at 1, M_bind at 1.
    rewrite readRalfreshState_spec, Hs, Hv, Ha. cbn [negb truthy].
    unfold VALID_TRANSITIONS_at. rewrite Hp. cbn [to_string]. by rewrite Hnone.
Qed.

(** ** The claims on the worlds above *)

Lemma transition_rejects_non_edges_witness :
((planning, complete) ∉ phase_graph) /\
  transitionRalfreshPhase project complete started_world = (Ret None, started_world).
Proof.
  split; [decide_it|].
  eapply (transition_rejects_non_edges project planning complete);
    [compute_it | compute_it | compute_it | compute_it | decide_it].
Defined.

(** C2 as stated fails: an active instance at the ceiling whose phase is not
    [assess] is not moved to [failed]; the call returns [null]. *)
Lemma increment_at_ceiling_outside_assess :
  instance_at project ceiling_world = Some ceiling_state /\
  active ceiling_state = true /\
  iteration ceiling_state = maxIterations ceiling_state /\
  incrementRalfreshIteration project None ceiling_world = (Ret None, ceiling_world).
Proof. repeat split; compute_it. Qed.

Lemma increment_at_ceiling_by_phase_witness :
  instance_at project ceiling_assess_world = Some ceiling_assess_state /\
  exists v' st',
    incrementRalfreshIteration project None ceiling_assess_world
      = (Ret (Some v'), written project v' ceiling_assess_world) /\
    decode v' = Some st' /\
    phase st' = failed /\ active st' = false /\ iteration st' = 1.
Proof.
  split; [compute_it|].
  assert (H1 : instance_at project ceiling_assess_world = Some ceiling_assess_state)
    by compute_it.
  assert (H4 : writable project ceiling_assess_world) by decide_it.
  exact (increment_at_ceiling_by_phase project None ceiling_assess_state
           ceiling_assess_world H1 eq_refl eq_refl H4).
Defined.

(** C3 as stated fails: the instance that [transitionRalfreshPhase] leaves at
    [complete] is inactive, so [processRalfreshLoop] returns [null] and the
    state file stays. *)
Lemma processRalfreshLoop_keeps_finished_instance :
  instance_at project finished_world = Some finished_state /\
  phase finished_state = complete /\
  processRalfreshLoop None (Some project) finished_world = (Ret None, finished_world) /\
  is_Some (stored project finished_world).
Proof.
  split; [compute_it|]. split; [compute_it|]. split; [compute_it|].
  apply (bool_decide_unpack _). vm_compute. exact I.
Qed.

(** C4 as stated fails: at [2^53] the sum [iteration + 1] is rounded back to
    [2^53], so the stored counter does not move although the ceiling is not
    reached. *)
Lemma increment_stalls_at_two53 :
  instance_at project far_world = Some far_state /\
  active far_state = true /\
  iteration far_state < maxIterations far_state /\
  exists v' st' w',
    incrementRalfreshIteration project None far_world = (Ret (Some v'), w') /\
    decode v' = Some st' /\
    instance_at project w' = Some st' /\
    iteration st' = iteration far_state /\
    iteration st' <> iteration far_state + 1.
Proof.
  assert (H1 : instance_at project far_world = Some far_state) by compute_it.
  split; [exact H1|]. split; [reflexivity|]. split; [reflexivity|].
  pose proof H1 as (v & Hs & Hr)%instance_at_inv.
  destruct (increment_below_ceiling project None v far_state far_world Hs Hr eq_refl)
    as (v' & Hr' & Hrun); [reflexivity|].
  cbv zeta in Hrun. rewrite decide_True in Hrun by decide_it.
  eexists v', _, _. split; [exact Hrun|]. split; [by apply decode_rep|].
  split; [by apply instance_at_written|].
  cbn [increment_state iteration far_state]. rewrite js_add_two53.
  split; [reflexivity|]. unfold two53. lia.
Qed.

Lemma increment_starts_fresh_iteration_witness :
  instance_at project littered_world = Some assess_state /\
  is_Some (files littered_world !! (stateDir project, "plan-consensus.json")) /\
  is_Some (files littered_world !! (stateDir project, "swarm.db")) /\
  is_Some (files littered_world !! (stateDir project, "ralph-state.json")) /\
  exists v' st' w',
    incrementRalfreshIteration project (Some "session-1") littered_world =
      (Ret (Some v'), w') /\
    decode v' = Some st' /\
    iteration st' = 2 /\ phase st' = planning /\
    files w' !! (stateDir project, "plan-consensus.json") = None /\
    files w' !! (stateDir project, "swarm.db") = None /\
    files w' !! (stateDir project, "ralph-state.json") = None.
Proof.
  assert (H3 : iteration assess_state < maxIterations assess_state) by done.
  assert (H4 : - two53 <= iteration assess_state < two53) by done.
  assert (H1 : instance_at project littered_world = Some assess_state) by compute_it.
  assert (H5 : writable project littered_world) by decide_it.
  split; [exact H1|].
  split; [apply (bool_decide_unpack _); vm_compute; exact I|].
  split; [apply (bool_decide_unpack _); vm_compute; exact I|].
  split; [apply (bool_decide_unpack _); vm_compute; exact I|].
  destruct (increment_starts_fresh_iteration project (Some "session-1") assess_state
              littered_world H1 eq_refl H3 H4 H5)
    as (v' & st' & Hrun & Hd & Hi & Hp & _ & _ & _ & _ & _ & _ & Hgone).
  eexists v', st', _. split; [exact Hrun|]. split; [exact Hd|].
  split; [exact Hi|]. split; [exact Hp|].
  pose proof (proj1 (Forall_forall _ _) Hgone) as Hall.
  split; [apply (Hall "plan-consensus.json"); decide_it|].
  split; [apply (Hall "swarm.db"); decide_it
         |apply (Hall "ralph-state.json"); decide_it].
Defined.

Lemma finished_world_lifecycle : lifecycle project finished_world.
Proof.
  unfold finished_world, assess_world. do 4 apply lifecycle_step.
  eapply (lifecycle_init project blank_world "build a feature" (Some "session-1") None).
  compute_it.
Qed.

Lemma processRalfreshLoop_leaves_finished_instances_witness :
  lifecycle project finished_world /\
  instance_at project finished_world = Some finished_state /\
  is_terminal (phase finished_state) = true /\
  processRalfreshLoop (Some "session-1") (Some project) finished_world
    = (Ret None, finished_world) /\
  is_Some (stored project finished_world).
Proof.
  assert (H0 : project <> "") by done.
  assert (H2 : instance_at project finished_world = Some finished_state) by compute_it.
  split; [exact finished_world_lifecycle|]. split; [exact H2|]. split; [reflexivity|].
  exact (processRalfreshLoop_leaves_finished_instances (Some "session-1") project
           finished_state finished_world H0 finished_world_lifecycle H2 eq_refl).
Defined.

Lemma lifecycle_active_iff_running_witness :
  lifecycle project finished_world /\
  exists st,
    instance_at project finished_world = Some st /\
    (active st = false <-> (is_terminal (phase st) = true /\ completedAt st <> None)).
Proof.
  split; [apply finished_world_lifecycle|].
  exact (lifecycle_active_iff_running project finished_world finished_world_lifecycle).
Defined.

Lemma write_read_round_trip_witness :
  decode (encode assess_state) = Some assess_state /\
  exists w',
    writeRalfreshState project (encode assess_state) blank_world = (Ret true, w') /\
    readRalfreshState project w' = (Ret (Some (json_of (encode assess_state))), w') /\
    decode (json_of (encode assess_state)) = Some assess_state.
Proof.
  split; [apply decode_encode|].
  assert (H2 : writable project blank_world) by decide_it.
  exact (write_read_round_trip project (encode assess_state) assess_state blank_world
           (decode_encode assess_state) H2).
Defined.

Lemma entries_are_truncated_witness :
  instance_at project started_world = Some started_state /\
  js_length (repeat_char "x" 5000) > MAX_ENTRY_LENGTH /\
  exists w' st',
    addRalfreshLearning project (repeat_char "x" 5000) started_world = (Ret true, w') /\
    instance_at project w' = Some st' /\
    last (learnings st') = Some (truncate_entry (repeat_char "x" 5000)) /\
    js_length (truncate_entry (repeat_char "x" 5000)) = MAX_ENTRY_LENGTH.
Proof.
  assert (H1 : instance_at project started_world = Some started_state) by compute_it.
  assert (H2 : writable project started_world) by decide_it.
  assert (H3 : js_length (repeat_char "x" 5000) = 5000) by compute_it.
  split; [exact H1|]. split; [rewrite H3; done|].
  destruct (entries_are_truncated project (repeat_char "x" 5000) started_state
              started_world H1 H2) as ((w' & st' & Hrun & Hi & Hlast) & _ & Hcut).
  rewrite decide_False in Hcut by (rewrite H3; unfold MAX_ENTRY_LENGTH; lia).
  exists w', st'. split; [exact Hrun|]. split; [exact Hi|].
  split; [exact Hlast | exact (proj1 Hcut)].
Defined.

Lemma entries_keep_most_recent_witness :
  instance_at project started_world = Some started_state /\
  exists w' st',
    addRalfreshLearnings project (numbered "learning" 110) started_world
      = (Ret tt, w') /\
    instance_at project w' = Some st' /\
    learnings st' = drop 10 (truncate_entry <$> numbered "learning" 110) /\
    Z.of_nat (List.length (learnings st')) = MAX_LEARNINGS.
Proof.
  assert (H1 : instance_at project started_world = Some started_state) by compute_it.
  assert (H2 : writable project started_world) by decide_it.
  assert (H3 : Z.of_nat (List.length (numbered "learning" 110)) = MAX_LEARNINGS + 10)
    by compute_it.
  split; [exact H1|].
  exact (proj1 (entries_keep_most_recent project (numbered "learning" 110)
                  started_state started_world H1 H2 H3)).
Defined.

Lemma initRalfresh_prompt_bound_witness :
  js_length (repeat_char "x" 32768) = MAX_PROMPT_LENGTH /\
  (exists v' st' w',
     initRalfresh project (repeat_char "x" 32768) None None blank_world
       = (Ret (Some v'), w') /\
     decode v' = Some st' /\
     instance_at project w' = Some st' /\
     prompt st' = repeat_char "x" 32768) /\
  initRalfresh project (repeat_char "x" 32769) None None blank_world
    = (Ret None, blank_world).
Proof.
  assert (H1 : (mode_registry blank_world "ralfresh" project).1 = true) by reflexivity.
  assert (H2 : writable project blank_world) by decide_it.
  assert (H3 : js_length (repeat_char "x" 32768) = 32768) by compute_it.
  assert (H4 : js_length (repeat_char "x" 32769) = 32769) by compute_it.
  split; [exact H3|]. split.
  - pose proof (initRalfresh_prompt_bound project (repeat_char "x" 32768) None None
                  blank_world H1 H2) as H.
    rewrite decide_True in H by (rewrite H3; unfold MAX_PROMPT_LENGTH; lia).
    exact H.
  - pose proof (initRalfresh_prompt_bound project (repeat_char "x" 32769) None None
                  blank_world H1 H2) as H.
    rewrite decide_False in H by (rewrite H4; unfold MAX_PROMPT_LENGTH; lia).
    exact H.
Defined.

Lemma unknown_phase_passes_reader_and_throws_witness :
  isValidRalfreshState paused_document = true /\
  phase_of_string "paused" = None /\
  readRalfreshState project paused_world = (Ret (Some paused_document), paused_world) /\
  transitionRalfreshPhase project execution paused_world = (Throw TypeError, paused_world).
Proof.
  split; [reflexivity|]. split; [reflexivity|].
  apply (unknown_phase_passes_reader_and_throws project "paused" execution
           paused_document paused_world); compute_it.
Defined.

(** * Further properties of the module *)

(** ** The state file *)

Lemma strict_eq_true_bool v : strict_eq v (VBool true) = true <-> v = VBool true.
Proof. destruct v as [| |[]| | | |]; naive_solver. Qed.

(** X1. [readRalfreshState] never throws and never changes the world.  It
    returns [null] when the state file is missing, when its text is not
    JSON, and when the parsed value fails [isValidRalfreshState]; otherwise
    it returns the parsed value. *)
Theorem readRalfreshState_is_defensive directory w :
  exists r,
    readRalfreshState directory w = (Ret r, w) /\
    match stored directory w with
    | Some (Json v) => r = if isValidRalfreshState v then Some v else None
    | _ => r = None
    end.
Proof.
  rewrite readRalfreshState_spec. eexists. split; [done|].
  by destruct (stored directory w) as [[raw|v]|].
Qed.

(** X2. A state file that lacks one of the ten fields the validator asks
    for is refused: [isValidRalfreshState] is false of it and
    [readRalfreshState] returns [null], leaving the file where it is. *)
Theorem reader_requires_every_field directory k v w :
  stored directory w = Some (Json v) ->
  k ∈ required_fields ->
  field k v = VUndef ->
  isValidRalfreshState v = false /\
  readRalfreshState directory w = (Ret None, w).
Proof.
  intros Hs Hk Hf.
  assert (Hv : isValidRalfreshState v = false).
  { unfold isValidRalfreshState. destruct (_ || _); [done|].
    unfold required_fields in Hk.
    repeat (apply elem_of_cons in Hk as [->|Hk];
            [rewrite Hf; cbn; by rewrite ?andb_false_r|]).
    by apply elem_of_nil in Hk. }
  split; [done|]. by rewrite readRalfreshState_spec, Hs, Hv.
Qed.

Lemma reader_requires_every_field_witness :
  stored project partial_world = Some (Json partial_document) /\
  isValidRalfreshState partial_document = false /\
  readRalfreshState project partial_world = (Ret None, partial_world).
Proof.
  assert (H1 : stored project partial_world = Some (Json partial_document))
    by compute_it.
  assert (H2 : "iteration" ∈ required_fields) by decide_it.
  split; [exact H1|].
  exact (reader_requires_every_field project "iteration" partial_document
           partial_world H1 H2 eq_refl).
Defined.

(** X3. [writeRalfreshState] never throws; it answers by [true] or
    [false].  After [true] the state file holds the print of the state, no
    temporary file is left and the state directory exists.  After [false]
    the state file is what it was before the call: the new text goes to the
    temporary file first, so the previous state is never lost.  In both cases
    no file other than the state file and its temporary file has changed, and
    where the state directory can be changed the answer is [true]. *)
Theorem writeRalfreshState_saves_or_leaves directory v w :
  exists b w',
    writeRalfreshState directory v w = (Ret b, w') /\
    (writable directory w -> b = true) /\
    (b = true ->
       stored directory w' = Some (Json (json_of v)) /\
       files w' !! (stateDir directory, "ralfresh-state.json.tmp") = None /\
       stateDir directory ∈ dirs w') /\
    (b = false -> stored directory w' = stored directory w) /\
    (forall key,
       key <> (stateDir directory, "ralfresh-state.json") ->
       key <> (stateDir directory, "ralfresh-state.json.tmp") ->
       files w' !! key = files w !! key).
Proof.
  rewrite writeRalfreshState_spec. destruct (decide _) as [Hw|Hw].
  - eexists _, _. split; [done|]. split; [done|]. split; [|split; [done|]].
    + intros _. split; [apply stored_written|]. unfold written. cbn. split.
      * rewrite lookup_insert_ne by (intros [=]). apply lookup_delete_eq.
      * apply elem_of_union_l. by apply elem_of_singleton.
    + intros key H1 H2. unfold written. cbn. rewrite lookup_insert_ne by done.
      by rewrite lookup_delete_ne.
  - eexists _, _. split; [done|]. split; [done|]. split; [done|]. done.
Qed.

Lemma writeRalfreshState_saves_or_leaves_witness :
  (exists w',
     writeRalfreshState project partial_document started_world = (Ret true, w') /\
     stored project w' = Some (Json (json_of partial_document)) /\
     files w' !! (stateDir project, "ralfresh-state.json.tmp") = None) /\
  (exists w',
     writeRalfreshState project partial_document locked_world = (Ret false, w') /\
     instance_at project w' = Some started_state).
Proof.
  split.
  - destruct (writeRalfreshState_saves_or_leaves project partial_document started_world)
      as (b & w' & Hrun & Hcan & Hsaved & _).
    assert (Hb : b = true) by (apply Hcan; decide_it).
    rewrite Hb in Hrun. destruct (Hsaved Hb) as (Hs & Htmp & _).
    exists w'. split; [exact Hrun|]. split; [exact Hs | exact Htmp].
  - assert (Hrun0 : (writeRalfreshState project partial_document locked_world).1
                    = Ret false) by compute_it.
    assert (H1 : instance_at project locked_world = Some started_state) by compute_it.
    destruct (writeRalfreshState_saves_or_leaves project partial_document locked_world)
      as (b & w' & Hrun & _ & _ & Hkept & _).
    rewrite Hrun in Hrun0. cbn [fst] in Hrun0. injection Hrun0 as ->.
    exists w'. split; [exact Hrun|].
    rewrite (instance_at_same _ _ _ (Hkept eq_refl)). exact H1.
Defined.

(** X4. [clearRalfreshState] never throws and returns [true] exactly when
    no state file is left afterwards: when there was none, in which case
    nothing changes, or when the file could be removed.  Only the state file
    is touched, and after a successful call [readRalfreshState] returns
    [null] and [isRalfreshActive] returns [false]. *)
Theorem clearRalfreshState_removes_the_state_file directory w :
  exists b w',
    clearRalfreshState directory w = (Ret b, w') /\
    (b = true <-> stored directory w' = None) /\
    (b = true <-> (stored directory w = None \/ writable directory w)) /\
    (b = false \/ stored directory w = None -> w' = w) /\
    (forall key,
       key <> (stateDir directory, "ralfresh-state.json") ->
       files w' !! key = files w !! key) /\
    (b = true ->
       readRalfreshState directory w' = (Ret None, w') /\
       isRalfreshActive directory w' = (Ret false, w')).
Proof.
  rewrite clearRalfreshState_spec.
  destruct (stored directory w) as [t|] eqn:Es.
  - destruct (decide _) as [Hw|Hw].
    + eexists _, _. split; [done|].
      assert (Hgone : stored directory
                (set_files (delete (stateDir directory, "ralfresh-state.json")
                              (files w)) w) = None).
      { unfold stored. cbn. apply lookup_delete_eq. }
      split; [done|]. split; [split; [by right | done]|].
      split; [by intros [|]|]. split.
      * intros key Hk. cbn. by rewrite lookup_delete_ne.
      * intros _. unfold isRalfreshActive, mbind, M_bind.
        by rewrite readRalfreshState_spec, Hgone.
    + eexists _, _. split; [done|]. rewrite Es.
      split; [done|]. split; [split; [done | by intros [|]]|].
      split; [done|]. split; [done|]. done.
  - eexists _, _. split; [done|]. rewrite Es. split; [done|].
    split; [split; [by left | done]|]. split; [done|]. split; [done|].
    intros _. unfold isRalfreshActive, mbind, M_bind.
    by rewrite readRalfreshState_spec, Es.
Qed.

Lemma clearRalfreshState_removes_the_state_file_witness :
  is_Some (stored project started_world) /\
  exists w',
    clearRalfreshState project started_world = (Ret true, w') /\
    stored project w' = None /\
    isRalfreshActive project w' = (Ret false, w').
Proof.
  split; [apply (bool_decide_unpack _); vm_compute; exact I|].
  destruct (clearRalfreshState_removes_the_state_file project started_world)
    as (b & w' & Hrun & Hgone & Hiff & _ & _ & Hafter).
  assert (Hb : b = true) by (apply Hiff; right; decide_it).
  rewrite Hb in Hrun. exists w'. split; [exact Hrun|].
  split; [exact (proj1 Hgone Hb) | exact (proj2 (Hafter Hb))].
Defined.

(** X5. [isRalfreshActive] changes nothing and returns [true] exactly when
    the state file holds a value that the validator accepts and whose
    [active] is [true]; on a typed instance it returns its [active]. *)
Theorem isRalfreshActive_iff directory w :
  exists b,
    isRalfreshActive directory w = (Ret b, w) /\
    (b = true <->
       exists v, stored directory w = Some (Json v) /\
                 isValidRalfreshState v = true /\
                 field "active" v = VBool true) /\
    (forall st, instance_at directory w = Some st -> b = active st).
Proof.
  unfold isRalfreshActive, mbind, M_bind. rewrite readRalfreshState_spec.
  destruct (stored directory w) as [[raw|v]|] eqn:Es.
  - eexists. split; [done|]. split; [split; [done | by intros (? & ? & _)]|].
    intros st. unfold instance_at. by rewrite Es.
  - destruct (isValidRalfreshState v) eqn:Ev.
    + eexists. split; [done|]. split.
      * rewrite strict_eq_true_bool. split; [by eauto|].
        by intros (v' & [= <-] & _ & ?).
      * intros st (v' & Hs' & Hr)%instance_at_inv.
        rewrite Es in Hs'. injection Hs' as <-.
        rewrite (rep_active _ _ Hr). by destruct (active st).
    + eexists. split; [done|]. split.
      * split; [done|]. intros (v' & [= <-] & Hv & _). congruence.
      * intros st (v' & Hs' & Hr)%instance_at_inv.
        rewrite Es in Hs'. injection Hs' as <-.
        apply rep_valid in Hr. congruence.
  - eexists. split; [done|]. split; [split; [done | by intros (? & ? & _)]|].
    intros st. unfold instance_at. by rewrite Es.
Qed.

Lemma isRalfreshActive_iff_witness :
  isRalfreshActive project started_world = (Ret true, started_world) /\
  isRalfreshActive project finished_world = (Ret false, finished_world) /\
  isRalfreshActive project blank_world = (Ret false, blank_world).
Proof.
  assert (H1 : instance_at project started_world = Some started_state) by compute_it.
  assert (H2 : instance_at project finished_world = Some finished_state) by compute_it.
  split; [|split].
  - destruct (isRalfreshActive_iff project started_world) as (b & Hrun & _ & Htyped).
    rewrite (Htyped _ H1) in Hrun. exact Hrun.
  - destruct (isRalfreshActive_iff project finished_world) as (b & Hrun & _ & Htyped).
    rewrite (Htyped _ H2) in Hrun. exact Hrun.
  - destruct (isRalfreshActive_iff project blank_world) as (b & Hrun & Hiff & _).
    destruct b; [|exact Hrun]. exfalso.
    destruct (proj1 Hiff eq_refl) as (v & Hs & _). discriminate Hs.
Defined.

(** ** The sub-mode reaper *)

Lemma strict_eq_str a s : strict_eq a (VStr s) = true <-> a = VStr s.
Proof.
  destruct a; simpl; try (split; [done | intros [=]]).
  rewrite String.eqb_eq. split; [by intros -> | by intros [= ->]].
Qed.

Lemma local_body_exact sd f success w :
  local_body sd f success w =
    match files w !! (sd, f) with
    | None => (Ret success, w)
    | Some _ =>
        if decide (sd ∈ readonly w) then (Ret false, w)
        else (Ret success, set_files (delete (sd, f) (files w)) w)
    end.
Proof.
  unfold local_body, existsSync, unlinkSync, try_catch, check_writable,
    mbind, M_bind, mret, M_ret. cbn.
  destruct (files w !! (sd, f)) as [t|] eqn:E; cbn; [|done].
  rewrite E. destruct (decide (sd ∈ readonly w)) as [Hr|Hr].
  - by rewrite (bool_decide_true _ Hr).
  - by rewrite (bool_decide_false _ Hr).
Qed.

(** The first loop of the reaper works in one directory, leaves the world
    alone when there is nothing to delete, and reports what it could not
    delete. *)
Lemma local_loop_exact sd names : forall success w,
  exists b w',
    for_of names (local_body sd) success w = (Ret b, w') /\
    (exists m, w' = set_files m w /\
       forall key, m !! key = files w !! key \/
                   (m !! key = None /\ key.1 = sd /\ key.2 ∈ names)) /\
    (b = true -> success = true) /\
    ((forall f, f ∈ names -> files w !! (sd, f) = None) -> b = success /\ w' = w) /\
    (sd ∈ readonly w ->
       (exists f, f ∈ names /\ is_Some (files w !! (sd, f))) -> b = false).
Proof.
  induction names as [|f names IH]; intros success w.
  - exists success, w. split; [done|]. split.
    { exists (files w). split; [by rewrite set_files_id | by left]. }
    split; [done|]. split; [done|].
    intros _ (f & Hf & _). by apply elem_of_nil in Hf.
  - cbn [for_of]. unfold mbind at 1, M_bind at 1. rewrite local_body_exact.
    destruct (files w !! (sd, f)) as [t|] eqn:E.
    + destruct (decide (sd ∈ readonly w)) as [Hr|Hr].
      * destruct (IH false w) as (b & w' & -> & (m & -> & Hm) & Hmono & Hnone & Hfail).
        exists b, (set_files m w). split; [done|]. split.
        { exists m. split; [done|]. intros key.
          destruct (Hm key) as [?|(? & ? & ?)]; [by left|right].
          split; [done|]. split; [done|]. apply elem_of_cons. by right. }
        assert (Hb : b = false) by (destruct b; [by specialize (Hmono eq_refl) | done]).
        split; [by rewrite Hb|]. split.
        { intros Habs. rewrite Habs in E; [done|]. apply elem_of_cons. by left. }
        done.
      * destruct (IH success (set_files (delete (sd, f) (files w)) w))
          as (b & w' & -> & (m & -> & Hm) & Hmono & Hnone & Hfail).
        exists b, (set_files m w). split; [done|]. split.
        { exists m. split; [done|]. intros key. cbn in Hm.
          destruct (Hm key) as [Hk|(? & ? & ?)].
          - destruct (decide (key = (sd, f))) as [->|Hne].
            + right. rewrite Hk, lookup_delete_eq. split; [done|].
              split; [done|]. apply elem_of_cons. by left.
            + left. by rewrite Hk, lookup_delete_ne.
          - right. split; [done|]. split; [done|]. apply elem_of_cons. by right. }
        split; [done|]. split.
        { intros Habs. rewrite Habs in E; [done|]. apply elem_of_cons. by left. }
        done.
    + destruct (IH success w) as (b & w' & -> & (m & -> & Hm) & Hmono & Hnone & Hfail).
      exists b, (set_files m w). split; [done|]. split.
      { exists m. split; [done|]. intros key.
        destruct (Hm key) as [?|(? & ? & ?)]; [by left|right].
        split; [done|]. split; [done|]. apply elem_of_cons. by right. }
      split; [done|]. split.
      { intros Habs. apply Hnone. intros f' Hf'. apply Habs.
        apply elem_of_cons. by right. }
      intros Hr (f' & [->|Hf']%elem_of_cons & Hsome).
      { rewrite E in Hsome. by destruct Hsome. }
      apply Hfail; [done|]. by exists f'.
Qed.

Lemma global_body_exact gd sid force f success w :
  global_body gd sid force f success w =
    match files w !! (gd, f) with
    | None => (Ret success, w)
    | Some (NotJson _) => (Ret false, w)
    | Some (Json v) =>
        match sessionMatches sid v with
        | Throw _ => (Ret false, w)
        | Ret matched =>
            if force || matched then
              if decide (gd ∈ readonly w) then (Ret false, w)
              else (Ret success, set_files (delete (gd, f) (files w)) w)
            else (Ret success, w)
        end
    end.
Proof.
  unfold global_body, existsSync, readFileSync, unlinkSync, try_catch,
    check_writable, lift, mbind, M_bind, mret, M_ret. cbn.
  destruct (files w !! (gd, f)) as [[raw|v]|] eqn:E; cbn; rewrite ?E; cbn; try done.
  destruct (sessionMatches sid v) as [matched|e]; [|done].
  destruct (force || matched); [|done]. rewrite E.
  destruct (decide (gd ∈ readonly w)) as [Hr|Hr].
  - by rewrite (bool_decide_true _ Hr).
  - by rewrite (bool_decide_false _ Hr).
Qed.

Lemma sessionMatches_other sid v :
  of_other_session sid (Json v) ->
  forall matched, sessionMatches sid v = Ret matched -> matched = false.
Proof.
  intros Hother matched. unfold sessionMatches.
  destruct sid as [s|]; [|by intros [= <-]].
  destruct (truthy (VStr s)); cbn [negb]; [|by intros [= <-]].
  destruct (Hother s v eq_refl eq_refl) as [H1 H2].
  assert (E1 : strict_eq (field "session_id" v) (VStr s) = false).
  { destruct (strict_eq _ _) eqn:E; [by apply strict_eq_str in E | done]. }
  assert (E2 : strict_eq (field "sessionId" v) (VStr s) = false).
  { destruct (strict_eq (field "sessionId" v) _) eqn:E;
      [by apply strict_eq_str in E | done]. }
  destruct v; cbn; try done.
  all: rewrite E1; cbn; rewrite E2.
  all: by intros [= <-].
Qed.

(** The second loop never reports more success than it was given, leaves
    the world alone when there is nothing to delete, and keeps a file that
    names another session. *)
Lemma global_loop_exact gd sid force names : forall success w,
  exists b w',
    for_of names (global_body gd sid force) success w = (Ret b, w') /\
    (b = true -> success = true) /\
    ((forall f, f ∈ names -> files w !! (gd, f) = None) -> b = success /\ w' = w) /\
    (force = false ->
     forall key t, files w !! key = Some t -> of_other_session sid t ->
                   files w' !! key = Some t).
Proof.
  induction names as [|f names IH]; intros success w.
  - exists success, w. done.
  - cbn [for_of]. unfold mbind at 1, M_bind at 1. rewrite global_body_exact.
    assert (Hstep : forall b1 w1,
      (b1 = true -> success = true) ->
      (files w !! (gd, f) = None -> b1 = success /\ w1 = w) ->
      (force = false -> forall key t, files w !! key = Some t ->
         of_other_session sid t -> files w1 !! key = Some t) ->
      (forall key, files w !! key = None -> files w1 !! key = None) ->
      exists b w',
        for_of names (global_body gd sid force) b1 w1 = (Ret b, w') /\
        (b = true -> success = true) /\
        ((forall f0, f0 ∈ f :: names -> files w !! (gd, f0) = None) ->
           b = success /\ w' = w) /\
        (force = false -> forall key t, files w !! key = Some t ->
           of_other_session sid t -> files w' !! key = Some t)).
    { intros b1 w1 Hm1 Hn1 Hk1 Ha1.
      destruct (IH b1 w1) as (b & w' & -> & Hmono & Hnone & Hkeep).
      exists b, w'. split; [done|]. split; [by intros ?%Hmono%Hm1|]. split.
      - intros Habs. destruct Hn1 as [-> ->].
        { apply Habs. apply elem_of_cons. by left. }
        apply Hnone. intros f' Hf'. apply Habs. apply elem_of_cons. by right.
      - intros Hforce key t Hk Ho. apply Hkeep; [done| |done]. by apply Hk1. }
    destruct (files w !! (gd, f)) as [[raw|v]|] eqn:E.
    + apply Hstep; try done.
    + destruct (sessionMatches sid v) as [matched|e] eqn:Em.
      * destruct (force || matched) eqn:Efm.
        -- destruct (decide (gd ∈ readonly w)).
           ++ apply Hstep; try done.
           ++ apply Hstep; try done.
              ** intros -> key t Hk Ho. cbn.
                 destruct (decide (key = (gd, f))) as [->|Hne];
                   [|by rewrite lookup_delete_ne].
                 rewrite E in Hk. injection Hk as <-.
                 rewrite (sessionMatches_other _ _ Ho _ Em) in Efm. done.
              ** intros key Hk. cbn.
                 destruct (decide (key = (gd, f))) as [->|Hne];
                   [apply lookup_delete_eq | by rewrite lookup_delete_ne].
        -- apply Hstep; try done.
      * apply Hstep; try done.
    + apply Hstep; try done.
Qed.

Lemma reaper_steps directory sid force w :
  exists b1 w1 b w',
    for_of localFilesToDelete (local_body (stateDir directory)) true w = (Ret b1, w1) /\
    clearAllRalfreshSubModes directory sid force w = (Ret b, w') /\
    (b = true -> b1 = true) /\
    if truthy (home_directory w) then
      for_of globalFiles
        (global_body (join (to_string (home_directory w)) [".claude"]) sid force)
        b1 w1 = (Ret b, w')
    else b = b1 /\ w' = w1.
Proof.
  destruct (local_loop_exact (stateDir directory) localFilesToDelete true w)
    as (b1 & w1 & Hl & (m & Hw1 & _) & _).
  exists b1, w1.
  cut (exists b w',
    clearAllRalfreshSubModes directory sid force w = (Ret b, w') /\
    (b = true -> b1 = true) /\
    if truthy (home_directory w) then
      for_of globalFiles
        (global_body (join (to_string (home_directory w)) [".claude"]) sid force)
        b1 w1 = (Ret b, w')
    else b = b1 /\ w' = w1).
  { intros (b & w' & H). exists b, w'. by split. }
  unfold clearAllRalfreshSubModes. fold (stateDir directory).
  cbv zeta. unfold mbind at 1, M_bind at 1.
  change (fun (file : string) (success : bool) => _)
    with (local_body (stateDir directory)) at 1.
  rewrite Hl.
  unfold mbind at 1, M_bind at 1, process_env at 1.
  unfold mbind at 1, M_bind at 1, process_env at 1.
  assert (Henv : env w1 = env w) by by rewrite Hw1.
  rewrite Henv. fold (home_directory w).
  destruct (truthy (home_directory w)); cbn [negb].
  - change (fun (file : string) (success : bool) => _)
      with (global_body (join (to_string (home_directory w)) [".claude"]) sid force).
    destruct (global_loop_exact (join (to_string (home_directory w)) [".claude"])
                sid force globalFiles b1 w1) as (b & w' & Hg & Hmono & _).
    exists b, w'. by rewrite Hg.
  - by exists b1, w1.
Qed.

(** X6. [clearAllRalfreshSubModes] never throws.  Every file is either as
    it was or removed, and a removed file bears one of the sub-mode names:
    the ralfresh state file, the directories and the notepad are not touched.
    Where the state directory can be changed, none of the eight local
    sub-mode files is left. *)
Theorem reaper_only_removes_sub_mode_files directory sid force w :
  exists b w',
    clearAllRalfreshSubModes directory sid force w = (Ret b, w') /\
    (forall key,
       files w' !! key = files w !! key \/
       (files w' !! key = None /\ key.2 ∈ localFilesToDelete)) /\
    stored directory w' = stored directory w /\
    dirs w' = dirs w /\
    notepad w' = notepad w /\
    (writable directory w ->
       Forall (fun f => files w' !! (stateDir directory, f) = None)
         localFilesToDelete).
Proof.
  destruct (clearAllRalfreshSubModes_spec directory sid force w)
    as (b & w' & Hrun & Hrem & Hdel).
  exists b, w'. split; [done|].
  split; [|split; [by apply stored_removes|]].
  { destruct Hrem as (m & -> & Hm). done. }
  split; [by eapply removes_dirs|].
  split; [by destruct Hrem as (m & -> & _)|].
  intros Hw. apply Forall_forall. intros f Hf. by apply Hdel.
Qed.

Lemma reaper_only_removes_sub_mode_files_witness :
  is_Some (files home_world !! (stateDir project, "plan-consensus.json")) /\
  exists b w',
    clearAllRalfreshSubModes project None false home_world = (Ret b, w') /\
    files w' !! (stateDir project, "plan-consensus.json") = None /\
    dirs w' = dirs home_world.
Proof.
  split; [apply (bool_decide_unpack _); vm_compute; exact I|].
  destruct (reaper_only_removes_sub_mode_files project None false home_world)
    as (b & w' & Hrun & _ & _ & Hdirs & _ & Hlocal).
  assert (Hw : writable project home_world) by decide_it.
  exists b, w'. split; [exact Hrun|]. split; [|exact Hdirs].
  exact (proj1 (Forall_forall _ _) (Hlocal Hw) "plan-consensus.json"
           ltac:(decide_it)).
Defined.

(** X7. The result of [clearAllRalfreshSubModes] tells whether everything
    could be deleted: with no sub-mode file anywhere it returns [true] and
    changes nothing, and when a local sub-mode file exists in a state
    directory that cannot be changed it returns [false]. *)
Theorem reaper_reports_what_it_could_not_delete directory sid force w :
  ((forall key, key.2 ∈ localFilesToDelete -> files w !! key = None) ->
   clearAllRalfreshSubModes directory sid force w = (Ret true, w)) /\
  (forall f,
     f ∈ localFilesToDelete ->
     is_Some (files w !! (stateDir directory, f)) ->
     ~ writable directory w ->
     (clearAllRalfreshSubModes directory sid force w).1 = Ret false).
Proof.
  destruct (reaper_steps directory sid force w)
    as (b1 & w1 & b & w' & Hl & Hrun & Hmono & Hg).
  destruct (local_loop_exact (stateDir directory) localFilesToDelete true w)
    as (b1' & w1' & Hl' & _ & _ & Hnone & Hfail).
  rewrite Hl in Hl'. injection Hl' as <- <-.
  split.
  - intros Habs. rewrite Hrun. destruct Hnone as [-> ->].
    { intros f Hf. by apply Habs. }
    destruct (truthy (home_directory w)); [|by destruct Hg as [-> ->]].
    destruct (global_loop_exact (join (to_string (home_directory w)) [".claude"])
                sid force globalFiles true w)
      as (b' & w'' & Hg' & _ & Hnone' & _).
    rewrite Hg in Hg'. injection Hg' as <- <-.
    destruct Hnone' as [-> ->]; [|done].
    intros f Hf. apply Habs. cbn. unfold globalFiles in Hf.
    repeat (apply elem_of_cons in Hf as [->|Hf]; [decide_it|]).
    by apply elem_of_nil in Hf.
  - intros f Hf Hsome Hw. rewrite Hrun. cbn. f_equal.
    destruct b; [|done]. rewrite Hfail in Hmono.
    + by specialize (Hmono eq_refl).
    + by apply dec_stable in Hw.
    + by exists f.
Qed.

Lemma reaper_reports_what_it_could_not_delete_witness :
  clearAllRalfreshSubModes project None false blank_world = (Ret true, blank_world) /\
  (clearAllRalfreshSubModes project None false locked_home_world).1 = Ret false.
Proof.
  split.
  - apply (proj1 (reaper_reports_what_it_could_not_delete project None false
                    blank_world)).
    intros key _. apply lookup_empty.
  - apply (proj2 (reaper_reports_what_it_could_not_delete project None false
                    locked_home_world) "plan-consensus.json").
    + decide_it.
    + apply (bool_decide_unpack _). vm_compute. exact I.
    + apply (bool_decide_unpack _). vm_compute. exact I.
Defined.

(** X8. Without [force], [clearAllRalfreshSubModes] keeps every file
    outside the state directory of the project whose [session_id] and
    [sessionId] both differ from the session given, or that is not JSON;
    with no session given it keeps all of them.  The global state of
    another session is never deleted. *)
Theorem reaper_keeps_the_state_of_other_sessions directory sid d f t w :
  d <> stateDir directory ->
  files w !! (d, f) = Some t ->
  of_other_session sid t ->
  files (clearAllRalfreshSubModes directory sid false w).2 !! (d, f) = Some t.
Proof.
  intros Hd Hf Ho.
  destruct (reaper_steps directory sid false w)
    as (b1 & w1 & b & w' & Hl & Hrun & _ & Hg).
  destruct (local_loop_exact (stateDir directory) localFilesToDelete true w)
    as (b1' & w1' & Hl' & (m & Hw1 & Hm) & _).
  rewrite Hl in Hl'. injection Hl' as <- <-.
  assert (Hf1 : files w1 !! (d, f) = Some t).
  { rewrite Hw1. cbn. destruct (Hm (d, f)) as [->|(_ & ? & _)]; done. }
  rewrite Hrun. cbn [snd].
  destruct (truthy (home_directory w)); [|by destruct Hg as [_ ->]].
  destruct (global_loop_exact (join (to_string (home_directory w)) [".claude"])
              sid false globalFiles b1 w1)
    as (b' & w'' & Hg' & _ & _ & Hkeep).
  rewrite Hg in Hg'. injection Hg' as <- <-.
  by apply Hkeep.
Qed.

Lemma reaper_keeps_the_state_of_other_sessions_witness :
  files (clearAllRalfreshSubModes project (Some "session-1") false home_world).2
    !! ("/home/user/.claude", "ralph-state.json")
  = Some (Json (VObj [("active", VBool true); ("session_id", VStr "session-2")])).
Proof.
  apply (reaper_keeps_the_state_of_other_sessions project (Some "session-1")
           "/home/user/.claude" "ralph-state.json").
  - apply (bool_decide_unpack _). vm_compute. exact I.
  - compute_it.
  - intros s v [= <-] [= <-]. split; intros [=].
Defined.

(** *** The global state *)

Lemma global_loop_removes gd sid force v matched f names :
  sessionMatches sid v = Ret matched ->
  force || matched = true ->
  forall success w,
    gd ∉ readonly w ->
    files w !! (gd, f) = None \/ files w !! (gd, f) = Some (Json v) ->
    f ∈ names \/ files w !! (gd, f) = None ->
    exists b w',
      for_of names (global_body gd sid force) success w = (Ret b, w') /\
      files w' !! (gd, f) = None.
Proof.
  intros Hm Hfm. induction names as [|f' names IH]; intros success w Hr Hfile Hin.
  - exists success, w. split; [done|].
    destruct Hin as [Hin|]; [by apply elem_of_nil in Hin | done].
  - cbn [for_of]. unfold mbind at 1, M_bind at 1. rewrite global_body_exact.
    destruct (decide (f' = f)) as [->|Hne].
    + destruct Hfile as [Hf|Hf]; rewrite Hf.
      * apply IH; auto.
      * rewrite Hm, Hfm, decide_False by done.
        apply IH; cbn; [done| |]; left + right; apply lookup_delete_eq.
    + assert (Hin' : f ∈ names \/ files w !! (gd, f) = None).
      { destruct Hin as [[->|Hin]%elem_of_cons|Hin]; [done | by left | by right]. }
      assert (Hdel : forall w1,
        w1 = w \/ w1 = set_files (delete (gd, f') (files w)) w ->
        exists b w',
          for_of names (global_body gd sid force) success w1 = (Ret b, w') /\
          files w' !! (gd, f) = None).
      { intros w1 [->| ->]; [by apply IH|].
        apply IH; cbn; [done| |]; rewrite lookup_delete_ne by congruence; done. }
      assert (Hdel' : forall w1,
        w1 = w \/ w1 = set_files (delete (gd, f') (files w)) w ->
        exists b w',
          for_of names (global_body gd sid force) false w1 = (Ret b, w') /\
          files w' !! (gd, f) = None).
      { intros w1 [->| ->]; [by apply IH|].
        apply IH; cbn; [done| |]; rewrite lookup_delete_ne by congruence; done. }
      destruct (files w !! (gd, f')) as [[raw|v']|]; [by apply Hdel'; left| |by apply Hdel; left].
      destruct (sessionMatches sid v') as [m'|e]; [|by apply Hdel'; left].
      destruct (force || m'); [|by apply Hdel; left].
      destruct (decide _); [by apply Hdel'; left | by apply Hdel; right].
Qed.

(** X9. Where [HOME] is set, a global state file ([ultrawork-state.json] or
    [ralph-state.json] in [HOME/.claude]) holding an object is removed by
    [clearAllRalfreshSubModes] when [force] is set, or when the session
    given is not empty and equals the [session_id] or the [sessionId] of the
    file, provided that directory can be changed. *)
Theorem reaper_removes_the_global_state_of_its_session
    directory sid force home f v w :
  env w !! "HOME" = Some home ->
  home <> "" ->
  f ∈ globalFiles ->
  files w !! (join home [".claude"], f) = Some (Json v) ->
  is_object v = true ->
  join home [".claude"] ∉ readonly w ->
  (force = true \/
   exists s, sid = Some s /\ s <> "" /\
             (field "session_id" v = VStr s \/ field "sessionId" v = VStr s)) ->
  files (clearAllRalfreshSubModes directory sid force w).2
    !! (join home [".claude"], f) = None.
Proof.
  intros Henv Hhome Hf Hfile Hobj Hr Hwhy.
  destruct (reaper_steps directory sid force w)
    as (b1 & w1 & b & w' & Hl & Hrun & _ & Hg).
  destruct (local_loop_exact (stateDir directory) localFilesToDelete true w)
    as (b1' & w1' & Hl' & (m & Hw1 & Hm) & _).
  rewrite Hl in Hl'. injection Hl' as <- <-.
  assert (Hh : home_directory w = VStr home).
  { unfold home_directory. rewrite Henv. cbn. by destruct (String.eqb_spec home ""). }
  rewrite Hh in Hg. cbn [to_string] in Hg.
  assert (Ht : truthy (VStr home) = true).
  { cbn. by destruct (String.eqb_spec home ""). }
  rewrite Ht in Hg. rewrite Hrun. cbn [snd].
  assert (exists matched, sessionMatches sid v = Ret matched /\
                          force || matched = true) as (matched & Hmatch & Hfm).
  { apply is_object_inv in Hobj as [o ->]. unfold sessionMatches.
    destruct Hwhy as [->|(s & -> & Hs & Hwhy)].
    - destruct sid as [s|]; [|by eexists]. destruct (negb _); [by eexists|].
      cbn. destruct (strict_eq _ _); by eexists.
    - assert (truthy (VStr s) = true) as ->.
      { cbn. by destruct (String.eqb_spec s ""). }
      cbn. exists true. split; [|by rewrite orb_true_r].
      destruct (strict_eq (field "session_id" (VObj o)) (VStr s)) eqn:E; [done|].
      destruct Hwhy as [Hwhy|Hwhy].
      + apply strict_eq_str in Hwhy. congruence.
      + apply strict_eq_str in Hwhy. by rewrite Hwhy. }
  destruct (global_loop_removes (join home [".claude"]) sid force v matched f
              globalFiles Hmatch Hfm b1 w1) as (b' & w'' & Hg' & Hnone).
  - by rewrite Hw1.
  - rewrite Hw1. cbn. destruct (Hm (join home [".claude"], f)) as [->|[-> _]]; auto.
  - by left.
  - rewrite Hg in Hg'. by injection Hg' as <- <-.
Qed.

Lemma reaper_removes_the_global_state_of_its_session_witness :
  files home_world !! ("/home/user/.claude", "ultrawork-state.json")
    = Some (Json (VObj [("active", VBool true); ("session_id", VStr "session-1")])) /\
  files (clearAllRalfreshSubModes project (Some "session-1") false home_world).2
    !! ("/home/user/.claude", "ultrawork-state.json") = None.
Proof.
  assert (H1 : files home_world !! (join "/home/user" [".claude"], "ultrawork-state.json")
    = Some (Json (VObj [("active", VBool true); ("session_id", VStr "session-1")])))
    by compute_it.
  split; [exact H1|].
  apply (reaper_removes_the_global_state_of_its_session project (Some "session-1")
           false "/home/user" "ultrawork-state.json"
           (VObj [("active", VBool true); ("session_id", VStr "session-1")]) home_world).
  - compute_it.
  - done.
  - decide_it.
  - exact H1.
  - reflexivity.
  - apply (bool_decide_unpack _). vm_compute. exact I.
  - right. exists "session-1". split; [done|]. split; [done|]. by left.
Defined.

(** ** Transitions along an edge *)

Lemma valid_edge_ne p q : q ∈ VALID_TRANSITIONS p -> p <> q.
Proof.
  intros H ->. revert H. destruct q; by apply (bool_decide_unpack (¬ _)).
Qed.

Lemma phase_record_set_same p r t : phase_record p (set_phase_record p r t) = r.
Proof. by destruct p. Qed.

Lemma phase_record_set_other p q r t :
  p <> q -> phase_record p (set_phase_record q r t) = phase_record p t.
Proof. by destruct p, q. Qed.

(** X10. On a persisted active instance, a transition along an edge of the
    phase graph is stored and returned: the phase is the new one, the record
    of the old phase is [complete] with [completedAt] now, the record of
    the new phase is [in_progress] with [startedAt] now, the other records
    are untouched; [active] becomes [false] and [completedAt] is set exactly
    when the new phase is terminal; iteration, ceiling, prompt, session,
    notepad name, learnings and issues are as before. *)
Theorem transition_moves_along_an_edge directory q st w :
  instance_at directory w = Some st ->
  active st = true ->
  (phase st, q) ∈ phase_graph ->
  writable directory w ->
  exists v' st',
    transitionRalfreshPhase directory q w = (Ret (Some v'), written directory v' w) /\
    decode v' = Some st' /\
    instance_at directory (written directory v' w) = Some st' /\
    phase st' = q /\
    phase_record (phase st) (phases st') =
      {| status := status_complete;
         ps_startedAt := ps_startedAt (phase_record (phase st) (phases st));
         ps_completedAt := Some (clock w) |} /\
    phase_record q (phases st') =
      {| status := in_progress;
         ps_startedAt := Some (clock w);
         ps_completedAt := ps_completedAt (phase_record q (phases st)) |} /\
    (forall p, p <> phase st -> p <> q ->
       phase_record p (phases st') = phase_record p (phases st)) /\
    active st' = negb (is_terminal q) /\
    completedAt st' = (if is_terminal q then Some (clock w) else completedAt st) /\
    iteration st' = iteration st /\ maxIterations st' = maxIterations st /\
    prompt st' = prompt st /\ startedAt st' = startedAt st /\
    sessionId st' = sessionId st /\ notepadName st' = notepadName st /\
    learnings st' = learnings st /\ issues st' = issues st.
Proof.
  intros (v & Hs & Hr)%instance_at_inv Ha Hq%phase_graph_table Hw.
  destruct (transition_accepted directory q v st w Hs Hr Ha Hq) as (v' & Hr' & ->).
  rewrite decide_True by done.
  exists v', (transition_state (clock w) q st).
  split; [done|]. split; [by apply decode_rep|].
  split; [by apply instance_at_written|].
  pose proof (valid_edge_ne _ _ Hq) as Hne.
  unfold transition_state. cbn [phase phases active completedAt iteration
    maxIterations prompt startedAt sessionId notepadName learnings issues].
  split; [done|]. split.
  { rewrite phase_record_set_other, phase_record_set_same by done. done. }
  split.
  { rewrite phase_record_set_same, phase_record_set_other by done. done. }
  split.
  { intros p Hp1 Hp2. by rewrite !phase_record_set_other. }
  split; [by rewrite Ha; destruct (is_terminal q)|]. done.
Qed.

Lemma transition_moves_along_an_edge_witness :
  instance_at project assess_world = Some assess_state /\
  exists v' st',
    transitionRalfreshPhase project complete assess_world
      = (Ret (Some v'), written project v' assess_world) /\
    decode v' = Some st' /\
    phase st' = complete /\ active st' = false /\
    completedAt st' = Some new_year /\
    status (phase_record assess (phases st')) = status_complete.
Proof.
  assert (H1 : instance_at project assess_world = Some assess_state) by compute_it.
  assert (H3 : (phase assess_state, complete) ∈ phase_graph) by decide_it.
  assert (H4 : writable project assess_world) by decide_it.
  split; [exact H1|].
  destruct (transition_moves_along_an_edge project complete assess_state assess_world
              H1 eq_refl H3 H4)
    as (v' & st' & Hrun & Hd & _ & Hp & Hold & _ & _ & Hact & Hdone & _).
  exists v', st'. split; [exact Hrun|]. split; [exact Hd|]. split; [exact Hp|].
  split; [exact Hact|]. split; [exact Hdone|].
  change assess with (phase assess_state). rewrite Hold. reflexivity.
Defined.

(** ** Without a state *)

Lemma read_no_state directory w :
  no_state directory w -> readRalfreshState directory w = (Ret None, w).
Proof.
  unfold no_state. rewrite readRalfreshState_spec.
  destruct (stored directory w) as [[raw|v]|]; try done. by intros ->.
Qed.

(** X11. Where no state can be read (no state file, a file that is not
    JSON, or a value the validator refuses), every operation declines and
    leaves the world as it was: the reader and the transitions return
    [null], [isRalfreshActive] and the two [add] functions return [false],
    the context is empty and the loop takes no decision. *)
Theorem without_a_state_every_operation_declines directory w :
  no_state directory w ->
  readRalfreshState directory w = (Ret None, w) /\
  isRalfreshActive directory w = (Ret false, w) /\
  (forall q, transitionRalfreshPhase directory q w = (Ret None, w)) /\
  (forall sid, incrementRalfreshIteration directory sid w = (Ret None, w)) /\
  (forall entry, addRalfreshLearning directory entry w = (Ret false, w)) /\
  (forall entry, addRalfreshIssue directory entry w = (Ret false, w)) /\
  getRalfreshContext directory w = (Ret "", w) /\
  (forall sid, directory <> "" ->
     processRalfreshLoop sid (Some directory) w = (Ret None, w)).
Proof.
  intros H. pose proof (read_no_state _ _ H) as Hread.
  split; [done|].
  split; [by unfold isRalfreshActive, mbind, M_bind; rewrite Hread|].
  split; [by intros q; unfold transitionRalfreshPhase, mbind, M_bind; rewrite Hread|].
  split; [by intros sid; unfold incrementRalfreshIteration, mbind, M_bind; rewrite Hread|].
  split; [by intros e; unfold addRalfreshLearning, mbind, M_bind; rewrite Hread|].
  split; [by intros e; unfold addRalfreshIssue, mbind, M_bind; rewrite Hread|].
  split; [by unfold getRalfreshContext, mbind, M_bind; rewrite Hread|].
  intros sid Hd. apply processRalfreshLoop_no_instance; [done|].
  unfold no_state in H. destruct (stored directory w) as [[raw|v]|]; auto.
Qed.

Lemma without_a_state_every_operation_declines_witness :
  no_state project partial_world /\
  readRalfreshState project partial_world = (Ret None, partial_world) /\
  transitionRalfreshPhase project execution partial_world = (Ret None, partial_world) /\
  addRalfreshLearning project "a learning" partial_world = (Ret false, partial_world).
Proof.
  assert (H : no_state project partial_world) by (vm_compute; reflexivity).
  split; [exact H|].
  destruct (without_a_state_every_operation_declines project partial_world H)
    as (H1 & _ & H3 & _ & H5 & _).
  split; [exact H1|]. split; [exact (H3 execution) | exact (H5 "a learning")].
Defined.

(** ** Invariants of the lifecycle *)

(** X12. Terminal phases are final.  In every world of the lifecycle, an
    instance whose phase is [complete] or [failed] is inactive, and on it
    [transitionRalfreshPhase], [incrementRalfreshIteration] and
    [processRalfreshLoop] return [null] and change nothing. *)
Theorem finished_instances_stay_finished directory st w :
  lifecycle directory w ->
  instance_at directory w = Some st ->
  is_terminal (phase st) = true ->
  active st = false /\
  isRalfreshActive directory w = (Ret false, w) /\
  (forall q, transitionRalfreshPhase directory q w = (Ret None, w)) /\
  (forall sid, incrementRalfreshIteration directory sid w = (Ret None, w)) /\
  (forall sid, directory <> "" ->
     processRalfreshLoop sid (Some directory) w = (Ret None, w)).
Proof.
  intros Hl Hi Ht.
  assert (Ha : active st = false).
  { destruct (lifecycle_preserves
                (fun st => is_terminal (phase st) = true -> active st = false))
      with (directory := directory) (w := w) as (st' & Hi' & Hfinal); [| | | | |done|].
    - intros now request sid config. unfold init_state; cbn.
      by destruct (default false _).
    - intros now q st0 _ _ _. unfold transition_state; cbn. by intros ->.
    - done.
    - intros entry st0 H; apply H.
    - intros entry st0 H; apply H.
    - rewrite Hi in Hi'. injection Hi' as <-. by apply Hfinal. }
  pose proof Hi as (v & Hs & Hr)%instance_at_inv.
  split; [done|]. split.
  { unfold isRalfreshActive, mbind, M_bind.
    rewrite readRalfreshState_spec, Hs, (rep_valid _ _ Hr), (rep_active _ _ Hr), Ha.
    done. }
  split; [intros q; apply (transition_inactive _ _ v); [done|];
          by rewrite (rep_active _ _ Hr), Ha|].
  split; [intros sid; apply (increment_inactive _ _ v); [done|];
          by rewrite (rep_active _ _ Hr), Ha|].
  intros sid Hd. by eapply processRalfreshLoop_inactive.
Qed.

Lemma finished_instances_stay_finished_witness :
  lifecycle project finished_world /\
  instance_at project finished_world = Some finished_state /\
  phase finished_state = complete /\
  transitionRalfreshPhase project planning finished_world = (Ret None, finished_world) /\
  incrementRalfreshIteration project None finished_world = (Ret None, finished_world).
Proof.
  assert (H2 : instance_at project finished_world = Some finished_state) by compute_it.
  split; [exact finished_world_lifecycle|]. split; [exact H2|]. split; [reflexivity|].
  destruct (finished_instances_stay_finished project finished_state finished_world
              finished_world_lifecycle H2 eq_refl) as (_ & _ & Ht & Hinc & _).
  split; [exact (Ht planning) | exact (Hinc None)].
Defined.

(** X13. In every world of the lifecycle the iteration counter is at least
    1 and does not exceed [maxIterations], unless the instance was started
    with a ceiling below 1, in which case it stays at 1. *)
Theorem lifecycle_keeps_the_counter_within_bounds directory w :
  lifecycle directory w ->
  exists st,
    instance_at directory w = Some st /\
    1 <= iteration st /\
    (iteration st <= maxIterations st \/ iteration st = 1).
Proof.
  intros Hl.
  destruct (lifecycle_preserves
              (fun st => 1 <= iteration st <= two53 /\
                         (iteration st <= maxIterations st \/ iteration st = 1)))
    with (directory := directory) (w := w) as (st & Hi & H1 & H2); [| | | | |done|].
  - intros now request sid config. cbn. unfold two53. lia.
  - intros now q st H _ _. exact H.
  - intros now st [H1 H2] _ Hlt. cbn [increment_state iteration maxIterations].
    destruct (js_add_one_bounded (iteration st) H1) as [Hb Hexact].
    split; [lia|]. left.
    destruct (decide (iteration st = two53)) as [E|E]; [lia|].
    rewrite Hexact by lia. lia.
  - intros entry st H. exact H.
  - intros entry st H. exact H.
  - exists st. split; [done|]. lia.
Qed.

Lemma lifecycle_keeps_the_counter_within_bounds_witness :
  lifecycle project finished_world /\
  exists st,
    instance_at project finished_world = Some st /\
    1 <= iteration st /\
    (iteration st <= maxIterations st \/ iteration st = 1).
Proof.
  split; [exact finished_world_lifecycle|].
  exact (lifecycle_keeps_the_counter_within_bounds project finished_world
           finished_world_lifecycle).
Defined.

(** X14. In every world of the lifecycle exactly one phase record is
    [in_progress], the record of the current phase, and it has a
    [startedAt]; and an instance whose phase is terminal has a completed
    [assess] record: the only way to [complete] or [failed] is through
    [assess]. *)
Theorem lifecycle_keeps_one_phase_in_progress directory w :
  lifecycle directory w ->
  exists st,
    instance_at directory w = Some st /\
    (forall p, status (phase_record p (phases st)) = in_progress <-> p = phase st) /\
    is_Some (ps_startedAt (phase_record (phase st) (phases st))) /\
    (is_terminal (phase st) = true ->
       status (phase_record assess (phases st)) = status_complete /\
       is_Some (ps_completedAt (phase_record assess (phases st)))).
Proof.
  intros Hl.
  apply (lifecycle_preserves
           (fun st =>
              (forall p, status (phase_record p (phases st)) = in_progress
                         <-> p = phase st) /\
              is_Some (ps_startedAt (phase_record (phase st) (phases st))) /\
              (is_terminal (phase st) = true ->
                 status (phase_record assess (phases st)) = status_complete /\
                 is_Some (ps_completedAt (phase_record assess (phases st))))));
    [| | | | |done].
  - intros now request sid config. unfold init_state.
    destruct (default false _); cbn; (split; [by intros []|]); done.
  - intros now q st (Hone & Hstart & Hdone) Ha Hq.
    pose proof (valid_edge_ne _ _ Hq) as Hne.
    unfold transition_state.
    cbn [phase phases active completedAt iteration maxIterations].
    split; [|split].
    + intros p. destruct (decide (p = q)) as [->|Hpq].
      { by rewrite phase_record_set_same. }
      rewrite phase_record_set_other by done.
      destruct (decide (p = phase st)) as [->|Hpp].
      { by rewrite phase_record_set_same. }
      rewrite phase_record_set_other by done.
      rewrite Hone. done.
    + by rewrite phase_record_set_same.
    + intros Ht.
      assert (phase st = assess) as Hp.
      { destruct (phase st), q; try done; exfalso; revert Hq;
          by apply (bool_decide_unpack (¬ _)). }
      assert (assess <> q) by congruence.
      rewrite phase_record_set_other by done.
      rewrite Hp, !phase_record_set_same. done.
  - intros now st _ _ _. cbn. split; [by intros []|]. done.
  - intros entry st H. exact H.
  - intros entry st H. exact H.
Qed.

Lemma lifecycle_keeps_one_phase_in_progress_witness :
  lifecycle project finished_world /\
  exists st,
    instance_at project finished_world = Some st /\
    (forall p, status (phase_record p (phases st)) = in_progress <-> p = phase st) /\
    is_Some (ps_startedAt (phase_record (phase st) (phases st))) /\
    (is_terminal (phase st) = true ->
       status (phase_record assess (phases st)) = status_complete /\
       is_Some (ps_completedAt (phase_record assess (phases st)))).
Proof.
  split; [exact finished_world_lifecycle|].
  exact (lifecycle_keeps_one_phase_in_progress project finished_world
           finished_world_lifecycle).
Defined.

(** X15. In every world of the lifecycle the stored lists hold at most
    [MAX_LEARNINGS] and [MAX_ISSUES] entries, none longer than
    [MAX_ENTRY_LENGTH]. *)
Theorem lifecycle_keeps_the_lists_capped directory w :
  lifecycle directory w ->
  exists st,
    instance_at directory w = Some st /\
    Z.of_nat (List.length (learnings st)) <= MAX_LEARNINGS /\
    Z.of_nat (List.length (issues st)) <= MAX_ISSUES /\
    Forall (fun entry => js_length entry <= MAX_ENTRY_LENGTH) (learnings st) /\
    Forall (fun entry => js_length entry <= MAX_ENTRY_LENGTH) (issues st).
Proof.
  intros Hl.
  assert (Hadd : forall cap entry l,
    0 <= cap ->
    Z.of_nat (List.length l) <= cap ->
    Forall (fun entry => js_length entry <= MAX_ENTRY_LENGTH) l ->
    Z.of_nat (List.length (add_entry cap (truncate_entry entry) l)) <= cap /\
    Forall (fun entry => js_length entry <= MAX_ENTRY_LENGTH)
      (add_entry cap (truncate_entry entry) l)).
  { intros cap entry l Hcap Hlen Hall. rewrite add_entry_slice. split.
    - rewrite length_slice_last by done. lia.
    - unfold slice_last. apply Forall_drop, Forall_app. split; [done|].
      apply Forall_singleton, truncate_entry_bounded. }
  apply (lifecycle_preserves
           (fun st =>
              Z.of_nat (List.length (learnings st)) <= MAX_LEARNINGS /\
              Z.of_nat (List.length (issues st)) <= MAX_ISSUES /\
              Forall (fun entry => js_length entry <= MAX_ENTRY_LENGTH) (learnings st) /\
              Forall (fun entry => js_length entry <= MAX_ENTRY_LENGTH) (issues st)));
    [| | | | |done].
  - intros now request sid config. cbn. done.
  - intros now q st H _ _. exact H.
  - intros now st H _ _. exact H.
  - intros entry st (H1 & H2 & H3 & H4). cbn.
    destruct (Hadd MAX_LEARNINGS entry (learnings st)); done.
  - intros entry st (H1 & H2 & H3 & H4). cbn.
    destruct (Hadd MAX_ISSUES entry (issues st)); done.
Qed.

Lemma lifecycle_keeps_the_lists_capped_witness :
  lifecycle project finished_world /\
  exists st,
    instance_at project finished_world = Some st /\
    Z.of_nat (List.length (learnings st)) <= MAX_LEARNINGS /\
    Z.of_nat (List.length (issues st)) <= MAX_ISSUES /\
    Forall (fun entry => js_length entry <= MAX_ENTRY_LENGTH) (learnings st) /\
    Forall (fun entry => js_length entry <= MAX_ENTRY_LENGTH) (issues st).
Proof.
  split; [exact finished_world_lifecycle|].
  exact (lifecycle_keeps_the_lists_capped project finished_world
           finished_world_lifecycle).
Defined.

(** ** Notes *)

(** X16. [addRalfreshLearning] appends the (truncated) entry to the
    learnings, dropping the oldest entries beyond [MAX_LEARNINGS], leaves
    the issues and every other field as they were, and passes the same
    entry to the notepad under the notepad name of the instance;
    [addRalfreshIssue] does the same for the issues.  Neither looks at
    [active]. *)
Theorem add_appends_and_notes directory entry st w :
  instance_at directory w = Some st ->
  writable directory w ->
  (exists w' st',
     addRalfreshLearning directory entry w = (Ret true, w') /\
     instance_at directory w' = Some st' /\
     learnings st' =
       slice_last MAX_LEARNINGS (learnings st ++ [truncate_entry entry])%list /\
     (Z.of_nat (List.length (learnings st)) < MAX_LEARNINGS ->
        learnings st' = (learnings st ++ [truncate_entry entry])%list) /\
     issues st' = issues st /\
     active st' = active st /\ phase st' = phase st /\ phases st' = phases st /\
     iteration st' = iteration st /\ maxIterations st' = maxIterations st /\
     prompt st' = prompt st /\ completedAt st' = completedAt st /\
     notepad w' = (notepad w ++
       [AddNotepadLearning (VStr (notepadName st)) (truncate_entry entry) directory])%list) /\
  (exists w' st',
     addRalfreshIssue directory entry w = (Ret true, w') /\
     instance_at directory w' = Some st' /\
     issues st' =
       slice_last MAX_ISSUES (issues st ++ [truncate_entry entry])%list /\
     (Z.of_nat (List.length (issues st)) < MAX_ISSUES ->
        issues st' = (issues st ++ [truncate_entry entry])%list) /\
     learnings st' = learnings st /\
     active st' = active st /\ phase st' = phase st /\ phases st' = phases st /\
     iteration st' = iteration st /\ maxIterations st' = maxIterations st /\
     prompt st' = prompt st /\ completedAt st' = completedAt st /\
     notepad w' = (notepad w ++
       [AddNotepadIssue (VStr (notepadName st)) (truncate_entry entry) directory])%list).
Proof.
  intros (v & Hs & Hr)%instance_at_inv Hw. split.
  - destruct (addRalfreshLearning_spec directory entry v st w Hs Hr) as (v' & Hr' & ->).
    cbv zeta. rewrite decide_True by done.
    eexists _, (add_learning_state entry st). split; [done|].
    split; [by apply instance_at_written|]. cbn.
    rewrite add_entry_slice. split; [done|]. split; [|done].
    intros Hlen. apply slice_last_short. rewrite length_app. cbn. lia.
  - destruct (addRalfreshIssue_spec directory entry v st w Hs Hr) as (v' & Hr' & ->).
    cbv zeta. rewrite decide_True by done.
    eexists _, (add_issue_state entry st). split; [done|].
    split; [by apply instance_at_written|]. cbn.
    rewrite add_entry_slice. split; [done|]. split; [|done].
    intros Hlen. apply slice_last_short. rewrite length_app. cbn. lia.
Qed.

Lemma add_appends_and_notes_witness :
  instance_at project started_world = Some started_state /\
  exists w' st',
    addRalfreshLearning project "the parser keeps a cache" started_world = (Ret true, w') /\
    instance_at project w' = Some st' /\
    learnings st' = ["the parser keeps a cache"] /\
    issues st' = [] /\
    notepad w' =
      [InitPlanNotepad "ralfresh-2026-01-01T00-00-00" project;
       AddNotepadLearning (VStr "ralfresh-2026-01-01T00-00-00")
         "the parser keeps a cache" project].
Proof.
  assert (H1 : instance_at project started_world = Some started_state) by compute_it.
  assert (H2 : writable project started_world) by decide_it.
  split; [exact H1|].
  destruct (add_appends_and_notes project "the parser keeps a cache" started_state
              started_world H1 H2)
    as ((w' & st' & Hrun & Hi & _ & Hl & His & _ & _ & _ & _ & _ & _ & _ & Hn) & _).
  exists w', st'. split; [exact Hrun|]. split; [exact Hi|].
  split; [exact (Hl ltac:(reflexivity))|]. split; [exact His | exact Hn].
Defined.

(** X17. The notepad is written before the state is saved: when the state
    directory cannot be changed, [addRalfreshLearning] and
    [addRalfreshIssue] return [false] and no file changes, but the notepad
    has received the entry. *)
Theorem add_notes_before_it_saves directory entry st w :
  instance_at directory w = Some st ->
  ~ writable directory w ->
  (exists w',
     addRalfreshLearning directory entry w = (Ret false, w') /\
     files w' = files w /\
     notepad w' = (notepad w ++
       [AddNotepadLearning (VStr (notepadName st)) (truncate_entry entry) directory])%list) /\
  (exists w',
     addRalfreshIssue directory entry w = (Ret false, w') /\
     files w' = files w /\
     notepad w' = (notepad w ++
       [AddNotepadIssue (VStr (notepadName st)) (truncate_entry entry) directory])%list).
Proof.
  intros (v & Hs & Hr)%instance_at_inv Hw. split.
  - destruct (addRalfreshLearning_spec directory entry v st w Hs Hr) as (v' & Hr' & ->).
    cbv zeta. rewrite decide_False by done. by eexists.
  - destruct (addRalfreshIssue_spec directory entry v st w Hs Hr) as (v' & Hr' & ->).
    cbv zeta. rewrite decide_False by done. by eexists.
Qed.

Lemma add_notes_before_it_saves_witness :
  instance_at project locked_world = Some started_state /\
  exists w',
    addRalfreshLearning project "the parser keeps a cache" locked_world = (Ret false, w') /\
    files w' = files locked_world /\
    notepad w' =
      [AddNotepadLearning (VStr "ralfresh-2026-01-01T00-00-00")
         "the parser keeps a cache" project].
Proof.
  assert (H1 : instance_at project locked_world = Some started_state) by compute_it.
  assert (H2 : ~ writable project locked_world).
  { apply (bool_decide_unpack _). vm_compute. exact I. }
  split; [exact H1|].
  exact (proj1 (add_notes_before_it_saves project "the parser keeps a cache"
                  started_state locked_world H1 H2)).
Defined.

(** ** The start *)

(** X18. The state [initRalfresh] creates, stores and returns: active, at
    iteration 1, with the ceiling of the configuration or 5, in [execution]
    when [skipPlanning] is set and in [planning] otherwise; the record of
    that phase is [in_progress] since now and every other record is
    [pending]; [startedAt] is now, [completedAt] is [null], the session is
    the one given, the lists are empty; and the notepad has been initialised
    under the name of the instance, ["ralfresh-"] followed by the first 19
    characters of the timestamp with [:] and [.] replaced by [-]. *)
Theorem initRalfresh_initial_state directory request sid config w :
  js_length request <= MAX_PROMPT_LENGTH ->
  (mode_registry w "ralfresh" directory).1 = true ->
  writable directory w ->
  exists v st w',
    initRalfresh directory request sid config w = (Ret (Some v), w') /\
    decode v = Some st /\
    instance_at directory w' = Some st /\
    active st = true /\
    iteration st = 1 /\
    maxIterations st = default 5 (config ≫= cfg_maxIterations) /\
    phase st = (if default false (config ≫= cfg_skipPlanning)
                then execution else planning) /\
    phase_record (phase st) (phases st) =
      {| status := in_progress; ps_startedAt := Some (clock w);
         ps_completedAt := None |} /\
    (forall p, p <> phase st ->
       phase_record p (phases st) =
         {| status := pending; ps_startedAt := None; ps_completedAt := None |}) /\
    startedAt st = clock w /\
    completedAt st = None /\
    sessionId st = sid /\
    learnings st = [] /\ issues st = [] /\
    notepadName st = "ralfresh-" +:+ js_slice0 19 (replace_colon_dot (clock w)) /\
    notepad w' = (notepad w ++ [InitPlanNotepad (notepadName st) directory])%list.
Proof.
  intros Hlen Hreg Hw.
  destruct (initRalfresh_spec directory request sid config w Hlen Hreg)
    as (v' & Hr' & ->).
  cbv zeta. rewrite decide_True by done.
  eexists v', (init_state (clock w) request sid config), _.
  split; [done|]. split; [by apply decode_rep|].
  split; [by apply instance_at_written|].
  unfold init_state. cbn [active iteration maxIterations phase phases startedAt
    completedAt sessionId learnings issues notepadName].
  do 4 (split; [done|]).
  split; [by rewrite phase_record_set_same|].
  split; [|done].
  intros p Hp. rewrite phase_record_set_other by done. by destruct p.
Qed.

Lemma initRalfresh_initial_state_witness :
  exists v st w',
    initRalfresh project "build a feature" (Some "session-1") (Some hurried) blank_world
      = (Ret (Some v), w') /\
    decode v = Some st /\
    active st = true /\ iteration st = 1 /\ maxIterations st = 3 /\
    phase st = execution /\
    status (phase_record execution (phases st)) = in_progress /\
    status (phase_record planning (phases st)) = pending /\
    notepadName st = "ralfresh-2026-01-01T00-00-00".
Proof.
  assert (H1 : js_length "build a feature" <= MAX_PROMPT_LENGTH) by done.
  assert (H3 : writable project blank_world) by decide_it.
  destruct (initRalfresh_initial_state project "build a feature" (Some "session-1")
              (Some hurried) blank_world H1 eq_refl H3)
    as (v & st & w' & Hrun & Hd & _ & Ha & Hi & Hm & Hp & Hcur & Hoth & _ & _ & _ & _
        & _ & Hn & _).
  exists v, st, w'. split; [exact Hrun|]. split; [exact Hd|].
  split; [exact Ha|]. split; [exact Hi|]. split; [exact Hm|]. split; [exact Hp|].
  cbn in Hp. split; [rewrite <- Hp, Hcur; reflexivity|].
  split; [rewrite Hoth; [reflexivity | rewrite Hp; discriminate]|].
  rewrite Hn. reflexivity.
Defined.

(** X19. [initRalfresh] never throws.  It returns a state only for a
    prompt of at most [MAX_PROMPT_LENGTH] characters that the mode registry
    lets start, and for such a prompt it does where the state directory can
    be changed.  A prompt that is too long and a refusal of the registry
    leave the world as it was; and whenever [null] is returned the state file
    of the directory is what it was before: a start that fails does not
    disturb the instance that is there. *)
Theorem initRalfresh_starts_only_when directory request sid config w :
  exists r w',
    initRalfresh directory request sid config w = (Ret r, w') /\
    (is_Some r ->
       js_length request <= MAX_PROMPT_LENGTH /\
       (mode_registry w "ralfresh" directory).1 = true) /\
    (js_length request <= MAX_PROMPT_LENGTH ->
     (mode_registry w "ralfresh" directory).1 = true ->
     writable directory w -> is_Some r) /\
    (js_length request > MAX_PROMPT_LENGTH \/
     (mode_registry w "ralfresh" directory).1 = false -> w' = w) /\
    (r = None -> stored directory w' = stored directory w).
Proof.
  destruct (decide (js_length request > MAX_PROMPT_LENGTH)) as [Hlong|Hlen].
  { rewrite initRalfresh_too_long by done. eexists _, _. split; [done|].
    split; [by intros [? [=]]|]. split; [intros; lia|]. done. }
  destruct ((mode_registry w "ralfresh" directory).1) eqn:Hreg; cycle 1.
  { rewrite initRalfresh_blocked by done. eexists _, _. split; [done|].
    split; [by intros [? [=]]|]. split; [by intros|]. done. }
  destruct (initRalfresh_spec directory request sid config w) as (v' & Hr' & ->);
    [lia | done |].
  cbv zeta. destruct (decide (writable directory w)) as [Hw|Hw].
  - eexists _, _. split; [done|]. split; [intros _; split; [lia | done]|].
    split; [by eauto|]. split; [intros [|]; [lia | done] | done].
  - eexists _, _. split; [done|]. split; [by intros [? [=]]|].
    split; [by intros|]. split; [intros [|]; [lia | done] | done].
Qed.

Lemma initRalfresh_starts_only_when_witness :
  (exists v w',
     initRalfresh project "build a feature" None None blank_world
       = (Ret (Some v), w')) /\
  (exists w',
     initRalfresh project "another task" None None locked_world = (Ret None, w') /\
     instance_at project w' = Some started_state).
Proof.
  split.
  - destruct (initRalfresh_starts_only_when project "build a feature" None None
                blank_world) as (r & w' & Hrun & _ & Hcan & _).
    assert (Hr : is_Some r).
    { apply Hcan; [done | reflexivity | decide_it]. }
    destruct Hr as [v Hr]. rewrite Hr in Hrun. exists v, w'. exact Hrun.
  - destruct (initRalfresh_starts_only_when project "another task" None None
                locked_world) as (r & w' & Hrun & _ & _ & _ & Hkept).
    assert (Hrun0 : (initRalfresh project "another task" None None locked_world).1
                    = Ret None) by compute_it.
    rewrite Hrun in Hrun0. cbn [fst] in Hrun0. injection Hrun0 as ->.
    exists w'. split; [exact Hrun|].
    rewrite (instance_at_same _ _ _ (Hkept eq_refl)). compute_it.
Defined.

(** ** Context and continuation *)

Lemma append_assoc (a b c : string) : (a +:+ b) +:+ c = a +:+ (b +:+ c).
Proof.
  induction a as [|x a IH]; [done|].
  change (String x ((a +:+ b) +:+ c) = String x (a +:+ (b +:+ c))). by rewrite IH.
Qed.

Lemma append_nil_r (a : string) : a +:+ "" = a.
Proof.
  induction a as [|x a IH]; [done|].
  change (String x (a +:+ "") = String x a). by rewrite IH.
Qed.

Lemma append_nonempty (a b : string) : b <> "" -> a +:+ b <> "".
Proof. destruct a; [done|]. by intros _. Qed.

Lemma concat_snoc sep (l : list string) x :
  exists pre, String.concat sep (l ++ [x])%list = pre +:+ x.
Proof.
  induction l as [|a l [pre IH]].
  - by exists "".
  - cbn [app String.concat].
    destruct (l ++ [x])%list as [|b k] eqn:E.
    { by destruct l. }
    rewrite IH. exists (a +:+ sep +:+ pre). by rewrite !append_assoc.
Qed.

(** The context of an instance: what the notepad gives, then the status. *)
Lemma getRalfreshContext_parts directory st w :
  instance_at directory w = Some st ->
  exists parts,
    getRalfreshContext directory w =
      (Ret (String.concat (nl +:+ nl) (parts ++ [status_block st])%list), w) /\
    (plan_wisdom w (notepadName st) directory = None -> parts = []).
Proof.
  intros (v & Hs & Hr)%instance_at_inv.
  unfold getRalfreshContext. unfold mbind at 1, M_bind at 1.
  rewrite readRalfreshState_spec, Hs, (rep_valid _ _ Hr).
  unfold mbind at 1, M_bind at 1, readPlanWisdom.
  rewrite (rep_notepadName _ _ Hr), (rep_iteration _ _ Hr),
    (rep_maxIterations _ _ Hr), (rep_phase _ _ Hr), (rep_prompt _ _ Hr).
  cbn [to_string]. fold (status_block st).
  destruct (plan_wisdom w (notepadName st) directory) as [wisdom|];
    eexists; (split; [reflexivity|]); done.
Qed.

(** X20. On a persisted instance [getRalfreshContext] changes nothing and
    returns a text that ends with the status of the instance (iteration and
    ceiling, phase, original task); when the notepad has no wisdom for the
    instance the status is all there is. *)
Theorem getRalfreshContext_ends_with_the_status directory st w :
  instance_at directory w = Some st ->
  exists sections,
    getRalfreshContext directory w = (Ret (sections +:+ status_block st), w) /\
    (plan_wisdom w (notepadName st) directory = None -> sections = "").
Proof.
  intros Hi. destruct (getRalfreshContext_parts directory st w Hi) as (parts & -> & Hnone).
  destruct (plan_wisdom w (notepadName st) directory) as [wisdom|].
  - destruct (concat_snoc (nl +:+ nl) parts (status_block st)) as [pre ->].
    by exists pre.
  - rewrite Hnone by done. by exists "".
Qed.

Lemma getRalfreshContext_ends_with_the_status_witness :
  instance_at project started_world = Some started_state /\
  getRalfreshContext project started_world =
    (Ret ("
## Ralfresh Status
- Iteration: 1/5
- Phase: planning
- Original Task: build a feature"), started_world) /\
  exists sections,
    getRalfreshContext project advised_world
      = (Ret (sections +:+ status_block started_state), advised_world).
Proof.
  assert (H1 : instance_at project started_world = Some started_state) by compute_it.
  assert (H2 : instance_at project advised_world = Some started_state) by compute_it.
  split; [exact H1|]. split.
  - destruct (getRalfreshContext_ends_with_the_status project started_state
                started_world H1) as (sections & Hrun & Hnone).
    rewrite Hrun, (Hnone eq_refl). reflexivity.
  - destruct (getRalfreshContext_ends_with_the_status project started_state
                advised_world H2) as (sections & Hrun & _).
    exists sections. exact Hrun.
Defined.

(** X21. For a persisted active instance in a work phase,
    [processRalfreshLoop] changes nothing and blocks the stop with a message
    made of the continuation prompt of the phase and, always, the wisdom
    block: the context of an instance is never empty. *)
Theorem processRalfreshLoop_always_sends_the_context sid directory st w :
  directory <> "" ->
  instance_at directory w = Some st ->
  active st = true ->
  is_terminal (phase st) = false ->
  exists v context,
    stored directory w = Some (Json v) /\
    getRalfreshContext directory w = (Ret context, w) /\
    context <> "" /\
    processRalfreshLoop sid (Some directory) w =
      (Ret (Some {|
         shouldBlock := true;
         message :=
           "<ralfresh-continuation>" +:+ nl +:+ nl +:+
           getRalfreshContinuationPrompt v +:+ nl +:+ nl +:+
           ("<ralfresh-wisdom>" +:+ nl +:+ context +:+ nl +:+ "</ralfresh-wisdom>") +:+
           nl +:+ nl +:+ "</ralfresh-continuation>";
         result_phase := VStr (phase_name (phase st));
         metadata_iteration := VNum (iteration st);
         metadata_maxIterations := VNum (maxIterations st) |}), w).
Proof.
  intros Hd Hi Ha Ht.
  destruct (getRalfreshContext_parts directory st w Hi) as (parts & Hctx & _).
  destruct (concat_snoc (nl +:+ nl) parts (status_block st)) as [sections Hparts].
  rewrite Hparts in Hctx.
  pose proof Hi as (v & Hs & Hr)%instance_at_inv.
  exists v, (sections +:+ status_block st).
  split; [done|]. split; [done|].
  assert (Hne : sections +:+ status_block st <> "").
  { apply append_nonempty. done. }
  split; [done|].
  unfold processRalfreshLoop.
  assert (Hdir : truthy (VStr directory) = true).
  { simpl. by destruct (String.eqb_spec directory ""). }
  rewrite Hdir. unfold mbind at 1, M_bind at 1. cbn [mret M_ret].
  unfold mbind at 1, M_bind at 1.
  rewrite readRalfreshState_spec, Hs, (rep_valid _ _ Hr), (rep_active _ _ Hr), Ha.
  cbn [negb truthy].
  rewrite (rep_phase _ _ Hr), (rep_iteration _ _ Hr), (rep_maxIterations _ _ Hr).
  assert (Hnt : strict_eq (VStr (phase_name (phase st))) (VStr "complete")
                || strict_eq (VStr (phase_name (phase st))) (VStr "failed") = false).
  { by destruct (phase st). }
  rewrite Hnt. cbv zeta.
  unfold mbind at 1, M_bind at 1. rewrite Hctx.
  assert (Htr : (String.eqb (sections +:+ status_block st) "") = false).
  { by destruct (String.eqb_spec (sections +:+ status_block st) ""). }
  rewrite Htr. cbn [negb]. reflexivity.
Qed.

Lemma processRalfreshLoop_always_sends_the_context_witness :
  instance_at project started_world = Some started_state /\
  exists r,
    processRalfreshLoop None (Some project) started_world = (Ret (Some r), started_world) /\
    shouldBlock r = true /\
    message r =
"<ralfresh-continuation>

[Iteration 1/5] **RALFRESH PLANNING PHASE**

You are in the ralfresh planning phase. Use the /oh-my-claudecode:ralplan skill to achieve planning consensus between Planner, Architect, and Critic.

Original task: build a feature

DO NOT STOP until planning consensus is reached. When approved, transition to execution phase.

<ralfresh-wisdom>

## Ralfresh Status
- Iteration: 1/5
- Phase: planning
- Original Task: build a feature
</ralfresh-wisdom>

</ralfresh-continuation>".
Proof.
  assert (H0 : project <> "") by done.
  assert (H1 : instance_at project started_world = Some started_state) by compute_it.
  split; [exact H1|].
  destruct (processRalfreshLoop_always_sends_the_context None project started_state
              started_world H0 H1 eq_refl eq_refl)
    as (v & context & Hs & Hctx & _ & Hrun).
  eexists. split; [exact Hrun|]. split; [reflexivity|].
  cbn [message].
  assert (Hv : Some (Json v) = stored project started_world) by (symmetry; exact Hs).
  vm_compute in Hv. injection Hv as ->.
  assert (Hc : (Ret context, started_world) = getRalfreshContext project started_world)
    by (symmetry; exact Hctx).
  vm_compute in Hc. injection Hc as ->.
  vm_compute. reflexivity.
Defined.

(** *** The continuation prompt *)

Lemma prompt_shape (h lit a b c instructions o task closing : string) :
  lit = a +:+ b +:+ c +:+ instructions +:+ o ->
  h +:+ lit +:+ task +:+ closing =
  h +:+ a +:+ b +:+ c +:+ instructions +:+ o +:+ task +:+ closing.
Proof. intros ->. by rewrite !append_assoc. Qed.

Lemma prompt_shape_end (h lit a b c instructions o task : string) :
  lit = a +:+ b +:+ c +:+ instructions +:+ o ->
  h +:+ lit +:+ task =
  h +:+ a +:+ b +:+ c +:+ instructions +:+ o +:+ task +:+ "".
Proof. intros ->. by rewrite !append_assoc, append_nil_r. Qed.

(** X22. The continuation prompt of a state in a work phase starts with
    [[Iteration i/m]] and the name of the phase, and carries the original
    task after ["Original task: "]; for a terminal phase it is empty. *)
Theorem continuation_prompt_by_phase v st :
  decode v = Some st ->
  if is_terminal (phase st) then getRalfreshContinuationPrompt v = ""
  else
    exists instructions closing,
      getRalfreshContinuationPrompt v =
        iteration_header st +:+ " **RALFRESH " +:+ phase_title (phase st) +:+
        " PHASE**" +:+ instructions +:+
        "Original task: " +:+ prompt st +:+ closing.
Proof.
  intros Hr%decode_rep. unfold getRalfreshContinuationPrompt.
  rewrite (rep_iteration _ _ Hr), (rep_maxIterations _ _ Hr), (rep_phase _ _ Hr),
    (rep_prompt _ _ Hr).
  cbn [to_string]. rewrite phase_of_string_name. fold (iteration_header st).
  destruct (phase st); cbn [is_terminal bool_decide decide_rel orb phase_title];
    try done.
  - exists "

You are in the ralfresh planning phase. Use the /oh-my-claudecode:ralplan skill to achieve planning consensus between Planner, Architect, and Critic.

". eexists. apply prompt_shape. vm_compute. reflexivity.
  - exists "

You are in the ralfresh execution phase. Use /oh-my-claudecode:swarm or /oh-my-claudecode:ultrawork to execute the approved plan with maximum parallelism.

". eexists. apply prompt_shape. vm_compute. reflexivity.
  - exists "

You are in the ralfresh review phase. Spawn the Architect agent to verify the implementation meets all requirements.

". eexists. apply prompt_shape. vm_compute. reflexivity.
  - exists "

The Architect has reviewed the implementation. Based on the review:

- If APPROVED: Transition to 'complete' phase. Task is done.
- If REJECTED with iterations remaining: Capture learnings, increment iteration, start fresh planning with wisdom.
- If REJECTED and max iterations reached: Transition to 'failed' phase. Report partial completion.

". exists "". apply prompt_shape_end. vm_compute. reflexivity.
Qed.

Lemma continuation_prompt_by_phase_witness :
  decode (encode assess_state) = Some assess_state /\
  exists instructions closing,
    getRalfreshContinuationPrompt (encode assess_state) =
      "[Iteration 1/5] **RALFRESH ASSESSMENT PHASE**" +:+ instructions +:+
      "Original task: build a feature" +:+ closing.
Proof.
  split; [exact (decode_encode assess_state)|].
  destruct (continuation_prompt_by_phase (encode assess_state) assess_state
              (decode_encode assess_state)) as (instructions & closing & H).
  exists instructions, closing. rewrite H.
  change (iteration_header assess_state) with "[Iteration 1/5]".
  change (phase_title (phase assess_state)) with "ASSESSMENT".
  change (prompt assess_state) with "build a feature".
  generalize instructions closing. intros a b. clear.
  change ("[Iteration 1/5] **RALFRESH ASSESSMENT PHASE**")
    with ("[Iteration 1/5]" +:+ " **RALFRESH " +:+ "ASSESSMENT" +:+ " PHASE**").
  change ("Original task: build a feature")
    with ("Original task: " +:+ "build a feature").
  generalize "[Iteration 1/5]" " **RALFRESH " "ASSESSMENT" " PHASE**" "Original task: "
    "build a feature".
  intros. by rewrite !append_assoc.
Defined.

(** *** The stop *)

(** X23. The stop is allowed once.  After [processRalfreshLoop] has met a
    persisted active instance in a terminal phase, where the state directory
    can be changed, the state file is gone, [isRalfreshActive] is false and
    every further call of the loop returns [null]. *)
Theorem processRalfreshLoop_allows_the_stop_once sid directory st w :
  directory <> "" ->
  instance_at directory w = Some st ->
  active st = true ->
  is_terminal (phase st) = true ->
  writable directory w ->
  exists r w',
    processRalfreshLoop sid (Some directory) w = (Ret (Some r), w') /\
    shouldBlock r = false /\
    stored directory w' = None /\
    isRalfreshActive directory w' = (Ret false, w') /\
    (forall sid', processRalfreshLoop sid' (Some directory) w' = (Ret None, w')).
Proof.
  intros Hd Hi Ha Ht Hw.
  rewrite (processRalfreshLoop_terminal sid directory st w Hd Hi Ha Ht).
  eexists _, _. split; [reflexivity|]. split; [reflexivity|].
  pose proof Hi as (v & Hs & _)%instance_at_inv.
  assert (Hgone : stored directory
            (clearAllRalfreshSubModes directory sid false
               (clearRalfreshState directory w).2).2 = None).
  { rewrite stored_cleaned, clearRalfreshState_spec, Hs, decide_True by done.
    unfold stored. cbn. apply lookup_delete_eq. }
  split; [done|].
  split.
  - unfold isRalfreshActive, mbind, M_bind.
    by rewrite readRalfreshState_spec, Hgone.
  - intros sid'. apply processRalfreshLoop_no_instance; [done|]. by rewrite Hgone.
Qed.

Lemma processRalfreshLoop_allows_the_stop_once_witness :
  instance_at project stuck_world = Some stuck_state /\
  exists r w',
    processRalfreshLoop None (Some project) stuck_world = (Ret (Some r), w') /\
    shouldBlock r = false /\
    stored project w' = None /\
    processRalfreshLoop None (Some project) w' = (Ret None, w').
Proof.
  assert (H0 : project <> "") by done.
  assert (H1 : instance_at project stuck_world = Some stuck_state) by compute_it.
  assert (H2 : writable project stuck_world) by decide_it.
  split; [exact H1|].
  destruct (processRalfreshLoop_allows_the_stop_once None project stuck_state
              stuck_world H0 H1 eq_refl eq_refl H2)
    as (r & w' & Hrun & Hb & Hgone & _ & Hagain).
  exists r, w'. split; [exact Hrun|]. split; [exact Hb|].
  split; [exact Hgone | exact (Hagain None)].
Defined.

(** ** Ill-formed tables of phases *)

Lemma valid_object v : isValidRalfreshState v = true -> is_object v = true.
Proof.
  unfold isValidRalfreshState. by destruct v.
Qed.

Lemma assign3_throws k1 k2 k3 x v :
  is_object v = true ->
  is_object (field k2 (field k1 v)) = false ->
  Array_isArray (field k2 (field k1 v)) = false ->
  assign3 k1 k2 k3 x v = Throw TypeError.
Proof.
  intros [o ->]%is_object_inv Ho Ha. unfold assign3, member.
  destruct (field k1 (VObj o)) eqn:E1; cbn; try done.
  all: destruct (field k2 _) eqn:E2; cbn; done.
Qed.

(** X24. The reader does not look into the table of phases: a state file
    that passes [isValidRalfreshState] but has no record for its current
    phase ([phases] is [null], or lacks the key, or holds a primitive there)
    is returned by [readRalfreshState], and a transition along an edge then
    throws a [TypeError] instead of returning [null]; the file is left as it
    was. *)
Theorem transition_throws_without_a_phase_record directory p q v w :
  stored directory w = Some (Json v) ->
  isValidRalfreshState v = true ->
  field "active" v = VBool true ->
  field "phase" v = VStr (phase_name p) ->
  (p, q) ∈ phase_graph ->
  is_object (field (phase_name p) (field "phases" v)) = false ->
  Array_isArray (field (phase_name p) (field "phases" v)) = false ->
  readRalfreshState directory w = (Ret (Some v), w) /\
  transitionRalfreshPhase directory q w = (Throw TypeError, w).
Proof.
  intros Hs Hv Ha Hp Hq%phase_graph_table Ho Harr. split.
  - by rewrite readRalfreshState_spec, Hs, Hv.
  - unfold transitionRalfreshPhase. unfold mbind at 1, M_bind at 1.
    rewrite readRalfreshState_spec, Hs, Hv, Ha. cbn [negb truthy].
    unfold VALID_TRANSITIONS_at. rewrite Hp. cbn [to_string].
    rewrite phase_of_string_name. cbn [fmap option_fmap option_map].
    unfold includes. rewrite bool_decide_true by done. cbn [negb].
    unfold mbind at 1, M_bind at 1, Date_now.
    unfold mbind at 1, M_bind at 1, lift. cbv zeta.
    rewrite assign3_throws; [done | by apply valid_object | done | done].
Qed.

Lemma transition_throws_without_a_phase_record_witness :
  isValidRalfreshState tableless_document = true /\
  readRalfreshState project tableless_world = (Ret (Some tableless_document), tableless_world) /\
  transitionRalfreshPhase project execution tableless_world
    = (Throw TypeError, tableless_world).
Proof.
  split; [reflexivity|].
  apply (transition_throws_without_a_phase_record project planning execution
           tableless_document tableless_world);
    [compute_it | reflexivity | reflexivity | reflexivity | decide_it
    | reflexivity | reflexivity].
Defined.

(** ** What never throws *)

Lemma valid_arrays v :
  isValidRalfreshState v = true ->
  exists o l1 l2, v = VObj o /\ field "learnings" v = VArr l1 /\
                  field "issues" v = VArr l2.
Proof.
  intros Hv. pose proof (valid_object v Hv) as [o ->]%is_object_inv.
  unfold isValidRalfreshState in Hv. cbn [typeof strict_eq] in Hv.
  change (negb ("object" =? "object")%string || false) with false in Hv.
  cbv iota in Hv. repeat (apply andb_prop in Hv as [Hv ?]).
  destruct (field "learnings" (VObj o)) eqn:E1; try done.
  destruct (field "issues" (VObj o)) eqn:E2; try done.
  by eexists _, _, _.
Qed.

Lemma addRalfreshLearning_returns directory entry w :
  returns (addRalfreshLearning directory entry) w.
Proof.
  unfold returns, addRalfreshLearning. unfold mbind at 1, M_bind at 1.
  rewrite readRalfreshState_spec.
  destruct (stored directory w) as [[raw|v]|]; try by eexists _, _.
  destruct (isValidRalfreshState v) eqn:Hv; [|by eexists _, _].
  destruct (valid_arrays v Hv) as (o & l1 & l2 & -> & H1 & H2).
  cbv zeta. unfold mbind at 1, M_bind at 1, lift.
  rewrite (push_object _ _ _ _ H1), outcome_bind_ret.
  assert (exists v', (if array_length (field "learnings"
              (VObj (assoc_set "learnings"
                 (VArr (l1 ++ [VStr (truncate_entry entry)])%list) o))) >? MAX_LEARNINGS
            then assign "learnings"
                   (array_slice_last MAX_LEARNINGS
                      (field "learnings"
                         (VObj (assoc_set "learnings"
                            (VArr (l1 ++ [VStr (truncate_entry entry)])%list) o))))
                   (VObj (assoc_set "learnings"
                      (VArr (l1 ++ [VStr (truncate_entry entry)])%list) o))
            else mret (VObj (assoc_set "learnings"
                      (VArr (l1 ++ [VStr (truncate_entry entry)])%list) o))) = Ret v')
    as [v' ->].
  { destruct (_ >? _); by eexists. }
  unfold mbind at 1, M_bind at 1, addNotepadLearning.
  rewrite writeRalfreshState_spec. destruct (decide _); by eexists _, _.
Qed.

Lemma addRalfreshIssue_returns directory entry w :
  returns (addRalfreshIssue directory entry) w.
Proof.
  unfold returns, addRalfreshIssue. unfold mbind at 1, M_bind at 1.
  rewrite readRalfreshState_spec.
  destruct (stored directory w) as [[raw|v]|]; try by eexists _, _.
  destruct (isValidRalfreshState v) eqn:Hv; [|by eexists _, _].
  destruct (valid_arrays v Hv) as (o & l1 & l2 & -> & H1 & H2).
  cbv zeta. unfold mbind at 1, M_bind at 1, lift.
  rewrite (push_object _ _ _ _ H2), outcome_bind_ret.
  assert (exists v', (if array_length (field "issues"
              (VObj (assoc_set "issues"
                 (VArr (l2 ++ [VStr (truncate_entry entry)])%list) o))) >? MAX_ISSUES
            then assign "issues"
                   (array_slice_last MAX_ISSUES
                      (field "issues"
                         (VObj (assoc_set "issues"
                            (VArr (l2 ++ [VStr (truncate_entry entry)])%list) o))))
                   (VObj (assoc_set "issues"
                      (VArr (l2 ++ [VStr (truncate_entry entry)])%list) o))
            else mret (VObj (assoc_set "issues"
                      (VArr (l2 ++ [VStr (truncate_entry entry)])%list) o))) = Ret v')
    as [v' ->].
  { destruct (_ >? _); by eexists. }
  unfold mbind at 1, M_bind at 1, addNotepadIssue.
  rewrite writeRalfreshState_spec. destruct (decide _); by eexists _, _.
Qed.

Lemma getRalfreshContext_returns directory w :
  returns (getRalfreshContext directory) w.
Proof. destruct (getRalfreshContext_total directory w) as [s H]. by exists s, w. Qed.

Lemma clearAllRalfreshSubModes_returns directory sid force w :
  returns (clearAllRalfreshSubModes directory sid force) w.
Proof.
  destruct (clearAllRalfreshSubModes_spec directory sid force w) as (b & w' & H & _).
  by exists b, w'.
Qed.

Lemma clearRalfreshState_returns directory w : returns (clearRalfreshState directory) w.
Proof.
  unfold returns. rewrite clearRalfreshState_spec.
  destruct (stored directory w); [destruct (decide _)|]; by eexists _, _.
Qed.

Lemma processRalfreshLoop_returns sid dir w : returns (processRalfreshLoop sid dir) w.
Proof.
  unfold returns, processRalfreshLoop.
  assert (exists d, (match dir with
                     | Some d => if truthy (VStr d) then mret d else process_cwd
                     | None => process_cwd
                     end) w = (Ret d, w)) as [d Hd].
  { destruct dir as [d|]; [destruct (truthy (VStr d))|]; by eexists. }
  unfold mbind at 1, M_bind at 1. rewrite Hd.
  unfold mbind at 1, M_bind at 1. rewrite readRalfreshState_spec.
  destruct (match stored d w with Some (Json v) => _ | _ => None end) as [v|];
    [|by eexists _, _].
  destruct (negb (truthy (field "active" v))); [by eexists _, _|].
  destruct (_ || _).
  - unfold mbind at 1, M_bind at 1.
    destruct (clearRalfreshState_returns d w) as (b & w1 & ->).
    unfold mbind at 1, M_bind at 1.
    destruct (clearAllRalfreshSubModes_returns d sid false w1) as (b' & w2 & ->).
    by eexists _, _.
  - cbv zeta. unfold mbind at 1, M_bind at 1.
    destruct (getRalfreshContext_total d w) as [s ->]. by eexists _, _.
Qed.

Lemma initRalfresh_returns directory request sid config w :
  returns (initRalfresh directory request sid config) w.
Proof.
  unfold returns.
  destruct (decide (js_length request > MAX_PROMPT_LENGTH)) as [Hlong|Hlen].
  { rewrite initRalfresh_too_long by done. by eexists _, _. }
  destruct ((mode_registry w "ralfresh" directory).1) eqn:Hreg; cycle 1.
  { rewrite initRalfresh_blocked by done. by eexists _, _. }
  destruct (initRalfresh_spec directory request sid config w) as (v' & Hr' & ->);
    [lia | done |].
  cbv zeta. destruct (decide _); by eexists _, _.
Qed.

Lemma transitionRalfreshPhase_returns directory q st w :
  instance_at directory w = Some st ->
  returns (transitionRalfreshPhase directory q) w.
Proof.
  intros (v & Hs & Hr)%instance_at_inv. unfold returns.
  destruct (active st) eqn:Ha; cycle 1.
  { rewrite (transition_inactive _ _ v) by
      (try done; by rewrite (rep_active _ _ Hr), Ha). by eexists _, _. }
  destruct (decide (q ∈ VALID_TRANSITIONS (phase st))) as [Hq|Hq]; cycle 1.
  { rewrite (transition_rejected _ (phase st) _ v); try done.
    - by eexists _, _.
    - by eapply rep_valid.
    - by rewrite (rep_active _ _ Hr), Ha.
    - apply Hr. }
  destruct (transition_accepted directory q v st w Hs Hr Ha Hq) as (v' & Hr' & ->).
  destruct (decide _); by eexists _, _.
Qed.

Lemma incrementRalfreshIteration_returns directory sid st w :
  instance_at directory w = Some st ->
  returns (incrementRalfreshIteration directory sid) w.
Proof.
  intros Hi. pose proof Hi as (v & Hs & Hr)%instance_at_inv. unfold returns.
  destruct (active st) eqn:Ha; cycle 1.
  { rewrite (increment_inactive _ _ v) by
      (try done; by rewrite (rep_active _ _ Hr), Ha). by eexists _, _. }
  destruct (decide (iteration st < maxIterations st)) as [Hlt|Hge].
  - destruct (increment_below_ceiling directory sid v st w Hs Hr Ha Hlt)
      as (v' & Hr' & ->).
    cbv zeta. destruct (decide _); by eexists _, _.
  - rewrite (increment_at_ceiling _ _ v); try done.
    + by eapply transitionRalfreshPhase_returns.
    + by eapply rep_valid.
    + by rewrite (rep_active _ _ Hr), Ha.
    + rewrite (rep_iteration _ _ Hr), (rep_maxIterations _ _ Hr). simpl. lia.
Qed.

(** X25. Exceptions are confined.  Whatever the world holds, the reader,
    the writer, [clearRalfreshState], [isRalfreshActive], the reaper,
    [initRalfresh], the two [add] functions, [getRalfreshContext] and
    [processRalfreshLoop] return; and on a typed instance so do
    [transitionRalfreshPhase] and [incrementRalfreshIteration]. *)
Theorem the_module_does_not_throw directory w :
  returns (readRalfreshState directory) w /\
  (forall v, returns (writeRalfreshState directory v) w) /\
  returns (clearRalfreshState directory) w /\
  returns (isRalfreshActive directory) w /\
  (forall sid force, returns (clearAllRalfreshSubModes directory sid force) w) /\
  (forall request sid config, returns (initRalfresh directory request sid config) w) /\
  (forall entry, returns (addRalfreshLearning directory entry) w) /\
  (forall entry, returns (addRalfreshIssue directory entry) w) /\
  returns (getRalfreshContext directory) w /\
  (forall sid dir, returns (processRalfreshLoop sid dir) w) /\
  (forall st, instance_at directory w = Some st ->
     (forall q, returns (transitionRalfreshPhase directory q) w) /\
     (forall sid, returns (incrementRalfreshIteration directory sid) w)).
Proof.
  split; [unfold returns; rewrite readRalfreshState_spec; by eexists _, _|].
  split; [intros v; unfold returns; rewrite writeRalfreshState_spec;
          destruct (decide _); by eexists _, _|].
  split; [apply clearRalfreshState_returns|].
  split; [unfold returns, isRalfreshActive, mbind, M_bind;
          rewrite readRalfreshState_spec; by eexists _, _|].
  split; [intros; apply clearAllRalfreshSubModes_returns|].
  split; [intros; apply initRalfresh_returns|].
  split; [intros; apply addRalfreshLearning_returns|].
  split; [intros; apply addRalfreshIssue_returns|].
  split; [apply getRalfreshContext_returns|].
  split; [intros; apply processRalfreshLoop_returns|].
  intros st Hi. split; intros.
  - by eapply transitionRalfreshPhase_returns.
  - by eapply incrementRalfreshIteration_returns.
Qed.

(** ** Whole rounds *)

Lemma clock_cleaned directory sid force w :
  clock (clearAllRalfreshSubModes directory sid force w).2 = clock w.
Proof.
  destruct (clearAllRalfreshSubModes_spec directory sid force w)
    as (b & w' & -> & Hrem & _).
  by eapply removes_clock.
Qed.

Lemma transition_step directory q st w :
  instance_at directory w = Some st ->
  active st = true ->
  q ∈ VALID_TRANSITIONS (phase st) ->
  writable directory w ->
  instance_at directory (run_op directory (OpTransition q) w)
    = Some (transition_state (clock w) q st) /\
  writable directory (run_op directory (OpTransition q) w) /\
  clock (run_op directory (OpTransition q) w) = clock w.
Proof.
  intros (v & Hs & Hr)%instance_at_inv Ha Hq Hw. cbn [run_op].
  destruct (transition_accepted directory q v st w Hs Hr Ha Hq) as (v' & Hr' & ->).
  rewrite decide_True by done. cbn [snd].
  split; [by apply instance_at_written | done].
Qed.

Lemma increment_step directory sid st w :
  instance_at directory w = Some st ->
  active st = true ->
  iteration st < maxIterations st ->
  writable directory w ->
  instance_at directory (run_op directory (OpIncrement sid) w)
    = Some (increment_state (clock w) st) /\
  writable directory (run_op directory (OpIncrement sid) w) /\
  clock (run_op directory (OpIncrement sid) w) = clock w.
Proof.
  intros (v & Hs & Hr)%instance_at_inv Ha Hlt Hw. cbn [run_op].
  destruct (increment_below_ceiling directory sid v st w Hs Hr Ha Hlt)
    as (v' & Hr' & ->).
  cbv zeta. rewrite decide_True by done. cbn [snd].
  split; [by apply instance_at_written|]. split.
  - apply writable_written. unfold writable. by rewrite readonly_cleaned.
  - change (clock (clearAllRalfreshSubModes directory sid false w).2 = clock w).
    apply clock_cleaned.
Qed.

Lemma to_assess_steps directory st w :
  instance_at directory w = Some st ->
  active st = true ->
  phase st = planning ->
  writable directory w ->
  instance_at directory (run_ops directory to_assess w)
    = Some (transition_state (clock w) assess
              (transition_state (clock w) review
                 (transition_state (clock w) execution st))) /\
  writable directory (run_ops directory to_assess w) /\
  clock (run_ops directory to_assess w) = clock w.
Proof.
  intros Hi Ha Hp Hw. unfold run_ops, to_assess. cbn [foldl].
  destruct (transition_step directory execution st w Hi Ha) as (Hi1 & Hw1 & Hc1);
    [rewrite Hp; decide_it | done |].
  destruct (transition_step directory review _ _ Hi1) as (Hi2 & Hw2 & Hc2);
    [by cbn; rewrite Ha | decide_it | done |].
  destruct (transition_step directory assess _ _ Hi2) as (Hi3 & Hw3 & Hc3);
    [by cbn; rewrite Ha | decide_it | done |].
  rewrite Hc2, Hc1 in Hi3.
  split; [exact Hi3|]. split; [done | congruence].
Qed.

(** X26. An approved round: from a persisted active instance in
    [planning], the transitions to [execution], [review], [assess] and
    [complete] all succeed, and leave an inactive instance in [complete]
    with [completedAt] set, the iteration, the lists and the prompt as they
    were, and the four work phases completed. *)
Theorem approved_round_completes directory st w :
  instance_at directory w = Some st ->
  active st = true ->
  phase st = planning ->
  writable directory w ->
  exists st',
    instance_at directory
      (run_ops directory (to_assess ++ [OpTransition complete]) w) = Some st' /\
    phase st' = complete /\
    active st' = false /\
    completedAt st' = Some (clock w) /\
    iteration st' = iteration st /\
    Forall (fun p =>
      status (phase_record p (phases st')) = status_complete /\
      ps_completedAt (phase_record p (phases st')) = Some (clock w)) work_phases /\
    learnings st' = learnings st /\ issues st' = issues st /\ prompt st' = prompt st.
Proof.
  intros Hi Ha Hp Hw.
  destruct (to_assess_steps directory st w Hi Ha Hp Hw) as (Hi3 & Hw3 & Hc3).
  unfold run_ops in *. rewrite foldl_app. cbn [foldl].
  destruct (transition_step directory complete _ _ Hi3) as (Hi4 & _);
    [by cbn; rewrite Ha | decide_it | done |].
  rewrite Hc3 in Hi4. eexists. split; [exact Hi4|].
  destruct st as [a i m p pr sa ca sid nn t l iss pp lm]. cbn in Hp. subst p.
  cbn. repeat split. repeat constructor.
Qed.

Lemma approved_round_completes_witness :
  instance_at project started_world = Some started_state /\
  exists st',
    instance_at project
      (run_ops project (to_assess ++ [OpTransition complete]) started_world) = Some st' /\
    phase st' = complete /\
    active st' = false /\
    completedAt st' = Some new_year /\
    iteration st' = 1.
Proof.
  assert (H1 : instance_at project started_world = Some started_state) by compute_it.
  assert (H4 : writable project started_world) by decide_it.
  split; [exact H1|].
  destruct (approved_round_completes project started_state started_world
              H1 eq_refl eq_refl H4)
    as (st' & Hi & Hp & Ha & Hc & Hit & _).
  exists st'. split; [exact Hi|]. split; [exact Hp|]. split; [exact Ha|].
  split; [exact Hc | exact Hit].
Defined.

Lemma rejected_round_below_ceiling directory sid st w :
  instance_at directory w = Some st ->
  active st = true ->
  phase st = planning ->
  writable directory w ->
  iteration st < maxIterations st ->
  - two53 <= iteration st < two53 ->
  exists st',
    instance_at directory (run_ops directory (rejected_round sid) w) = Some st' /\
    active st' = true /\ phase st' = planning /\
    iteration st' = iteration st + 1 /\
    maxIterations st' = maxIterations st /\
    writable directory (run_ops directory (rejected_round sid) w).
Proof.
  intros Hi Ha Hp Hw Hlt Hexact.
  destruct (to_assess_steps directory st w Hi Ha Hp Hw) as (Hi3 & Hw3 & Hc3).
  unfold rejected_round, run_ops in *. rewrite foldl_app. cbn [foldl].
  destruct (increment_step directory sid _ _ Hi3) as (Hi4 & Hw4 & _);
    [by cbn; rewrite Ha | by cbn | done |].
  eexists. split; [exact Hi4|].
  cbn [increment_state transition_state active phase iteration maxIterations].
  rewrite Ha, js_add_exact by lia. done.
Qed.

Lemma rejected_round_at_ceiling directory sid st w :
  instance_at directory w = Some st ->
  active st = true ->
  phase st = planning ->
  writable directory w ->
  maxIterations st <= iteration st ->
  exists st',
    instance_at directory (run_ops directory (rejected_round sid) w) = Some st' /\
    active st' = false /\ phase st' = failed /\
    iteration st' = iteration st /\
    maxIterations st' = maxIterations st.
Proof.
  intros Hi Ha Hp Hw Hge.
  destruct (to_assess_steps directory st w Hi Ha Hp Hw) as (Hi3 & Hw3 & Hc3).
  unfold rejected_round, run_ops in *. rewrite foldl_app. cbn [foldl run_op].
  pose proof Hi3 as (v & Hs & Hr)%instance_at_inv.
  rewrite (increment_at_ceiling _ _ v); try done; cycle 1.
  { by eapply rep_valid. }
  { rewrite (rep_active _ _ Hr). cbn. by rewrite Ha. }
  { rewrite (rep_iteration _ _ Hr), (rep_maxIterations _ _ Hr). cbn. lia. }
  destruct (transition_step directory failed _ _ Hi3) as (Hi4 & _);
    [by cbn; rewrite Ha | decide_it | done |].
  cbn [run_op] in Hi4. eexists. split; [exact Hi4|]. done.
Qed.

Lemma rejected_rounds_below_ceiling directory sid n : forall st w,
  instance_at directory w = Some st ->
  active st = true ->
  phase st = planning ->
  writable directory w ->
  iteration st + Z.of_nat n <= maxIterations st ->
  - two53 <= iteration st ->
  maxIterations st <= two53 ->
  exists st',
    instance_at directory (run_ops directory (rejected_rounds n sid) w) = Some st' /\
    active st' = true /\ phase st' = planning /\
    iteration st' = iteration st + Z.of_nat n /\
    maxIterations st' = maxIterations st /\
    writable directory (run_ops directory (rejected_rounds n sid) w).
Proof.
  induction n as [|n IH]; intros st w Hi Ha Hp Hw Hle Hlow Hhigh.
  - exists st. cbn. repeat split; try done. lia.
  - cbn [rejected_rounds]. unfold run_ops. rewrite foldl_app.
    fold (run_ops directory (rejected_round sid) w).
    fold (run_ops directory (rejected_rounds n sid)
            (run_ops directory (rejected_round sid) w)).
    destruct (rejected_round_below_ceiling directory sid st w Hi Ha Hp Hw)
      as (st1 & Hi1 & Ha1 & Hp1 & Hit1 & Hm1 & Hw1); [lia | lia |].
    destruct (IH st1 _ Hi1 Ha1 Hp1 Hw1) as (st' & Hi' & Ha' & Hp' & Hit' & Hm' & Hw');
      [lia | lia | lia |].
    exists st'. repeat split; try done; lia.
Qed.

(** X27. Retries are bounded.  From a persisted active instance in
    [planning] that has [n] iterations left, with its counter and ceiling
    where the number type counts exactly ([-2^53 <= iteration],
    [maxIterations <= 2^53]), [n] rejected rounds (through the phases to
    [assess], then [incrementRalfreshIteration]) lead to an active instance
    in [planning] at the ceiling, and one more rejected round ends in
    [failed], inactive, the counter still at the ceiling. *)
Theorem rejected_rounds_end_in_failure directory sid n st w :
  instance_at directory w = Some st ->
  active st = true ->
  phase st = planning ->
  writable directory w ->
  iteration st + Z.of_nat n = maxIterations st ->
  - two53 <= iteration st ->
  maxIterations st <= two53 ->
  (exists st',
     instance_at directory (run_ops directory (rejected_rounds n sid) w) = Some st' /\
     active st' = true /\ phase st' = planning /\
     iteration st' = maxIterations st) /\
  (exists st',
     instance_at directory (run_ops directory (rejected_rounds (S n) sid) w) = Some st' /\
     active st' = false /\ phase st' = failed /\
     iteration st' = maxIterations st).
Proof.
  intros Hi Ha Hp Hw Hn Hlow Hhigh.
  destruct (rejected_rounds_below_ceiling directory sid n st w Hi Ha Hp Hw)
    as (st1 & Hi1 & Ha1 & Hp1 & Hit1 & Hm1 & Hw1); [lia | done | done |].
  split.
  { exists st1. repeat split; try done. lia. }
  assert (Hsplit : rejected_rounds (S n) sid
                   = (rejected_rounds n sid ++ rejected_round sid)%list).
  { clear. induction n as [|n IH]; [done|].
    cbn [rejected_rounds] in *. rewrite IH at 1. by rewrite app_assoc. }
  rewrite Hsplit. unfold run_ops. rewrite foldl_app.
  fold (run_ops directory (rejected_rounds n sid) w).
  fold (run_ops directory (rejected_round sid)
          (run_ops directory (rejected_rounds n sid) w)).
  destruct (rejected_round_at_ceiling directory sid st1 _ Hi1 Ha1 Hp1 Hw1)
    as (st' & Hi' & Ha' & Hp' & Hit' & Hm'); [lia|].
  exists st'. repeat split; try done. lia.
Qed.

Lemma rejected_rounds_end_in_failure_witness :
  instance_at project two_shots_world = Some two_shots_state /\
  (exists st',
     instance_at project (run_ops project (rejected_rounds 1 None) two_shots_world)
       = Some st' /\
     active st' = true /\ phase st' = planning /\ iteration st' = 2) /\
  (exists st',
     instance_at project (run_ops project (rejected_rounds 2 None) two_shots_world)
       = Some st' /\
     active st' = false /\ phase st' = failed /\ iteration st' = 2).
Proof.
  assert (H5 : iteration two_shots_state + Z.of_nat 1 = maxIterations two_shots_state)
    by reflexivity.
  assert (H6 : - two53 <= iteration two_shots_state) by done.
  assert (H7 : maxIterations two_shots_state <= two53) by done.
  assert (H1 : instance_at project two_shots_world = Some two_shots_state) by compute_it.
  assert (H4 : writable project two_shots_world) by decide_it.
  split; [exact H1|].
  exact (rejected_rounds_end_in_failure project None 1 two_shots_state two_shots_world
           H1 eq_refl eq_refl H4 H5 H6 H7).
Defined.
